(** * The migration context of alembic ([alembic/context.py])

    A shallow embedding of [Context] (the current-revision read, the pointer
    write and the run loop) and of the module-level options registry with
    [configure], followed by the properties of the migration run that the
    specification states.

    Python values are typed as the code uses them: a revision is a string or
    [None]; the loop variables of [run_migrations] also take the sentinel
    [False].  Effects (statements sent to the connection, text written to the
    output buffer, exceptions) are threaded through an explicit world by a
    small state-and-exception monad: an exception keeps the effects that
    happened before it, as in Python. *)

From Stdlib Require Import String Ascii List Bool.
From stdpp Require Import base option.
Import ListNotations.
Local Open Scope string_scope.
Local Open Scope list_scope.

(** ** Revisions and Python truthiness *)

(** A revision identifier: [Some s] for the string [s], [None] for Python's
    [None]. *)
Definition RevisionId : Type := option string.

(** The values taken by the variables [current_rev] and [rev] of
    [run_migrations]: the initial sentinel [False], or a revision. *)
Inductive PyRev : Type :=
| PyFalse
| PyRevision (r : RevisionId).

(** [bool(r)]: [None] and the empty string are false. *)
Definition truthy (r : RevisionId) : bool :=
  match r with
  | None => false
  | Some s => negb (String.eqb s "")
  end.

Definition py_truthy (v : PyRev) : bool :=
  match v with
  | PyFalse => false
  | PyRevision r => truthy r
  end.

(** [a == b] *)
Definition py_eqb (a b : PyRev) : bool :=
  match a, b with
  | PyFalse, PyFalse => true
  | PyRevision None, PyRevision None => true
  | PyRevision (Some x), PyRevision (Some y) => String.eqb x y
  | _, _ => false
  end.

(** [v is None] *)
Definition is_None (v : PyRev) : bool :=
  match v with
  | PyRevision None => true
  | _ => false
  end.

(** [v is False] *)
Definition is_False (v : PyRev) : bool :=
  match v with
  | PyFalse => true
  | _ => false
  end.

(** ["%s" % v] *)
Definition py_str (v : PyRev) : string :=
  match v with
  | PyFalse => "False"
  | PyRevision None => "None"
  | PyRevision (Some s) => s
  end.

(** ** Statements on the version table

    [_version] is the table [alembic_version] with its one column
    [version_num].  The constructs below are the ones [context.py] builds
    from it, and the textual statement a migration passes to [execute]. *)
Inductive Construct : Type :=
| CreateTable                       (* the DDL of _version.create *)
| DropTable                         (* the DDL of _version.drop *)
| VersionSelect                     (* _version.select() *)
| VersionDelete                     (* _version.delete() *)
| VersionInsert (literal : string)  (* _version.insert().values(version_num=literal_column(..)) *)
| VersionUpdate (literal : string)  (* _version.update().values(version_num=literal_column(..)) *)
| TextClause (sql : string).        (* a statement of a migration *)

(** ["'%s'" % new] *)
Definition quoted (new : PyRev) : string := "'" ++ py_str new ++ "'".

(** ** The store behind a live connection *)

(** Modelled from the spec: the database behind the connection, which the
    code reaches through sqlalchemy.  It is the pointer storage of the
    specification: the version table is absent or holds rows of one string
    each; the other statements a migration runs are kept in the order they
    were executed. *)
Record Store : Type := mkStore {
  version_rows : option (list string);
  applied_sql : list string
}.

(** The version pointer the store holds: the scalar of the select, [None]
    when there is no row (or no table). *)
Definition pointer (s : Store) : RevisionId :=
  match version_rows s with
  | Some (r :: _) => Some r
  | _ => None
  end.

Definition has_table (s : Store) : bool :=
  match version_rows s with Some _ => true | None => false end.

Fixpoint drop_last (s : string) : string :=
  match s with
  | EmptyString => EmptyString
  | String c EmptyString => EmptyString
  | String c rest => String c (drop_last rest)
  end.

(** The value of a literal column ['...']: the text between the enclosing
    quotes. *)
Definition literal_value (literal : string) : string :=
  match literal with
  | EmptyString => EmptyString
  | String _ rest => drop_last rest
  end.

Inductive Exn : Type :=
| CommandError (msg : string)            (* util.CommandError *)
| KeyError (key : string)
| PyException (msg : string)             (* Exception(msg) *)
| UnboundExecutionError                  (* no connection to execute on *)
| DriverError (msg : string)             (* raised by the store *)
| MigrationError (msg : string).         (* raised inside a migration *)

(** Modelled from the spec: what the database does with one statement;
    the new store and the scalar result.  A statement on the version table
    fails when the table is absent, its creation when it is present; the
    delete and the update carry no condition, so they reach every row. *)
Definition store_execute (c : Construct) (s : Store)
  : Exn + (RevisionId * Store) :=
  match c, version_rows s with
  | CreateTable, None => inr (None, mkStore (Some []) (applied_sql s))
  | CreateTable, Some _ => inl (DriverError "table alembic_version already exists")
  | TextClause sql, _ =>
      inr (None, mkStore (version_rows s) (applied_sql s ++ [sql]))
  | _, None => inl (DriverError "no such table: alembic_version")
  | DropTable, Some _ => inr (None, mkStore None (applied_sql s))
  | VersionSelect, Some _ => inr (pointer s, s)
  | VersionDelete, Some _ => inr (None, mkStore (Some []) (applied_sql s))
  | VersionInsert lit, Some rows =>
      inr (None, mkStore (Some (rows ++ [literal_value lit])) (applied_sql s))
  | VersionUpdate lit, Some rows =>
      inr (None, mkStore (Some (map (fun _ => literal_value lit) rows))
                         (applied_sql s))
  end.

(** ** The world and the monad *)

(** What a run does, in order.  [EvWrite] is a ghost event: it records that
    [_update_current_rev] was entered, with its arguments, also when the
    call turns out to do nothing. *)
Inductive Event : Type :=
| EvLive (c : Construct)      (* a statement given to the live connection *)
| EvStatic (text : string)    (* impl.static_output(text) *)
| EvRender (c : Construct)    (* a statement rendered to the output buffer *)
| EvWrite (old new : PyRev).

Record World : Type := mkWorld {
  store : Store;
  events : list Event
}.

Inductive Outcome (A : Type) : Type :=
| Done (a : A) (w : World)
| Raised (e : Exn) (w : World).
Arguments Done {A} a w.
Arguments Raised {A} e w.

Definition M (A : Type) : Type := World -> Outcome A.

Definition ret {A : Type} (a : A) : M A := fun w => Done a w.

Definition bind {A B : Type} (m : M A) (k : A -> M B) : M B :=
  fun w =>
    match m w with
    | Done a w' => k a w'
    | Raised e w' => Raised e w'
    end.

Definition raise {A : Type} (e : Exn) : M A := fun w => Raised e w.

Definition emit (ev : Event) : M unit :=
  fun w => Done tt (mkWorld (store w) (events w ++ [ev])).

Declare Scope py_scope.
Delimit Scope py_scope with py.
Notation "x <- m ;; k" := (bind m (fun x => k))
  (at level 100, m at next level, k at level 200,
   right associativity) : py_scope.
Notation "m ;; k" := (bind m (fun _ => k))
  (at level 100, k at level 200, right associativity) : py_scope.
Notation "'when' b 'then' m" := (if b then m else ret tt)
  (at level 10, b at level 200, m at level 200) : py_scope.
Local Open Scope py_scope.

Definition world_of {A : Type} (o : Outcome A) : World :=
  match o with
  | Done _ w => w
  | Raised _ w => w
  end.

Definition completed {A : Type} (o : Outcome A) : bool :=
  match o with
  | Done _ _ => true
  | Raised _ _ => false
  end.

(** ** Dialects, connections, migrations *)

(** Modelled from the spec: the dialect object, resolved outside
    [context.py] (sqlalchemy and [alembic.ddl]); it carries its name and the
    default durability of its implementation class (whether the target
    supports transactional DDL). *)
Record Dialect : Type := mkDialect {
  dialect_name : string;
  supports_transactional_ddl : bool
}.

Record Connection : Type := mkConnection {
  conn_dialect : Dialect
}.

Record ScriptDirectory : Type := mkScript {
  script_location : string
}.

Inductive Buffer : Type :=
| sys_stdout
| Stream (name : string).

(** The keyword arguments handed through to the migration functions. *)
Definition Kw : Type := list (string * string).

(** What an [upgrade()] or [downgrade()] function of a revision file does:
    it executes statements through the context, and it may raise. *)
Inductive Action : Type :=
| Execute (sql : string)
| Raise (msg : string).

Record Change : Type := mkChange {
  __name__ : string;
  body : Kw -> list Action
}.

(** One element of the sequence [_migrations_fn] yields:
    [(change, prev_rev, rev)]. *)
Definition Step : Type := (Change * RevisionId * RevisionId)%type.

Definition Sequencer : Type := RevisionId -> list Step.

(** ** The implementation object [impl] *)

(** Modelled from the spec: [alembic.ddl.DefaultImpl], which is not in the
    source tree.  It keeps the dialect, the connection, the mode, the
    durability and the output buffer. *)
Record DefaultImpl : Type := mkImpl {
  impl_dialect : Dialect;
  impl_connection : option Connection;
  impl_as_sql : bool;
  transactional_ddl : bool;
  impl_output_buffer : Buffer
}.

(** Modelled from the spec: the constructor of [DefaultImpl]; the
    durability is the argument, or the capability of the dialect when the
    argument is [None]. *)
Definition DefaultImpl_init (dialect : Dialect) (connection : option Connection)
    (as_sql : bool) (transactional_ddl : option bool) (output_buffer : Buffer)
  : DefaultImpl :=
  mkImpl dialect connection as_sql
         (match transactional_ddl with
          | Some b => b
          | None => supports_transactional_ddl dialect
          end)
         output_buffer.

(** Modelled from the spec: [DefaultImpl.static_output], which writes an
    annotation to the output buffer. *)
Definition static_output (impl : DefaultImpl) (text : string) : M unit :=
  emit (EvStatic text).

(** [connection.execute(construct)] on a live connection. *)
Definition conn_execute (connection : option Connection) (c : Construct)
  : M RevisionId :=
  match connection with
  | None => raise UnboundExecutionError
  | Some _ =>
      fun w =>
        let ev := events w ++ [EvLive c] in
        match store_execute c (store w) with
        | inl e => Raised e (mkWorld (store w) ev)
        | inr (r, s) => Done r (mkWorld s ev)
        end
  end.

(** Modelled from the spec: [DefaultImpl._exec], which renders the
    statement to the output buffer in rendering mode and executes it on the
    connection otherwise. *)
Definition _exec (impl : DefaultImpl) (c : Construct) : M unit :=
  if impl_as_sql impl then emit (EvRender c)
  else (_ <- conn_execute (impl_connection impl) c ;; ret tt).

(** ** [Context] *)

Record Context : Type := mkContext {
  dialect : Dialect;
  script : option ScriptDirectory;
  connection : option Connection;   (* as given; see [bind_execute] *)
  _migrations_fn : Sequencer;
  as_sql : bool;
  output_buffer : Buffer;
  _start_from_rev : RevisionId;
  impl : DefaultImpl
}.

(** [Context.__init__] *)
Definition Context_init (dialect : Dialect) (script : option ScriptDirectory)
    (connection : option Connection) (fn : Sequencer) (as_sql : bool)
    (output_buffer : option Buffer) (transactional_ddl : option bool)
    (starting_rev : RevisionId) : Context :=
  let output_buffer :=
    match output_buffer with Some b => b | None => sys_stdout end in
  mkContext dialect script connection fn as_sql output_buffer starting_rev
            (DefaultImpl_init dialect connection as_sql transactional_ddl
                              output_buffer).

(** [Context.execute] *)
Definition execute (self : Context) (sql : string) : M unit :=
  _exec (impl self) (TextClause sql).

(** A statement given to [self.connection].  In rendering mode
    [self.connection] is the mock engine of [_stdout_connection], whose
    executor [dump] hands the construct to [impl._exec] and has no result;
    otherwise it is the connection itself. *)
Definition bind_execute (self : Context) (c : Construct) : M RevisionId :=
  if as_sql self then (_exec (impl self) c ;; ret None)
  else conn_execute (connection self) c.

(** [_version.create(self.connection, checkfirst=...)]: with [checkfirst]
    an existing table is left alone. *)
Definition version_create (self : Context) (checkfirst : bool) : M unit :=
  if as_sql self then (_ <- bind_execute self CreateTable ;; ret tt)
  else
    match connection self with
    | None => raise UnboundExecutionError
    | Some _ =>
        fun w =>
          if checkfirst && has_table (store w) then Done tt w
          else (_ <- bind_execute self CreateTable ;; ret tt) w
    end.

(** [_version.drop(self.connection)] *)
Definition version_drop (self : Context) : M unit :=
  _ <- bind_execute self DropTable ;; ret tt.

Definition _current_rev (self : Context) : M RevisionId :=
  if as_sql self then ret (_start_from_rev self)
  else
    ((if truthy (_start_from_rev self)
      then raise (CommandError
             "Can't specify current_rev to context when using a database connection")
      else version_create self true) ;;
     bind_execute self VersionSelect).

Definition _update_current_rev (self : Context) (old new : PyRev) : M unit :=
  emit (EvWrite old new) ;;
  if py_eqb old new then ret tt
  else if is_None new then _exec (impl self) VersionDelete
  else if is_None old then _exec (impl self) (VersionInsert (quoted new))
  else _exec (impl self) (VersionUpdate (quoted new)).

(** ["-- Running %s %s -> %s" % (change.__name__, prev_rev, rev)] *)
Definition running_header (change : Change) (prev_rev rev : RevisionId)
  : string :=
  "-- Running " ++ __name__ change ++ " " ++ py_str (PyRevision prev_rev)
  ++ " -> " ++ py_str (PyRevision rev).

(** Calling [change] with the keyword arguments [kw]. *)
Fixpoint run_actions (self : Context) (acts : list Action) : M unit :=
  match acts with
  | [] => ret tt
  | Execute sql :: rest => execute self sql ;; run_actions self rest
  | Raise msg :: _ => raise (MigrationError msg)
  end.

Definition call (self : Context) (change : Change) (kw : Kw) : M unit :=
  run_actions self (body change kw).

(** The body of the [for] loop of [run_migrations], on the variables
    [(current_rev, rev)]. *)
Definition loop_body (self : Context) (kw : Kw) (vars : PyRev * PyRev)
    (step : Step) : M (PyRev * PyRev) :=
  let '(change, prev_rev, rev) := step in
  let current_rev := fst vars in
  current_rev <-
    (if is_False current_rev then
       let current_rev := PyRevision prev_rev in
       (when as_sql self && negb (py_truthy current_rev)
        then version_create self false) ;;
       ret current_rev
     else ret current_rev) ;;
  (when as_sql self
   then static_output (impl self) (running_header change prev_rev rev)) ;;
  call self change kw ;;
  (when negb (transactional_ddl (impl self))
   then _update_current_rev self (PyRevision prev_rev) (PyRevision rev)) ;;
  ret (current_rev, PyRevision rev).

Fixpoint for_each (self : Context) (kw : Kw) (vars : PyRev * PyRev)
    (steps : list Step) : M (PyRev * PyRev) :=
  match steps with
  | [] => ret vars
  | step :: rest =>
      vars <- loop_body self kw vars step ;; for_each self kw vars rest
  end.

Definition run_migrations (self : Context) (kw : Kw) : M unit :=
  (when as_sql self && transactional_ddl (impl self)
   then static_output (impl self) "BEGIN;") ;;
  start <- _current_rev self ;;
  vars <- for_each self kw (PyFalse, PyFalse) (_migrations_fn self start) ;;
  let '(current_rev, rev) := vars in
  (when negb (is_False rev) then
     (when transactional_ddl (impl self)
      then _update_current_rev self current_rev rev) ;;
     (when as_sql self && negb (py_truthy rev) then version_drop self)) ;;
  (when as_sql self && transactional_ddl (impl self)
   then static_output (impl self) "COMMIT;").

(** ** The module-level registry *)

(** [_context_opts]: a field is [None] when the dictionary has no such key;
    a key can hold Python's [None] (the inner option). *)
Record Opts : Type := mkOpts {
  opt_fn : option Sequencer;
  opt_as_sql : option bool;
  opt_transactional_ddl : option (option bool);
  opt_output_buffer : option (option Buffer);
  opt_starting_rev : option RevisionId;
  opt_destination_rev : option RevisionId;
  opt_tag : option (option string)
}.

(** [{}] *)
Definition empty_opts : Opts :=
  mkOpts None None None None None None None.

(** [d.get(key)]: [None] for a missing key. *)
Definition get {A : Type} (entry : option (option A)) : option A :=
  match entry with
  | Some v => v
  | None => None
  end.

Definition override {A : Type} (new old : option A) : option A :=
  match new with
  | Some v => Some v
  | None => old
  end.

(** [_context_opts.update(kw)] *)
Definition update (opts kw : Opts) : Opts :=
  mkOpts (override (opt_fn kw) (opt_fn opts))
         (override (opt_as_sql kw) (opt_as_sql opts))
         (override (opt_transactional_ddl kw) (opt_transactional_ddl opts))
         (override (opt_output_buffer kw) (opt_output_buffer opts))
         (override (opt_starting_rev kw) (opt_starting_rev opts))
         (override (opt_destination_rev kw) (opt_destination_rev opts))
         (override (opt_tag kw) (opt_tag opts)).

Record Config : Type := mkConfig {
  config_file_name : string
}.

(** The globals of the module. *)
Record Globals : Type := mkGlobals {
  config : option Config;
  _context_opts : Opts;
  _context : option Context;
  _script : option ScriptDirectory
}.

Definition initial_globals : Globals :=
  mkGlobals None empty_opts None None.

Definition _opts (cfg : Config) (script : ScriptDirectory) (kw : Opts)
    (g : Globals) : Globals :=
  mkGlobals (Some cfg) (update (_context_opts g) kw) (_context g)
            (Some script).

Definition _clear (g : Globals) : Globals :=
  mkGlobals (config g) empty_opts None None.

Definition requires_connection (g : Globals) : bool :=
  negb (default false (opt_as_sql (_context_opts g))).

Definition get_tag_argument (g : Globals) : option string :=
  get (opt_tag (_context_opts g)).

(** The arguments of [configure]; every one defaults to [None]. *)
Record ConfigureArgs : Type := mkArgs {
  arg_connection : option Connection;
  arg_url : option string;
  arg_dialect_name : option string;
  arg_transactional_ddl : option bool;
  arg_output_buffer : option Buffer;
  arg_starting_rev : RevisionId;
  arg_tag : option string
}.

Section Configure.

(** [sqla_url.make_url(url).get_dialect()()], from sqlalchemy: it yields a
    dialect or raises. *)
Variable url_dialect : string -> Exn + Dialect.

Definition resolve_dialect (a : ConfigureArgs) : Exn + Dialect :=
  match arg_connection a with
  | Some c => inr (conn_dialect c)
  | None =>
      if truthy (arg_url a) then url_dialect (default "" (arg_url a))
      else if truthy (arg_dialect_name a)
      then url_dialect (default "" (arg_dialect_name a) ++ "://")
      else inl (PyException "Connection, url, or dialect_name is required.")
  end.

(** The assignments of [configure] to [opts], which is [_context_opts]
    itself. *)
Definition store_args (a : ConfigureArgs) (opts : Opts) : Opts :=
  let opts :=
    match arg_transactional_ddl a with
    | Some b =>
        mkOpts (opt_fn opts) (opt_as_sql opts) (Some (Some b))
               (opt_output_buffer opts) (opt_starting_rev opts)
               (opt_destination_rev opts) (opt_tag opts)
    | None => opts
    end in
  let opts :=
    match arg_output_buffer a with
    | Some b =>
        mkOpts (opt_fn opts) (opt_as_sql opts) (opt_transactional_ddl opts)
               (Some (Some b)) (opt_starting_rev opts)
               (opt_destination_rev opts) (opt_tag opts)
    | None => opts
    end in
  let opts :=
    if truthy (arg_starting_rev a)
    then mkOpts (opt_fn opts) (opt_as_sql opts) (opt_transactional_ddl opts)
                (opt_output_buffer opts) (Some (arg_starting_rev a))
                (opt_destination_rev opts) (opt_tag opts)
    else opts in
  if truthy (arg_tag a)
  then mkOpts (opt_fn opts) (opt_as_sql opts) (opt_transactional_ddl opts)
              (opt_output_buffer opts) (opt_starting_rev opts)
              (opt_destination_rev opts) (Some (arg_tag a))
  else opts.

(** [configure]: the exception, if any, and the globals afterwards. *)
Definition configure (a : ConfigureArgs) (g : Globals)
  : option Exn * Globals :=
  match resolve_dialect a with
  | inl e => (Some e, g)
  | inr dialect =>
      let opts := store_args a (_context_opts g) in
      match opt_fn opts with
      | None =>
          (Some (KeyError "fn"),
           mkGlobals (config g) opts (_context g) (_script g))
      | Some fn =>
          (None,
           mkGlobals (config g) opts
             (Some (Context_init dialect (_script g) (arg_connection a) fn
                      (default false (opt_as_sql opts))
                      (get (opt_output_buffer opts))
                      (get (opt_transactional_ddl opts))
                      (default None (opt_starting_rev opts))))
             (_script g))
      end
  end.

(** [configure], one call after the other. *)
Fixpoint configure_all (calls : list ConfigureArgs) (g : Globals)
  : Globals :=
  match calls with
  | [] => g
  | a :: rest => configure_all rest (snd (configure a g))
  end.

End Configure.

Definition get_context (g : Globals) : Exn + Context :=
  match _context g with
  | None => inl (PyException "No context has been configured yet.")
  | Some c => inr c
  end.

(** The module-level [run_migrations]. *)
Definition module_run_migrations (g : Globals) (kw : Kw) : M unit :=
  match get_context g with
  | inl e => raise e
  | inr c => run_migrations c kw
  end.

(** ** Reading the event log *)

(** A context whose implementation object has the mode and the connection
    of the context, as [Context.__init__] builds it. *)
Definition consistent (self : Context) : Prop :=
  impl_as_sql (impl self) = as_sql self /\
  impl_connection (impl self) = connection self.

(** How a statement given to [impl._exec] shows in the log. *)
Definition stmt_event (self : Context) (c : Construct) : Event :=
  if as_sql self then EvRender c else EvLive c.

Definition store_after (c : Construct) (s : Store) : Store :=
  match store_execute c s with
  | inr (_, s') => s'
  | inl _ => s
  end.

(** The store after the live statements of a piece of log. *)
Fixpoint replay (delta : list Event) (s : Store) : Store :=
  match delta with
  | [] => s
  | EvLive c :: rest => replay rest (store_after c s)
  | _ :: rest => replay rest s
  end.

(** The world after a piece of log happened. *)
Definition advance (delta : list Event) (w : World) : World :=
  mkWorld (replay delta (store w)) (events w ++ delta).

(** The statements of a rendered script, in order. *)
Fixpoint rendered (delta : list Event) : list Construct :=
  match delta with
  | [] => []
  | EvRender c :: rest => c :: rendered rest
  | _ :: rest => rendered rest
  end.

Definition is_live (ev : Event) : bool :=
  match ev with EvLive _ => true | _ => false end.

Definition is_write (ev : Event) : bool :=
  match ev with EvWrite _ _ => true | _ => false end.

Definition is_header (ev : Event) : bool :=
  match ev with
  | EvStatic text => String.prefix "-- Running " text
  | _ => false
  end.

Definition pointer_statement (c : Construct) : bool :=
  match c with
  | VersionDelete | VersionInsert _ | VersionUpdate _ => true
  | _ => false
  end.

(** A pointer write in the log: the ghost event of the call, or one of its
    statements, executed or rendered. *)
Definition is_pointer_write (ev : Event) : bool :=
  match ev with
  | EvWrite _ _ => true
  | EvLive c | EvRender c => pointer_statement c
  | EvStatic _ => false
  end.

(** A world in which [impl._exec] can run: rendering, or a connection and
    the version table in place. *)
Definition usable (self : Context) (w : World) : Prop :=
  as_sql self = true \/
  (is_Some (connection self) /\ has_table (store w) = true).

(** [m] returns [a] after exactly the log [delta], from every usable world,
    and leaves a usable world. *)
Definition yields {A : Type} (self : Context) (m : M A) (a : A)
    (delta : list Event) : Prop :=
  forall w, usable self w ->
    m w = Done a (advance delta w) /\ usable self (advance delta w).

(** [m] raises [e] after exactly the log [delta]. *)
Definition throws {A : Type} (self : Context) (m : M A) (e : Exn)
    (delta : list Event) : Prop :=
  forall w, usable self w -> m w = Raised e (advance delta w).

(** The statements of a migration before it raises, and what it raises. *)
Fixpoint sqls (acts : list Action) : list string :=
  match acts with
  | [] => []
  | Execute sql :: rest => sql :: sqls rest
  | Raise _ :: _ => []
  end.

Fixpoint raises (acts : list Action) : option string :=
  match acts with
  | [] => None
  | Execute _ :: rest => raises rest
  | Raise msg :: _ => Some msg
  end.

Definition succeeds (kw : Kw) (step : Step) : Prop :=
  raises (body (fst (fst step)) kw) = None.

Definition prev_rev_of (step : Step) : RevisionId := snd (fst step).
Definition rev_of (step : Step) : RevisionId := snd step.

(** The sequencer's contract: the steps start at [start] and each one starts
    where the one before ended. *)
Fixpoint chained (start : RevisionId) (steps : list Step) : Prop :=
  match steps with
  | [] => True
  | step :: rest => prev_rev_of step = start /\ chained (rev_of step) rest
  end.

(** Where a sequence of steps ends. *)
Definition final_rev (start : RevisionId) (steps : list Step) : RevisionId :=
  List.last (map rev_of steps) start.

(** The log of one call of [_update_current_rev]. *)
Definition write_statement (old new : PyRev) : list Construct :=
  if py_eqb old new then []
  else if is_None new then [VersionDelete]
  else if is_None old then [VersionInsert (quoted new)]
  else [VersionUpdate (quoted new)].

Definition write_delta (self : Context) (old new : PyRev) : list Event :=
  EvWrite old new :: map (stmt_event self) (write_statement old new).

Definition body_delta (self : Context) (acts : list Action) : list Event :=
  map (fun sql => stmt_event self (TextClause sql)) (sqls acts).

Definition header_delta (self : Context) (step : Step) : list Event :=
  if as_sql self
  then [EvStatic (running_header (fst (fst step)) (prev_rev_of step)
                                 (rev_of step))]
  else [].

(** The statement block of a step: its header and its statements. *)
Definition block (self : Context) (kw : Kw) (step : Step) : list Event :=
  header_delta self step ++ body_delta self (body (fst (fst step)) kw).

(** The log of one iteration of the loop after the first. *)
Definition step_delta (self : Context) (kw : Kw) (step : Step) : list Event :=
  block self kw step ++
  (if transactional_ddl (impl self) then []
   else write_delta self (PyRevision (prev_rev_of step))
                         (PyRevision (rev_of step))).

Definition create_delta (self : Context) (steps : list Step) : list Event :=
  match steps with
  | step :: _ =>
      if as_sql self && negb (truthy (prev_rev_of step))
      then [EvRender CreateTable] else []
  | [] => []
  end.

Definition closing_delta (self : Context) (steps : list Step) : list Event :=
  match steps with
  | first :: rest =>
      let rev := final_rev (rev_of first) rest in
      (if transactional_ddl (impl self)
       then write_delta self (PyRevision (prev_rev_of first)) (PyRevision rev)
       else []) ++
      (if as_sql self && negb (truthy rev) then [EvRender DropTable] else [])
  | [] => []
  end.

Definition marker (self : Context) (text : string) : list Event :=
  if as_sql self && transactional_ddl (impl self) then [EvStatic text] else [].

(** The log of the current-revision read. *)
Definition read_delta (self : Context) (w : World) : list Event :=
  if as_sql self then []
  else (if has_table (store w) then [] else [EvLive CreateTable])
       ++ [EvLive VersionSelect].

(** The revision the run starts from. *)
Definition anchor (self : Context) (w : World) : RevisionId :=
  if as_sql self then _start_from_rev self else pointer (store w).

(** The log of a run over [steps] in which every step succeeds. *)
Definition run_delta (self : Context) (kw : Kw) (w : World)
    (steps : list Step) : list Event :=
  marker self "BEGIN;" ++ read_delta self w ++ create_delta self steps
  ++ flat_map (step_delta self kw) steps ++ closing_delta self steps
  ++ marker self "COMMIT;".

(** The run can reach its first step: in live mode there is a connection
    and no starting revision was given. *)
Definition startable (self : Context) : Prop :=
  as_sql self = true \/
  (is_Some (connection self) /\ truthy (_start_from_rev self) = false).

(** The statements of a piece of log, executed or rendered, in order. *)
Fixpoint constructs (delta : list Event) : list Construct :=
  match delta with
  | [] => []
  | EvLive c :: rest | EvRender c :: rest => c :: constructs rest
  | _ :: rest => constructs rest
  end.

(** Running a script of statements against a store, up to the first
    failure. *)
Fixpoint run_script (cs : list Construct) (s : Store) : Exn + Store :=
  match cs with
  | [] => inr s
  | c :: rest =>
      match store_execute c s with
      | inl e => inl e
      | inr (_, s') => run_script rest s'
      end
  end.

(** The statements of one iteration of the loop. *)
Definition step_script (kw : Kw) (transactional : bool) (step : Step)
  : list Construct :=
  map TextClause (sqls (body (fst (fst step)) kw)) ++
  (if transactional then []
   else write_statement (PyRevision (prev_rev_of step))
                        (PyRevision (rev_of step))).

(** The table is there and holds the pointer [r]. *)
Definition points_to (s : Store) (r : RevisionId) : Prop :=
  has_table s = true /\ pointer s = r.

(** The table is there and holds exactly the record of [r]: one row, or
    none for [None]. *)
Definition single_row (s : Store) (r : RevisionId) : Prop :=
  version_rows s = Some (match r with Some x => [x] | None => [] end).

(** [m] touches no live store: whatever it returns or raises, it only adds
    to the log, nothing of it on a live connection, and the store is as
    before. *)
Definition offline {A : Type} (m : M A) : Prop :=
  forall w, exists delta,
    events (world_of (m w)) = events w ++ delta /\
    forallb (fun ev => negb (is_live ev)) delta = true /\
    store (world_of (m w)) = store w.

(** The event of the header of a step. *)
Definition header_event (step : Step) : Event :=
  EvStatic (running_header (fst (fst step)) (prev_rev_of step) (rev_of step)).

(** ** The other module-level functions *)

(** [get_impl] *)
Definition get_impl (g : Globals) : Exn + DefaultImpl :=
  match get_context g with
  | inl e => inl e
  | inr c => inr (impl c)
  end.

(** The module-level [execute]. *)
Definition module_execute (g : Globals) (sql : string) : M unit :=
  match get_context g with
  | inl e => raise e
  | inr c => execute c sql
  end.

(** [configure_connection], the deprecated form of [configure]. *)
Definition configure_connection (url_dialect : string -> Exn + Dialect)
    (connection : Connection) (g : Globals) : option Exn * Globals :=
  configure url_dialect (mkArgs (Some connection) None None None None None None)
            g.

(** What the functions that read a revision argument raise: the exception
    of an attribute looked up on [None], or an exception of the module or of
    the script directory. *)
Inductive ArgError : Type :=
| AttributeError (attr : string)
| ArgExn (e : Exn).

Section RevisionArguments.

(** [ScriptDirectory._as_rev_number], from [alembic.script]: it turns a
    revision argument into a revision number, or raises. *)
Variable _as_rev_number : ScriptDirectory -> RevisionId -> Exn + RevisionId.

(** [_script._as_rev_number(arg)] *)
Definition script_rev_number (g : Globals) (arg : RevisionId)
  : ArgError + RevisionId :=
  match _script g with
  | None => inl (AttributeError "_as_rev_number")
  | Some script =>
      match _as_rev_number script arg with
      | inl e => inl (ArgExn e)
      | inr r => inr r
      end
  end.

Definition get_head_revision (g : Globals) : ArgError + RevisionId :=
  script_rev_number g (Some "head").

Definition get_starting_revision_argument (g : Globals)
  : ArgError + RevisionId :=
  match _context g with
  | Some c => script_rev_number g (_start_from_rev c)
  | None =>
      match opt_starting_rev (_context_opts g) with
      | Some starting_rev => script_rev_number g starting_rev
      | None =>
          inl (ArgExn (CommandError
                         "No starting revision argument is available."))
      end
  end.

(** The attribute [_script._as_rev_number] is looked up before the key
    ['destination_rev']. *)
Definition get_revision_argument (g : Globals) : ArgError + RevisionId :=
  match _script g with
  | None => inl (AttributeError "_as_rev_number")
  | Some _ =>
      match opt_destination_rev (_context_opts g) with
      | None => inl (ArgExn (KeyError "destination_rev"))
      | Some destination_rev => script_rev_number g destination_rev
      end
  end.

End RevisionArguments.

(** The creation and the removal of the version table, among the
    statements. *)
Definition table_statement (c : Construct) : bool :=
  match c with
  | CreateTable | DropTable => true
  | _ => false
  end.

(** The annotation [text] in the log. *)
Definition is_static (text : string) (ev : Event) : bool :=
  match ev with
  | EvStatic t => String.eqb t text
  | _ => false
  end.

(** The text a statement adds to the statements executed on the store. *)
Definition statement_text (c : Construct) : list string :=
  match c with
  | TextClause sql => [sql]
  | _ => []
  end.

(** * Properties *)

(** ** Values *)

Lemma py_eqb_eq (a b : PyRev) : py_eqb a b = true <-> a = b.
Proof.
  destruct a as [|[x|]], b as [|[y|]]; simpl; split; intros H;
    try discriminate; try reflexivity.
  - apply String.eqb_eq in H. now subst.
  - injection H as ->. apply String.eqb_refl.
Qed.

Lemma py_eqb_neq (a b : PyRev) : py_eqb a b = false <-> a <> b.
Proof.
  split.
  - intros H E. apply py_eqb_eq in E. congruence.
  - intros H. destruct (py_eqb a b) eqn:E; [|reflexivity].
    apply py_eqb_eq in E. contradiction.
Qed.

Lemma drop_last_snoc (s : string) (c : ascii) :
  drop_last (s ++ String c EmptyString) = s.
Proof.
  induction s as [|a s IH]; [reflexivity|].
  change (drop_last (String a (s ++ String c EmptyString)) = String a s).
  destruct s as [|b s]; [reflexivity|].
  simpl in IH |- *. now rewrite IH.
Qed.

Lemma literal_value_quoted (s : string) :
  literal_value (quoted (PyRevision (Some s))) = s.
Proof. unfold quoted. simpl. apply drop_last_snoc. Qed.

(** ** The log and the store *)

Lemma advance_nil (w : World) : advance [] w = w.
Proof. destruct w. unfold advance. simpl. now rewrite app_nil_r. Qed.

Lemma replay_app (d1 d2 : list Event) (s : Store) :
  replay (d1 ++ d2) s = replay d2 (replay d1 s).
Proof.
  revert s. induction d1 as [|ev d1 IH]; intros s; [reflexivity|].
  destruct ev; simpl; apply IH.
Qed.

Lemma advance_app (d1 d2 : list Event) (w : World) :
  advance (d1 ++ d2) w = advance d2 (advance d1 w).
Proof.
  unfold advance. simpl. now rewrite replay_app, app_assoc.
Qed.

Lemma replay_not_live (delta : list Event) (s : Store) :
  forallb (fun ev => negb (is_live ev)) delta = true -> replay delta s = s.
Proof.
  induction delta as [|ev delta IH]; [reflexivity|].
  simpl. intros H. apply andb_prop in H as [H1 H2].
  destruct ev; try discriminate; simpl; auto.
Qed.

Lemma store_after_has_table (c : Construct) (s : Store) :
  c <> DropTable -> has_table s = true -> has_table (store_after c s) = true.
Proof.
  intros Hc. unfold has_table, store_after, store_execute.
  destruct (version_rows s) eqn:E; [|discriminate]. intros _.
  destruct c; simpl; try rewrite E; try reflexivity. contradiction.
Qed.

Lemma store_execute_ok (c : Construct) (s : Store) :
  has_table s = true -> c <> CreateTable ->
  exists r, store_execute c s = inr (r, store_after c s).
Proof.
  unfold has_table, store_after, store_execute.
  destruct (version_rows s) eqn:E; [|discriminate]. intros _ Hc.
  destruct c; try contradiction; eexists; reflexivity.
Qed.

Lemma final_rev_cons (start : RevisionId) (step : Step) (rest : list Step) :
  final_rev start (step :: rest) = final_rev (rev_of step) rest.
Proof.
  unfold final_rev. simpl map.
  generalize (rev_of step) (map rev_of rest) start. intros a l.
  revert a. induction l as [|b l IH]; intros a d; [reflexivity|].
  change (List.last (a :: b :: l) d) with (List.last (b :: l) d).
  now rewrite (IH b d), (IH b a).
Qed.

(** ** The effects of the operations of a context *)

Section Effects.

Variable self : Context.
Hypothesis Hself : consistent self.

Lemma yields_ret {A : Type} (a : A) : yields self (ret a) a [].
Proof. intros w Hu. rewrite advance_nil. now split. Qed.

Lemma yields_bind {A B : Type} (m : M A) (k : A -> M B) (a : A) (b : B)
    (d1 d2 : list Event) :
  yields self m a d1 -> yields self (k a) b d2 ->
  yields self (bind m k) b (d1 ++ d2).
Proof.
  intros H1 H2 w Hu.
  destruct (H1 w Hu) as [E1 U1]. destruct (H2 _ U1) as [E2 U2].
  unfold bind. rewrite E1, E2, advance_app. now split.
Qed.

Lemma throws_bind_l {A B : Type} (m : M A) (k : A -> M B) (e : Exn)
    (d : list Event) :
  throws self m e d -> throws self (bind m k) e d.
Proof. intros H w Hu. unfold bind. now rewrite (H w Hu). Qed.

Lemma throws_bind_r {A B : Type} (m : M A) (k : A -> M B) (a : A)
    (e : Exn) (d1 d2 : list Event) :
  yields self m a d1 -> throws self (k a) e d2 ->
  throws self (bind m k) e (d1 ++ d2).
Proof.
  intros H1 H2 w Hu. destruct (H1 w Hu) as [E1 U1].
  unfold bind. now rewrite E1, (H2 _ U1), advance_app.
Qed.

Lemma yields_emit (ev : Event) :
  is_live ev = false -> yields self (emit ev) tt [ev].
Proof.
  intros Hev w Hu. unfold emit, advance.
  destruct ev; try discriminate; simpl; (split; [reflexivity | exact Hu]).
Qed.

Lemma yields_static (text : string) :
  yields self (static_output (impl self) text) tt [EvStatic text].
Proof. now apply yields_emit. Qed.

Lemma yields_render (c : Construct) :
  as_sql self = true -> yields self (_exec (impl self) c) tt [EvRender c].
Proof.
  intros Hs. unfold _exec. destruct Hself as [-> _]. rewrite Hs.
  now apply yields_emit.
Qed.

Lemma yields_exec (c : Construct) :
  c <> CreateTable -> c <> DropTable ->
  yields self (_exec (impl self) c) tt [stmt_event self c].
Proof.
  intros Hc Hd. unfold stmt_event.
  destruct (as_sql self) eqn:Hs; [now apply yields_render|].
  intros w [Hu | [[conn Hconn] Ht]]; [congruence|].
  unfold _exec. destruct Hself as [-> ->]. rewrite Hs, Hconn.
  unfold bind, conn_execute.
  destruct (store_execute_ok c (store w) Ht Hc) as [r ->].
  split; [reflexivity|]. right. split; [now exists conn|].
  simpl. now apply store_after_has_table.
Qed.

Lemma yields_update (old new : PyRev) :
  yields self (_update_current_rev self old new) tt
         (write_delta self old new).
Proof.
  unfold _update_current_rev, write_delta, write_statement.
  apply (yields_bind _ _ tt tt [EvWrite old new]);
    [now apply yields_emit|].
  destruct (py_eqb old new); [apply yields_ret|].
  destruct (is_None new); [now apply yields_exec|].
  destruct (is_None old); now apply yields_exec.
Qed.

Lemma yields_actions (acts : list Action) :
  raises acts = None ->
  yields self (run_actions self acts) tt (body_delta self acts).
Proof.
  induction acts as [|[sql|msg] acts IH]; simpl; intros Hr.
  - apply yields_ret.
  - apply (yields_bind _ _ tt tt [stmt_event self (TextClause sql)]);
      [now apply yields_exec | now apply IH].
  - discriminate.
Qed.

Lemma throws_actions (acts : list Action) (msg : string) :
  raises acts = Some msg ->
  throws self (run_actions self acts) (MigrationError msg)
         (body_delta self acts).
Proof.
  induction acts as [|[sql|msg'] acts IH]; simpl; intros Hr.
  - discriminate.
  - apply (throws_bind_r _ _ tt _ [stmt_event self (TextClause sql)]);
      [now apply yields_exec | now apply IH].
  - injection Hr as ->. intros w Hu. now rewrite advance_nil.
Qed.

End Effects.

(** ** The loop of [run_migrations] *)

Section Loop.

Variable self : Context.
Hypothesis Hself : consistent self.
Variable kw : Kw.

Lemma yields_eq {A : Type} (m : M A) (a : A) (d d' : list Event) :
  yields self m a d -> d = d' -> yields self m a d'.
Proof. now intros H <-. Qed.

Lemma throws_eq {A : Type} (m : M A) (e : Exn) (d d' : list Event) :
  throws self m e d -> d = d' -> throws self m e d'.
Proof. now intros H <-. Qed.

Lemma yields_when (b : bool) (m : M unit) (d : list Event) :
  (b = true -> yields self m tt d) ->
  yields self (if b then m else ret tt) tt (if b then d else []).
Proof. destruct b; intros H; [now apply H | apply yields_ret]. Qed.

Lemma yields_create :
  as_sql self = true ->
  yields self (version_create self false) tt [EvRender CreateTable].
Proof.
  intros Hs. unfold version_create, bind_execute. rewrite Hs.
  eapply yields_eq.
  - eapply yields_bind; [|apply yields_ret].
    eapply yields_bind; [now apply yields_render | apply yields_ret].
  - reflexivity.
Qed.

Lemma yields_drop :
  as_sql self = true ->
  yields self (version_drop self) tt [EvRender DropTable].
Proof.
  intros Hs. unfold version_drop, bind_execute. rewrite Hs.
  eapply yields_eq.
  - eapply yields_bind; [|apply yields_ret].
    eapply yields_bind; [now apply yields_render | apply yields_ret].
  - reflexivity.
Qed.

(** The part of an iteration before the migration is called. *)
Lemma yields_loop_rest (r0 : RevisionId) (v : PyRev) (step : Step) :
  succeeds kw step ->
  yields self (loop_body self kw (PyRevision r0, v) step)
         (PyRevision r0, PyRevision (rev_of step))
         (step_delta self kw step).
Proof.
  destruct step as [[change prev] rev]. unfold succeeds. simpl. intros Hok.
  eapply yields_eq.
  - eapply yields_bind; [apply yields_ret|].
    eapply yields_bind;
      [apply yields_when; intros _; now apply yields_static|].
    eapply yields_bind; [now apply yields_actions|].
    eapply yields_bind;
      [apply yields_when; intros _; now apply yields_update|].
    apply yields_ret.
  - unfold step_delta, block, header_delta, prev_rev_of, rev_of. simpl.
    destruct (transactional_ddl (impl self)); simpl;
      now rewrite ?app_nil_r, ?app_assoc.
Qed.

Lemma yields_loop_first (v : PyRev) (step : Step) :
  succeeds kw step ->
  yields self (loop_body self kw (PyFalse, v) step)
         (PyRevision (prev_rev_of step), PyRevision (rev_of step))
         (create_delta self [step] ++ step_delta self kw step).
Proof.
  destruct step as [[change prev] rev]. unfold succeeds. simpl. intros Hok.
  eapply yields_eq.
  - eapply yields_bind.
    { eapply yields_bind; [|apply yields_ret].
      apply yields_when. intros Hb. apply andb_prop in Hb as [Hs _].
      now apply yields_create. }
    eapply yields_bind;
      [apply yields_when; intros _; now apply yields_static|].
    eapply yields_bind; [now apply yields_actions|].
    eapply yields_bind;
      [apply yields_when; intros _; now apply yields_update|].
    apply yields_ret.
  - unfold step_delta, block, header_delta, prev_rev_of, rev_of. simpl.
    destruct (transactional_ddl (impl self)); simpl;
      now rewrite ?app_nil_r, ?app_assoc.
Qed.

Lemma throws_loop_rest (r0 : RevisionId) (v : PyRev) (step : Step)
    (msg : string) :
  raises (body (fst (fst step)) kw) = Some msg ->
  throws self (loop_body self kw (PyRevision r0, v) step)
         (MigrationError msg) (block self kw step).
Proof.
  destruct step as [[change prev] rev]. simpl. intros Hr.
  eapply throws_eq.
  - eapply throws_bind_r; [apply yields_ret|].
    eapply throws_bind_r;
      [apply yields_when; intros _; now apply yields_static|].
    apply throws_bind_l. now apply throws_actions.
  - reflexivity.
Qed.

Lemma throws_loop_first (v : PyRev) (step : Step) (msg : string) :
  raises (body (fst (fst step)) kw) = Some msg ->
  throws self (loop_body self kw (PyFalse, v) step)
         (MigrationError msg)
         (create_delta self [step] ++ block self kw step).
Proof.
  destruct step as [[change prev] rev]. simpl. intros Hr.
  eapply throws_eq.
  - eapply throws_bind_r.
    { eapply yields_bind; [|apply yields_ret].
      apply yields_when. intros Hb. apply andb_prop in Hb as [Hs _].
      now apply yields_create. }
    eapply throws_bind_r;
      [apply yields_when; intros _; now apply yields_static|].
    apply throws_bind_l. now apply throws_actions.
  - unfold prev_rev_of. simpl. now rewrite ?app_nil_r.
Qed.

Lemma yields_for_each_rest (steps : list Step) (r0 v : RevisionId) :
  Forall (succeeds kw) steps ->
  yields self (for_each self kw (PyRevision r0, PyRevision v) steps)
         (PyRevision r0, PyRevision (final_rev v steps))
         (flat_map (step_delta self kw) steps).
Proof.
  revert v. induction steps as [|step steps IH]; intros v Hall.
  - apply yields_ret.
  - inversion Hall as [|? ? Hstep Hrest]; subst.
    rewrite final_rev_cons.
    change (flat_map (step_delta self kw) (step :: steps))
      with (step_delta self kw step ++ flat_map (step_delta self kw) steps).
    simpl for_each. eapply yields_bind.
    + now apply yields_loop_rest.
    + now apply IH.
Qed.

Lemma yields_for_each (first : Step) (rest : list Step) :
  Forall (succeeds kw) (first :: rest) ->
  yields self (for_each self kw (PyFalse, PyFalse) (first :: rest))
         (PyRevision (prev_rev_of first),
          PyRevision (final_rev (rev_of first) rest))
         (create_delta self (first :: rest)
          ++ flat_map (step_delta self kw) (first :: rest)).
Proof.
  intros Hall. inversion Hall as [|? ? Hstep Hrest]; subst.
  change (flat_map (step_delta self kw) (first :: rest))
    with (step_delta self kw first ++ flat_map (step_delta self kw) rest).
  rewrite app_assoc. simpl for_each. eapply yields_bind.
  - now apply yields_loop_first.
  - now apply yields_for_each_rest.
Qed.

Lemma throws_for_each_rest (pre post : list Step) (step : Step)
    (msg : string) (r0 v : RevisionId) :
  Forall (succeeds kw) pre ->
  raises (body (fst (fst step)) kw) = Some msg ->
  throws self
         (for_each self kw (PyRevision r0, PyRevision v)
                   (pre ++ step :: post))
         (MigrationError msg)
         (flat_map (step_delta self kw) pre ++ block self kw step).
Proof.
  intros Hall Hr. revert v.
  induction pre as [|p pre IH]; intros v.
  - simpl. apply throws_bind_l. now apply throws_loop_rest.
  - inversion Hall as [|? ? Hp Hpre]; subst.
    change (flat_map (step_delta self kw) (p :: pre))
      with (step_delta self kw p ++ flat_map (step_delta self kw) pre).
    rewrite <- app_assoc. simpl. eapply throws_bind_r.
    + now apply yields_loop_rest.
    + now apply IH.
Qed.

Lemma throws_for_each (pre post : list Step) (step : Step) (msg : string) :
  Forall (succeeds kw) pre ->
  raises (body (fst (fst step)) kw) = Some msg ->
  throws self
         (for_each self kw (PyFalse, PyFalse) (pre ++ step :: post))
         (MigrationError msg)
         (create_delta self (pre ++ step :: post)
          ++ flat_map (step_delta self kw) pre ++ block self kw step).
Proof.
  intros Hall Hr. destruct pre as [|p pre].
  - simpl app. simpl flat_map. simpl for_each.
    apply throws_bind_l. now apply throws_loop_first.
  - inversion Hall as [|? ? Hp Hpre]; subst.
    change (flat_map (step_delta self kw) (p :: pre))
      with (step_delta self kw p ++ flat_map (step_delta self kw) pre).
    change (create_delta self ((p :: pre) ++ step :: post))
      with (create_delta self [p]).
    rewrite <- app_assoc, (app_assoc (create_delta self [p])).
    simpl. eapply throws_bind_r.
    + now apply yields_loop_first.
    + now apply throws_for_each_rest.
Qed.

End Loop.

(** ** The whole run *)

Section Run.

Variable self : Context.
Hypothesis Hself : consistent self.
Variable kw : Kw.

Lemma marker_run (text : string) (w : World) :
  (when as_sql self && transactional_ddl (impl self)
   then static_output (impl self) text) w
  = Done tt (advance (marker self text) w).
Proof.
  unfold marker.
  destruct (as_sql self && transactional_ddl (impl self));
    [reflexivity | now rewrite advance_nil].
Qed.

Lemma marker_store (text : string) (w : World) :
  store (advance (marker self text) w) = store w.
Proof.
  unfold marker.
  now destruct (as_sql self && transactional_ddl (impl self)).
Qed.

Lemma yields_marker (text : string) :
  yields self
         (when as_sql self && transactional_ddl (impl self)
          then static_output (impl self) text)
         tt (marker self text).
Proof. apply yields_when. intros _. now apply yields_static. Qed.

Lemma read_run (w : World) :
  startable self ->
  _current_rev self w = Done (anchor self w) (advance (read_delta self w) w)
  /\ usable self (advance (read_delta self w) w).
Proof.
  intros Hst. unfold _current_rev, anchor, read_delta.
  destruct (as_sql self) eqn:Hs.
  - rewrite advance_nil. split; [reflexivity | now left].
  - destruct Hst as [Hst | [[conn Hconn] Htr]]; [congruence|].
    rewrite Htr. unfold bind, version_create, bind_execute.
    rewrite Hs, Hconn.
    destruct w as [[[rows|] sql] evs]; simpl.
    + split; [reflexivity|]. right. split; [now exists conn | reflexivity].
    + rewrite <- app_assoc.
      split; [reflexivity|]. right. split; [now exists conn | reflexivity].
Qed.

(** What follows the loop, once it has run over at least one step. *)
Lemma yields_closing (first : Step) (rest : list Step) :
  yields self
    ((when negb (is_False (PyRevision (final_rev (rev_of first) rest))) then
        (when transactional_ddl (impl self)
         then _update_current_rev self (PyRevision (prev_rev_of first))
                (PyRevision (final_rev (rev_of first) rest))) ;;
        (when as_sql self
              && negb (py_truthy (PyRevision (final_rev (rev_of first) rest)))
         then version_drop self)) ;;
     (when as_sql self && transactional_ddl (impl self)
      then static_output (impl self) "COMMIT;"))
    tt
    (closing_delta self (first :: rest) ++ marker self "COMMIT;").
Proof.
  eapply yields_bind; [|apply yields_marker].
  simpl negb. cbv iota. unfold closing_delta.
  eapply yields_eq.
  - eapply yields_bind.
    + apply yields_when. intros _. now apply yields_update.
    + apply yields_when. intros Hb. apply andb_prop in Hb as [Hs _].
      now apply yields_drop.
  - reflexivity.
Qed.

(** The run from the loop on, in a usable world, when every step
    succeeds. *)
Lemma yields_from_loop (steps : list Step) :
  Forall (succeeds kw) steps ->
  yields self
    (vars <- for_each self kw (PyFalse, PyFalse) steps ;;
     let '(current_rev, rev) := vars in
     (when negb (is_False rev) then
        (when transactional_ddl (impl self)
         then _update_current_rev self current_rev rev) ;;
        (when as_sql self && negb (py_truthy rev) then version_drop self)) ;;
     (when as_sql self && transactional_ddl (impl self)
      then static_output (impl self) "COMMIT;"))
    tt
    (create_delta self steps ++ flat_map (step_delta self kw) steps
     ++ closing_delta self steps ++ marker self "COMMIT;").
Proof.
  intros Hall. destruct steps as [|first rest].
  - simpl. eapply yields_eq.
    + eapply yields_bind; [apply yields_ret|]. cbn [negb is_False].
      eapply yields_bind; [apply yields_ret | apply yields_marker].
    + reflexivity.
  - rewrite app_assoc. eapply yields_bind.
    + now apply yields_for_each.
    + apply yields_closing.
Qed.

Lemma throws_from_loop (pre post : list Step) (step : Step)
    (msg : string) :
  Forall (succeeds kw) pre ->
  raises (body (fst (fst step)) kw) = Some msg ->
  throws self
    (vars <- for_each self kw (PyFalse, PyFalse) (pre ++ step :: post) ;;
     let '(current_rev, rev) := vars in
     (when negb (is_False rev) then
        (when transactional_ddl (impl self)
         then _update_current_rev self current_rev rev) ;;
        (when as_sql self && negb (py_truthy rev) then version_drop self)) ;;
     (when as_sql self && transactional_ddl (impl self)
      then static_output (impl self) "COMMIT;"))
    (MigrationError msg)
    (create_delta self (pre ++ step :: post)
     ++ flat_map (step_delta self kw) pre ++ block self kw step).
Proof.
  intros Hall Hr. apply throws_bind_l. now apply throws_for_each.
Qed.

Lemma run_unfold (w : World) :
  startable self ->
  run_migrations self kw w =
  (vars <- for_each self kw (PyFalse, PyFalse)
                    (_migrations_fn self (anchor self w)) ;;
   let '(current_rev, rev) := vars in
   (when negb (is_False rev) then
      (when transactional_ddl (impl self)
       then _update_current_rev self current_rev rev) ;;
      (when as_sql self && negb (py_truthy rev) then version_drop self)) ;;
   (when as_sql self && transactional_ddl (impl self)
    then static_output (impl self) "COMMIT;"))
    (advance (marker self "BEGIN;" ++ read_delta self w) w)
  /\ usable self (advance (marker self "BEGIN;" ++ read_delta self w) w).
Proof.
  intros Hst. unfold run_migrations.
  unfold bind at 1. rewrite marker_run.
  unfold bind at 1.
  destruct (read_run (advance (marker self "BEGIN;") w) Hst) as [E U].
  rewrite E. rewrite advance_app.
  assert (Ha : anchor self (advance (marker self "BEGIN;") w)
               = anchor self w)
    by (unfold anchor; now rewrite marker_store).
  assert (Hr : read_delta self (advance (marker self "BEGIN;") w)
               = read_delta self w)
    by (unfold read_delta; now rewrite marker_store).
  rewrite Ha, Hr in *. now split.
Qed.

(** A run in which every step succeeds completes, with the log
    [run_delta]. *)
Lemma run_ok (w : World) :
  startable self ->
  Forall (succeeds kw) (_migrations_fn self (anchor self w)) ->
  run_migrations self kw w =
  Done tt (advance (run_delta self kw w (_migrations_fn self (anchor self w)))
                   w).
Proof.
  intros Hst Hall. destruct (run_unfold w Hst) as [-> U].
  destruct (yields_from_loop _ Hall _ U) as [-> _].
  unfold run_delta. now rewrite <- !advance_app, <- !app_assoc.
Qed.

(** A run whose step [step] raises, after the steps [pre] succeeded,
    raises the same exception. *)
Lemma run_fail (w : World) (pre post : list Step) (step : Step)
    (msg : string) :
  startable self ->
  _migrations_fn self (anchor self w) = pre ++ step :: post ->
  Forall (succeeds kw) pre ->
  raises (body (fst (fst step)) kw) = Some msg ->
  run_migrations self kw w =
  Raised (MigrationError msg)
    (advance (marker self "BEGIN;" ++ read_delta self w
              ++ create_delta self (pre ++ step :: post)
              ++ flat_map (step_delta self kw) pre ++ block self kw step)
             w).
Proof.
  intros Hst Hfn Hall Hr. destruct (run_unfold w Hst) as [-> U].
  rewrite Hfn.
  rewrite (throws_from_loop pre post step msg Hall Hr _ U).
  now rewrite <- !advance_app, <- !app_assoc.
Qed.

End Run.

(** ** Scripts of statements and the pointer *)

Lemma constructs_app (d1 d2 : list Event) :
  constructs (d1 ++ d2) = constructs d1 ++ constructs d2.
Proof.
  induction d1 as [|ev d1 IH]; [reflexivity|].
  destruct ev; simpl; now rewrite IH.
Qed.

Lemma run_script_app (c1 c2 : list Construct) (s : Store) :
  run_script (c1 ++ c2) s =
  match run_script c1 s with
  | inr s' => run_script c2 s'
  | inl e => inl e
  end.
Proof.
  revert s. induction c1 as [|c c1 IH]; intros s; [reflexivity|].
  simpl. destruct (store_execute c s) as [e|[r s']]; [reflexivity | apply IH].
Qed.

Lemma run_script_replay (delta : list Event) (s s' : Store) :
  rendered delta = [] ->
  run_script (constructs delta) s = inr s' -> replay delta s = s'.
Proof.
  revert s. induction delta as [|ev delta IH]; intros s Hr H.
  - simpl in *. congruence.
  - destruct ev; simpl in *; try discriminate; try now apply IH.
    unfold store_after.
    destruct (store_execute c s) as [e|[r s1]]; [discriminate|].
    now apply IH.
Qed.

Lemma run_script_text (l : list string) (s : Store) :
  run_script (map TextClause l) s =
  inr (mkStore (version_rows s) (applied_sql s ++ l)).
Proof.
  revert s. induction l as [|sql l IH]; intros s; simpl.
  - rewrite app_nil_r. now destruct s.
  - destruct (version_rows s) eqn:E; rewrite IH; simpl;
      now rewrite <- app_assoc.
Qed.

Lemma points_to_write (s : Store) (old new : RevisionId) :
  points_to s old ->
  exists s',
    run_script (write_statement (PyRevision old) (PyRevision new)) s = inr s'
    /\ points_to s' new /\ applied_sql s' = applied_sql s.
Proof.
  intros [Ht Hp]. unfold write_statement.
  destruct (py_eqb (PyRevision old) (PyRevision new)) eqn:E.
  - apply py_eqb_eq in E. injection E as <-. exists s. now repeat split.
  - apply py_eqb_neq in E.
    destruct s as [[rows|] sql]; [|discriminate].
    unfold pointer in Hp. simpl in Hp.
    destruct new as [n|]; cbn [is_None].
    + destruct old as [o|]; cbn [is_None run_script store_execute version_rows].
      * destruct rows as [|r rows]; [discriminate|].
        eexists. split; [reflexivity|].
        rewrite literal_value_quoted. now repeat split.
      * destruct rows as [|r rows]; [|discriminate].
        eexists. split; [reflexivity|].
        rewrite literal_value_quoted. now repeat split.
    + eexists. split; [reflexivity|]. now repeat split.
Qed.

Lemma single_row_write (s : Store) (old new : RevisionId) :
  single_row s old ->
  exists s',
    run_script (write_statement (PyRevision old) (PyRevision new)) s = inr s'
    /\ single_row s' new /\ applied_sql s' = applied_sql s.
Proof.
  unfold single_row. intros Hs. unfold write_statement.
  destruct (py_eqb (PyRevision old) (PyRevision new)) eqn:E.
  - apply py_eqb_eq in E. injection E as <-. exists s. now repeat split.
  - apply py_eqb_neq in E.
    destruct s as [rows sql]. simpl in Hs. subst rows.
    destruct new as [n|]; cbn [is_None].
    + destruct old as [o|]; cbn [is_None run_script store_execute version_rows];
        (eexists; split; [reflexivity|]);
        rewrite literal_value_quoted; now repeat split.
    + destruct old as [o|]; [|congruence].
      eexists. split; [reflexivity|]. now repeat split.
Qed.

Section Chain.

(** A property of the store that depends on the rows of the version
    table only and follows the pointer writes. *)
Variable Inv : Store -> RevisionId -> Prop.
Hypothesis Inv_rows : forall s s' r,
  version_rows s' = version_rows s -> Inv s r -> Inv s' r.
Hypothesis Inv_write : forall s old new,
  Inv s old ->
  exists s',
    run_script (write_statement (PyRevision old) (PyRevision new)) s
    = inr s'
    /\ Inv s' new /\ applied_sql s' = applied_sql s.

Variable kw : Kw.

Lemma chain_step (s : Store) (step : Step) :
  Inv s (prev_rev_of step) ->
  exists s',
    run_script (step_script kw false step) s = inr s'
    /\ Inv s' (rev_of step).
Proof.
  intros HI. unfold step_script.
  rewrite run_script_app, run_script_text.
  apply (Inv_rows s (mkStore (version_rows s)
           (applied_sql s ++ sqls (body (fst (fst step)) kw)))) in HI;
    [|reflexivity].
  destruct (Inv_write _ _ (rev_of step) HI) as (s' & E & HI' & _).
  now exists s'.
Qed.

Lemma chain_steps (steps : list Step) (start : RevisionId) (s : Store) :
  chained start steps -> Inv s start ->
  exists s',
    run_script (flat_map (step_script kw false) steps) s = inr s'
    /\ Inv s' (final_rev start steps).
Proof.
  revert start s. induction steps as [|step steps IH]; intros start s Hc HI.
  - now exists s.
  - destruct Hc as [Hp Hc]. rewrite <- Hp in HI.
    destruct (chain_step s step HI) as (s1 & E1 & HI1).
    destruct (IH _ s1 Hc HI1) as (s2 & E2 & HI2).
    exists s2. rewrite final_rev_cons. split; [|exact HI2].
    change (flat_map (step_script kw false) (step :: steps))
      with (step_script kw false step
            ++ flat_map (step_script kw false) steps).
    now rewrite run_script_app, E1.
Qed.

Lemma batch_steps (steps : list Step) (r : RevisionId) (s : Store) :
  Inv s r ->
  exists s',
    run_script (flat_map (step_script kw true) steps) s = inr s'
    /\ Inv s' r.
Proof.
  revert s. induction steps as [|step steps IH]; intros s HI.
  - now exists s.
  - change (flat_map (step_script kw true) (step :: steps))
      with (step_script kw true step
            ++ flat_map (step_script kw true) steps).
    rewrite run_script_app. unfold step_script at 1.
    rewrite app_nil_r, run_script_text.
    apply IH. eapply Inv_rows; [|exact HI]. reflexivity.
Qed.

End Chain.

(** ** What the pieces of a run's log contain *)

Section Pieces.

Variable self : Context.
Variable kw : Kw.

Lemma rendered_app (d1 d2 : list Event) :
  rendered (d1 ++ d2) = rendered d1 ++ rendered d2.
Proof.
  induction d1 as [|ev d1 IH]; [reflexivity|].
  destruct ev; simpl; now rewrite IH.
Qed.

Lemma constructs_stmt_events (cs : list Construct) :
  constructs (map (stmt_event self) cs) = cs.
Proof.
  unfold stmt_event. induction cs as [|c cs IH]; [reflexivity|].
  simpl. destruct (as_sql self); simpl; now rewrite IH.
Qed.

Lemma rendered_stmt_events (cs : list Construct) :
  as_sql self = false -> rendered (map (stmt_event self) cs) = [].
Proof.
  unfold stmt_event. intros ->. induction cs as [|c cs IH]; auto.
Qed.

Lemma constructs_write_delta (old new : PyRev) :
  constructs (write_delta self old new) = write_statement old new.
Proof. unfold write_delta. simpl. apply constructs_stmt_events. Qed.

Lemma constructs_body_delta (acts : list Action) :
  constructs (body_delta self acts) = map TextClause (sqls acts).
Proof.
  unfold body_delta. rewrite <- (constructs_stmt_events (map _ (sqls acts))).
  now rewrite map_map.
Qed.

Lemma constructs_block (step : Step) :
  constructs (block self kw step)
  = map TextClause (sqls (body (fst (fst step)) kw)).
Proof.
  unfold block, header_delta. rewrite constructs_app, constructs_body_delta.
  now destruct (as_sql self).
Qed.

Lemma constructs_step_delta (step : Step) :
  constructs (step_delta self kw step)
  = step_script kw (transactional_ddl (impl self)) step.
Proof.
  unfold step_delta, step_script.
  rewrite constructs_app, constructs_block.
  destruct (transactional_ddl (impl self)); [reflexivity|].
  now rewrite constructs_write_delta.
Qed.

Lemma constructs_steps (steps : list Step) :
  constructs (flat_map (step_delta self kw) steps)
  = flat_map (step_script kw (transactional_ddl (impl self))) steps.
Proof.
  induction steps as [|step steps IH]; [reflexivity|].
  simpl. now rewrite constructs_app, constructs_step_delta, IH.
Qed.

Lemma rendered_block (step : Step) :
  as_sql self = false -> rendered (block self kw step) = [].
Proof.
  intros Hs. unfold block, header_delta, body_delta. rewrite Hs. simpl.
  rewrite <- map_map. now apply rendered_stmt_events.
Qed.

Lemma rendered_write_delta (old new : PyRev) :
  as_sql self = false -> rendered (write_delta self old new) = [].
Proof. intros Hs. unfold write_delta. simpl. now apply rendered_stmt_events. Qed.

Lemma rendered_steps (steps : list Step) :
  as_sql self = false ->
  rendered (flat_map (step_delta self kw) steps) = [].
Proof.
  intros Hs. induction steps as [|step steps IH]; [reflexivity|].
  simpl. unfold step_delta at 1.
  rewrite !rendered_app, IH, rendered_block by exact Hs.
  destruct (transactional_ddl (impl self)); [reflexivity|].
  now rewrite rendered_write_delta.
Qed.

(** The pointer writes of each piece. *)

Lemma writes_stmt_events (cs : list Construct) :
  forallb pointer_statement cs = true ->
  List.filter is_pointer_write (map (stmt_event self) cs)
  = map (stmt_event self) cs.
Proof.
  unfold stmt_event. induction cs as [|c cs IH]; [reflexivity|].
  simpl. intros H. apply andb_prop in H as [Hc Hcs].
  destruct (as_sql self); simpl; rewrite Hc, IH; auto.
Qed.

Lemma writes_write_delta (old new : PyRev) :
  List.filter is_pointer_write (write_delta self old new)
  = write_delta self old new.
Proof.
  unfold write_delta. simpl. f_equal. apply writes_stmt_events.
  unfold write_statement.
  destruct (py_eqb old new), (is_None new), (is_None old); reflexivity.
Qed.

Lemma writes_block (step : Step) :
  List.filter is_pointer_write (block self kw step) = [].
Proof.
  unfold block, header_delta, body_delta, stmt_event.
  rewrite List.filter_app.
  replace (List.filter is_pointer_write
             (map (fun sql => if as_sql self then EvRender (TextClause sql)
                              else EvLive (TextClause sql))
                  (sqls (body (fst (fst step)) kw)))) with (@nil Event).
  - now destruct (as_sql self).
  - induction (sqls (body (fst (fst step)) kw)) as [|sql l IH];
      [reflexivity|].
    simpl. now destruct (as_sql self).
Qed.

Lemma writes_steps (steps : list Step) :
  List.filter is_pointer_write (flat_map (step_delta self kw) steps)
  = if transactional_ddl (impl self) then []
    else flat_map (fun step => write_delta self (PyRevision (prev_rev_of step))
                                 (PyRevision (rev_of step))) steps.
Proof.
  induction steps as [|step steps IH].
  - now destruct (transactional_ddl (impl self)).
  - simpl. unfold step_delta at 1.
    rewrite !List.filter_app, IH, writes_block.
    destruct (transactional_ddl (impl self)); [reflexivity|].
    now rewrite writes_write_delta.
Qed.

Lemma writes_marker (text : string) :
  List.filter is_pointer_write (marker self text) = [].
Proof.
  unfold marker.
  now destruct (as_sql self && transactional_ddl (impl self)).
Qed.

Lemma writes_read (w : World) :
  List.filter is_pointer_write (read_delta self w) = [].
Proof.
  unfold read_delta. now destruct (as_sql self), (has_table (store w)).
Qed.

Lemma writes_create (steps : list Step) :
  List.filter is_pointer_write (create_delta self steps) = [].
Proof.
  destruct steps as [|step steps]; [reflexivity|]. simpl.
  now destruct (as_sql self && negb (truthy (prev_rev_of step))).
Qed.

End Pieces.

(** ** The pointer write *)

Lemma Context_init_consistent (d : Dialect) (sc : option ScriptDirectory)
    (conn : option Connection) (fn : Sequencer) (mode : bool)
    (ob : option Buffer) (tddl : option bool) (start : RevisionId) :
  consistent (Context_init d sc conn fn mode ob tddl start).
Proof. split; reflexivity. Qed.

(** The effect of [impl._exec] does not depend on the log so far. *)
Lemma exec_shape (i : DefaultImpl) (c : Construct) (s : Store) :
  exists (s' : Store) (tail : list Event) (res : option Exn),
    forall evs,
      _exec i c (mkWorld s evs) =
      match res with
      | None => Done tt (mkWorld s' (evs ++ tail))
      | Some e => Raised e (mkWorld s' (evs ++ tail))
      end.
Proof.
  unfold _exec. destruct (impl_as_sql i).
  - exists s, [EvRender c], None. reflexivity.
  - unfold bind, conn_execute. destruct (impl_connection i).
    + simpl. destruct (store_execute c s) as [e|[r s']].
      * exists s, [EvLive c], (Some e). reflexivity.
      * exists s', [EvLive c], None. reflexivity.
    + exists s, [], (Some UnboundExecutionError). intros evs.
      unfold raise. now rewrite app_nil_r.
Qed.

(** C3 -- The pointer write [_update_current_rev old new], in a world where
    statements can run (rendering, or a live connection with the version
    table in place): it does nothing when [old == new]; otherwise it issues
    the delete when [new] is [None], the insert of [new] when [old] is
    [None], and the update to [new] in the remaining cases.  On a live
    connection the delete leaves no row, the insert adds the row [new], and
    the update rewrites the rows in place; in rendering mode the statement
    goes to the output and the store is left alone. *)
Theorem update_current_rev_cases
    (d : Dialect) (sc : option ScriptDirectory) (conn : option Connection)
    (fn : Sequencer) (mode : bool) (ob : option Buffer) (tddl : option bool)
    (start : RevisionId) (old new : RevisionId) (w : World) :
  let self := Context_init d sc conn fn mode ob tddl start in
  usable self w ->
  exists w',
    _update_current_rev self (PyRevision old) (PyRevision new) w = Done tt w'
    /\ (old = new ->
        store w' = store w /\ constructs (events w') = constructs (events w))
    /\ (old <> new -> new = None ->
        constructs (events w') = constructs (events w) ++ [VersionDelete]
        /\ (mode = false -> version_rows (store w') = Some []))
    /\ (forall n, new = Some n -> old = None ->
        constructs (events w')
        = constructs (events w) ++ [VersionInsert ("'" ++ n ++ "'")]
        /\ (mode = false -> forall rows,
              version_rows (store w) = Some rows ->
              version_rows (store w') = Some (rows ++ [n])))
    /\ (forall o n, old = Some o -> new = Some n -> o <> n ->
        constructs (events w')
        = constructs (events w) ++ [VersionUpdate ("'" ++ n ++ "'")]
        /\ (mode = false -> forall rows,
              version_rows (store w) = Some rows ->
              version_rows (store w') = Some (map (fun _ => n) rows)))
    /\ (mode = true ->
        store w' = store w
        /\ rendered (events w')
           = rendered (events w)
             ++ write_statement (PyRevision old) (PyRevision new)).
Proof.
  intros self Hu.
  pose proof (Context_init_consistent d sc conn fn mode ob tddl start) as Hc.
  destruct (yields_update self Hc (PyRevision old) (PyRevision new) w Hu)
    as [E _].
  exists (advance (write_delta self (PyRevision old) (PyRevision new)) w).
  split; [exact E|]. clear E.
  unfold advance, write_delta, write_statement. cbn [events store].
  rewrite constructs_app. cbn [constructs].
  rewrite constructs_stmt_events.
  assert (Hlive : forall c, mode = false -> stmt_event self c = EvLive c)
    by (intros c ->; reflexivity).
  repeat split.
  - subst new.
    replace (py_eqb (PyRevision old) (PyRevision old)) with true
      by (symmetry; now apply py_eqb_eq).
    reflexivity.
  - subst new.
    replace (py_eqb (PyRevision old) (PyRevision old)) with true
      by (symmetry; now apply py_eqb_eq).
    now rewrite app_nil_r.
  - subst new. destruct old as [o|]; [reflexivity | congruence].
  - intros Hm. subst new. destruct old as [o|]; [|congruence].
    cbn [py_eqb is_None map replay]. rewrite (Hlive _ Hm).
    destruct Hu as [Hu | [_ Ht]]; [subst mode; discriminate|].
    unfold has_table in Ht. unfold store_after, store_execute.
    destruct (version_rows (store w)); [reflexivity | discriminate].
  - subst. reflexivity.
  - intros Hm rows Hrows. subst old new.
    cbn [py_eqb is_None map replay]. rewrite (Hlive _ Hm).
    unfold store_after, store_execute. rewrite Hrows.
    cbn [version_rows]. now rewrite literal_value_quoted.
  - subst old new. cbn [py_eqb is_None].
    replace (String.eqb o n) with false
      by (symmetry; now apply String.eqb_neq).
    reflexivity.
  - intros Hm rows Hrows. subst old new. cbn [py_eqb is_None].
    replace (String.eqb o n) with false
      by (symmetry; now apply String.eqb_neq).
    cbn [map replay]. rewrite (Hlive _ Hm).
    unfold store_after, store_execute. rewrite Hrows.
    cbn [version_rows]. now rewrite literal_value_quoted.
  - subst mode. apply replay_not_live.
    destruct (py_eqb (PyRevision old) (PyRevision new)); [reflexivity|].
    destruct (is_None (PyRevision new)); [reflexivity|].
    now destruct (is_None (PyRevision old)).
  - subst mode. rewrite rendered_app. f_equal. cbn [rendered].
    destruct (py_eqb (PyRevision old) (PyRevision new)); [reflexivity|].
    destruct (is_None (PyRevision new)); [reflexivity|].
    now destruct (is_None (PyRevision old)).
Qed.

Lemma update_current_rev_witness :
  exists w',
    _update_current_rev
      (Context_init (mkDialect "sqlite" false) None
                    (Some (mkConnection (mkDialect "sqlite" false)))
                    (fun _ => []) false None None None)
      (PyRevision (Some "a1")) (PyRevision (Some "b2"))
      (mkWorld (mkStore (Some ["a1"]) []) [])
    = Done tt w'
    /\ version_rows (store w') = Some ["b2"].
Proof.
  destruct (update_current_rev_cases
              (mkDialect "sqlite" false) None
              (Some (mkConnection (mkDialect "sqlite" false)))
              (fun _ => []) false None None None
              (Some "a1") (Some "b2")
              (mkWorld (mkStore (Some ["a1"]) []) []))
    as (w' & E & _ & _ & _ & Hupd & _).
  - right. split; [eexists; reflexivity | reflexivity].
  - exists w'. split; [exact E|].
    destruct (Hupd "a1" "b2" eq_refl eq_refl) as [_ Hrows];
      [discriminate|].
    exact (Hrows eq_refl ["a1"] eq_refl).
Defined.

(** C10 -- When [old] and [new] are strings and differ, the pointer write
    is an update decided by [new] alone: from the same world, the writes
    [(old1, new)] and [(old2, new)] issue the same statements, leave the
    same store and end the same way (the stored value is never compared
    with [old]); where statements can run, that statement is the update to
    [new]. *)
Theorem update_ignores_old
    (d : Dialect) (sc : option ScriptDirectory) (conn : option Connection)
    (fn : Sequencer) (mode : bool) (ob : option Buffer) (tddl : option bool)
    (start : RevisionId) (old1 old2 new : string) (w : World) :
  let self := Context_init d sc conn fn mode ob tddl start in
  let o1 := _update_current_rev self (PyRevision (Some old1))
                                (PyRevision (Some new)) w in
  let o2 := _update_current_rev self (PyRevision (Some old2))
                                (PyRevision (Some new)) w in
  old1 <> new -> old2 <> new ->
  store (world_of o1) = store (world_of o2)
  /\ completed o1 = completed o2
  /\ (exists tail,
        events (world_of o1)
        = events w ++ EvWrite (PyRevision (Some old1)) (PyRevision (Some new))
                      :: tail
        /\ events (world_of o2)
           = events w ++ EvWrite (PyRevision (Some old2))
                                 (PyRevision (Some new)) :: tail
        /\ (usable self w ->
            tail = [stmt_event self (VersionUpdate ("'" ++ new ++ "'"))]
            /\ completed o1 = true)).
Proof.
  intros self o1 o2 H1 H2. subst o1 o2.
  unfold _update_current_rev. cbn [py_eqb is_None].
  apply String.eqb_neq in H1, H2. rewrite H1, H2.
  unfold bind, emit.
  destruct (exec_shape (impl self)
              (VersionUpdate (quoted (PyRevision (Some new)))) (store w))
    as (s' & tail & res & Hex).
  rewrite !Hex.
  assert (Hw : forall ev, world_of
            match res with
            | None => Done tt (mkWorld s' ((events w ++ [ev]) ++ tail))
            | Some e => Raised e (mkWorld s' ((events w ++ [ev]) ++ tail))
            end = mkWorld s' (events w ++ ev :: tail)).
  { intros ev. rewrite <- app_assoc. now destruct res. }
  rewrite !Hw. split; [reflexivity|]. split; [now destruct res|].
  exists tail. repeat split.
  - pose proof (Context_init_consistent d sc conn fn mode ob tddl start)
      as Hc.
    destruct H as [Hm | [[c Hconn] Ht]].
    + specialize (Hex []). unfold _exec in Hex.
      destruct Hc as [Hc _]. fold self in Hc. rewrite Hc, Hm in Hex.
      unfold stmt_event. rewrite Hm. unfold emit in Hex. simpl in Hex.
      destruct res; now inversion Hex.
    + specialize (Hex []). unfold _exec in Hex.
      destruct Hc as [Hc1 Hc2]. fold self in Hc1, Hc2.
      unfold stmt_event.
      destruct (as_sql self) eqn:Hm.
      * rewrite Hc1 in Hex. unfold emit in Hex. simpl in Hex.
        destruct res; now inversion Hex.
      * rewrite Hc1, Hc2, Hconn in Hex. unfold bind, conn_execute in Hex.
        destruct (store_execute_ok
                    (VersionUpdate (quoted (PyRevision (Some new))))
                    (store w) Ht) as [r Hr]; [discriminate|].
        simpl in Hr. simpl in Hex. rewrite Hr in Hex.
        destruct res; now inversion Hex.
  - destruct res as [e|]; [|reflexivity].
    pose proof (Context_init_consistent d sc conn fn mode ob tddl start)
      as Hc.
    destruct (yields_exec self Hc
                (VersionUpdate (quoted (PyRevision (Some new))))
                ltac:(discriminate) ltac:(discriminate) w H) as [E _].
    destruct w as [s evs]. simpl in Hex. rewrite Hex in E. discriminate.
Qed.

Lemma update_ignores_old_witness :
  "a1" <> "c3" /\ "b2" <> "c3" /\
  store (world_of
           (_update_current_rev
              (Context_init (mkDialect "sqlite" false) None
                            (Some (mkConnection (mkDialect "sqlite" false)))
                            (fun _ => []) false None None None)
              (PyRevision (Some "a1")) (PyRevision (Some "c3"))
              (mkWorld (mkStore (Some ["zz"]) []) [])))
  = store (world_of
             (_update_current_rev
                (Context_init (mkDialect "sqlite" false) None
                              (Some (mkConnection (mkDialect "sqlite" false)))
                              (fun _ => []) false None None None)
                (PyRevision (Some "b2")) (PyRevision (Some "c3"))
                (mkWorld (mkStore (Some ["zz"]) []) []))).
Proof.
  assert (H1 : "a1" <> "c3") by discriminate.
  assert (H2 : "b2" <> "c3") by discriminate.
  split; [exact H1|]. split; [exact H2|].
  exact (proj1 (update_ignores_old
                  (mkDialect "sqlite" false) None
                  (Some (mkConnection (mkDialect "sqlite" false)))
                  (fun _ => []) false None None None "a1" "b2" "c3"
                  (mkWorld (mkStore (Some ["zz"]) []) []) H1 H2)).
Defined.

(** ** The current-revision read *)

(** C8 -- The read [_current_rev].  With a live connection (and no starting
    revision given) it creates the version table when it is absent, leaves
    an existing table as it is, and returns [None] when the table has no
    row and the stored revision otherwise.  In rendering mode it runs no
    query at all and returns the starting revision the context was given,
    which is [None] when none was configured. *)
Theorem current_rev_read
    (d : Dialect) (sc : option ScriptDirectory) (conn : option Connection)
    (fn : Sequencer) (ob : option Buffer) (tddl : option bool)
    (start : RevisionId) (w : World) :
  (forall c,
     truthy start = false ->
     let self := Context_init d sc (Some c) fn false ob tddl start in
     exists w',
       _current_rev self w
       = Done (match version_rows (store w) with
               | Some (r :: _) => Some r
               | _ => None
               end) w'
       /\ version_rows (store w') = Some (default [] (version_rows (store w)))
       /\ applied_sql (store w') = applied_sql (store w)
       /\ events w'
          = events w
            ++ (if has_table (store w) then [] else [EvLive CreateTable])
            ++ [EvLive VersionSelect])
  /\ (let self := Context_init d sc conn fn true ob tddl start in
      _current_rev self w = Done start w)
  /\ (forall url_dialect g a g',
        opt_starting_rev (_context_opts g) = None ->
        truthy (arg_starting_rev a) = false ->
        configure url_dialect a g = (None, g') ->
        exists c,
          _context g' = Some c /\ _start_from_rev c = None
          /\ (as_sql c = true -> _current_rev c w = Done None w)).
Proof.
  repeat split.
  - intros c Hst self. subst self.
    unfold _current_rev, Context_init. cbn [as_sql _start_from_rev].
    rewrite Hst. unfold bind, version_create, bind_execute.
    cbn [as_sql connection].
    destruct w as [[[rows|] sql] evs]; cbn.
    + eexists. split; [reflexivity|]. repeat split.
    + eexists. split; [reflexivity|]. repeat split.
      cbn. now rewrite <- app_assoc.
  - intros url_dialect g a g' Hopt Harg Hcfg.
    unfold configure in Hcfg.
    destruct (resolve_dialect url_dialect a) as [e|dl]; [discriminate|].
    destruct (opt_fn (store_args a (_context_opts g))) as [f|] eqn:Hf;
      [|discriminate].
    injection Hcfg as <-. eexists. split; [reflexivity|].
    assert (Hs : opt_starting_rev (store_args a (_context_opts g)) = None).
    { unfold store_args. rewrite Harg.
      destruct (arg_transactional_ddl a), (arg_output_buffer a),
        (truthy (arg_tag a)); exact Hopt. }
    cbn [_start_from_rev Context_init]. rewrite Hs.
    split; [reflexivity|].
    intros Has. unfold _current_rev. rewrite Has.
    reflexivity.
Qed.

Lemma current_rev_read_witness :
  exists w',
    _current_rev
      (Context_init (mkDialect "sqlite" false) None
                    (Some (mkConnection (mkDialect "sqlite" false)))
                    (fun _ => []) false None None None)
      (mkWorld (mkStore None []) [])
    = Done None w'
    /\ version_rows (store w') = Some [].
Proof.
  destruct (proj1 (current_rev_read (mkDialect "sqlite" false) None None
                     (fun _ => []) None None None
                     (mkWorld (mkStore None []) []))
              (mkConnection (mkDialect "sqlite" false)) eq_refl)
    as (w' & E & Hrows & _).
  exists w'. split; [exact E | exact Hrows].
Defined.

(** ** Runs *)

Lemma run_not_startable (self : Context) (kw : Kw) (w : World) :
  as_sql self = false ->
  connection self = None \/ truthy (_start_from_rev self) = true ->
  exists e, run_migrations self kw w = Raised e w.
Proof.
  intros Hs Hn. unfold run_migrations, _current_rev, version_create, bind.
  rewrite Hs. cbn [andb ret].
  destruct (truthy (_start_from_rev self)) eqn:Ht.
  - eexists. reflexivity.
  - destruct Hn as [-> | Hn]; [|discriminate]. eexists. reflexivity.
Qed.

Lemma read_delta_rows (self : Context) (w : World) :
  version_rows (replay (read_delta self w) (store w))
  = (if as_sql self then version_rows (store w)
     else Some (default [] (version_rows (store w))))
  /\ applied_sql (replay (read_delta self w) (store w))
     = applied_sql (store w).
Proof.
  unfold read_delta. destruct (as_sql self); [now split|].
  destruct w as [[[rows|] sql] evs]; now split.
Qed.

(** C4 -- A run whose sequencer yields no step, in either mode and with
    either durability, also when the run is refused at the read: the
    version pointer after the run is the pointer before it, the rows of the
    version table are untouched (a live read may create the table when it
    is absent, empty), and the run issues no pointer write: it neither
    enters [_update_current_rev] nor executes or renders an insert, update
    or delete of the pointer. *)
Theorem no_op_run
    (d : Dialect) (sc : option ScriptDirectory) (conn : option Connection)
    (fn : Sequencer) (mode : bool) (ob : option Buffer) (tddl : option bool)
    (start : RevisionId) (kw : Kw) (w : World) :
  let self := Context_init d sc conn fn mode ob tddl start in
  fn (if mode then start else pointer (store w)) = [] ->
  let w' := world_of (run_migrations self kw w) in
  pointer (store w') = pointer (store w)
  /\ applied_sql (store w') = applied_sql (store w)
  /\ (version_rows (store w') = version_rows (store w)
      \/ (version_rows (store w) = None /\ version_rows (store w') = Some []))
  /\ exists delta,
       events w' = events w ++ delta
       /\ List.filter is_pointer_write delta = [].
Proof.
  intros self Hfn w'.
  pose proof (Context_init_consistent d sc conn fn mode ob tddl start) as Hc.
  fold self in Hc.
  assert (Hcases : startable self \/
                   (as_sql self = false /\
                    (connection self = None
                     \/ truthy (_start_from_rev self) = true))).
  { unfold startable. destruct (as_sql self) eqn:Hs; [now left; left|].
    destruct (connection self) as [c|] eqn:Hconn; [|now right; split; [|left]].
    destruct (truthy (_start_from_rev self)) eqn:Ht;
      [now right; split; [|right] | left; right].
    split; [now exists c | reflexivity]. }
  destruct Hcases as [Hst | [Hs Hn]].
  - assert (Hsteps : _migrations_fn self (anchor self w) = []) by exact Hfn.
    pose proof (run_ok self Hc kw w Hst) as Hrun.
    rewrite Hsteps in Hrun. specialize (Hrun ltac:(constructor)).
    subst w'. rewrite Hrun. cbn [world_of].
    unfold run_delta. cbn [create_delta flat_map closing_delta app].
    unfold advance. cbn [store events].
    rewrite !replay_app.
    assert (Hm : forall text s, replay (marker self text) s = s)
      by (intros text s; unfold marker;
          now destruct (as_sql self && transactional_ddl (impl self))).
    rewrite !Hm.
    destruct (read_delta_rows self w) as [Hrows Hsql].
    repeat split.
    + unfold pointer. rewrite Hrows.
      destruct (as_sql self); [reflexivity|].
      now destruct (version_rows (store w)).
    + exact Hsql.
    + rewrite Hrows. destruct (as_sql self); [now left|].
      destruct (version_rows (store w)); [now left | now right].
    + eexists. split; [reflexivity|].
      now rewrite !List.filter_app, !writes_marker, writes_read.
  - destruct (run_not_startable self kw w Hs Hn) as [e He].
    subst w'. rewrite He. cbn [world_of].
    repeat split; [now left|]. exists []. now rewrite app_nil_r.
Qed.

Lemma no_op_run_witness :
  pointer (store (world_of
    (run_migrations
       (Context_init (mkDialect "postgresql" true) None
                     (Some (mkConnection (mkDialect "postgresql" true)))
                     (fun _ => []) false None None None)
       [] (mkWorld (mkStore (Some ["b2"]) []) []))))
  = Some "b2".
Proof.
  exact (proj1 (no_op_run (mkDialect "postgresql" true) None
                  (Some (mkConnection (mkDialect "postgresql" true)))
                  (fun _ => []) false None None None []
                  (mkWorld (mkStore (Some ["b2"]) []) []) eq_refl)).
Defined.

Lemma points_to_rows (s s' : Store) (r : RevisionId) :
  version_rows s' = version_rows s -> points_to s r -> points_to s' r.
Proof.
  unfold points_to, has_table, pointer. now intros ->.
Qed.

Lemma single_row_rows (s s' : Store) (r : RevisionId) :
  version_rows s' = version_rows s -> single_row s r -> single_row s' r.
Proof. unfold single_row. now intros ->. Qed.

(** The store of a live run follows the pointer writes of its log. *)
Section LiveStore.

Variable Inv : Store -> RevisionId -> Prop.
Hypothesis Inv_rows : forall s s' r,
  version_rows s' = version_rows s -> Inv s r -> Inv s' r.
Hypothesis Inv_write : forall s old new,
  Inv s old ->
  exists s',
    run_script (write_statement (PyRevision old) (PyRevision new)) s
    = inr s'
    /\ Inv s' new /\ applied_sql s' = applied_sql s.

Variable self : Context.
Variable kw : Kw.
Hypothesis Hlive : as_sql self = false.

Lemma live_write (s : Store) (old new : RevisionId) :
  Inv s old ->
  Inv (replay (write_delta self (PyRevision old) (PyRevision new)) s) new.
Proof.
  intros HI. destruct (Inv_write s old new HI) as (s' & E & HI' & _).
  rewrite (run_script_replay _ s s'); [exact HI'| |].
  - now apply rendered_write_delta.
  - now rewrite constructs_write_delta.
Qed.

Lemma live_block (s : Store) (step : Step) (r : RevisionId) :
  Inv s r -> Inv (replay (block self kw step) s) r.
Proof.
  intros HI.
  rewrite (run_script_replay _ s
             (mkStore (version_rows s)
                (applied_sql s ++ sqls (body (fst (fst step)) kw)))).
  - eapply Inv_rows; [|exact HI]. reflexivity.
  - now apply rendered_block.
  - rewrite constructs_block. apply run_script_text.
Qed.

Lemma live_steps (steps : list Step) (start : RevisionId) (s : Store) :
  transactional_ddl (impl self) = false ->
  chained start steps -> Inv s start ->
  Inv (replay (flat_map (step_delta self kw) steps) s)
      (final_rev start steps).
Proof.
  intros Htx Hc HI.
  destruct (chain_steps Inv Inv_rows Inv_write kw steps start s Hc HI)
    as (s' & E & HI').
  rewrite (run_script_replay _ s s'); [exact HI'| |].
  - now apply rendered_steps.
  - now rewrite constructs_steps, Htx.
Qed.

Lemma live_batch (steps : list Step) (r : RevisionId) (s : Store) :
  transactional_ddl (impl self) = true ->
  Inv s r -> Inv (replay (flat_map (step_delta self kw) steps) s) r.
Proof.
  intros Htx HI.
  destruct (batch_steps Inv Inv_rows kw steps r s HI) as (s' & E & HI').
  rewrite (run_script_replay _ s s'); [exact HI'| |].
  - now apply rendered_steps.
  - now rewrite constructs_steps, Htx.
Qed.

(** The whole log of a live run in which every step succeeds. *)
Lemma live_run (w : World) (steps : list Step) (start : RevisionId) :
  chained start steps ->
  Inv (replay (read_delta self w) (store w)) start ->
  Inv (replay (run_delta self kw w steps) (store w))
      (final_rev start steps).
Proof.
  intros Hc HI. unfold run_delta, marker, create_delta, closing_delta.
  rewrite Hlive. cbn [andb app].
  replace (match steps with
           | [] => []
           | _ :: _ => @nil Event
           end) with (@nil Event) by now destruct steps.
  cbn [app]. rewrite !replay_app.
  set (s1 := replay (read_delta self w) (store w)) in *.
  destruct (transactional_ddl (impl self)) eqn:Htx.
  - pose proof (live_batch steps start s1 Htx HI) as H2.
    destruct steps as [|first rest]; [exact HI|].
    rewrite app_nil_r. cbn [replay].
    destruct Hc as [Hp Hc]. rewrite <- Hp in H2.
    rewrite final_rev_cons. now apply live_write.
  - pose proof (live_steps steps start s1 Htx Hc HI) as H2.
    destruct steps as [|first rest]; [exact HI | exact H2].
Qed.

(** The same for a transactional run, whatever the steps in between. *)
Lemma live_run_batch (w : World) (first : Step) (rest : list Step) :
  transactional_ddl (impl self) = true ->
  Inv (replay (read_delta self w) (store w)) (prev_rev_of first) ->
  Inv (replay (run_delta self kw w (first :: rest)) (store w))
      (final_rev (rev_of first) rest).
Proof.
  intros Htx HI. unfold run_delta, marker, create_delta, closing_delta.
  rewrite Hlive, Htx. cbn [andb app]. rewrite !replay_app.
  cbn [replay]. apply live_write. now apply live_batch.
Qed.

End LiveStore.

Lemma read_points_to (self : Context) (w : World) :
  as_sql self = false ->
  points_to (replay (read_delta self w) (store w)) (pointer (store w)).
Proof.
  intros Hs. destruct (read_delta_rows self w) as [Hrows _].
  rewrite Hs in Hrows. unfold points_to, has_table, pointer.
  rewrite Hrows. now destruct (version_rows (store w)).
Qed.

Lemma read_single_row (self : Context) (w : World) (r : RevisionId) :
  as_sql self = false ->
  (version_rows (store w) = None /\ r = None) \/ single_row (store w) r ->
  single_row (replay (read_delta self w) (store w)) r.
Proof.
  intros Hs H. destruct (read_delta_rows self w) as [Hrows _].
  rewrite Hs in Hrows. unfold single_row in *. rewrite Hrows.
  destruct H as [[-> ->] | ->]; reflexivity.
Qed.

Lemma startable_init (d : Dialect) (sc : option ScriptDirectory)
    (conn : option Connection) (fn : Sequencer) (mode : bool)
    (ob : option Buffer) (tddl : option bool) (start : RevisionId) :
  (mode = false -> is_Some conn /\ truthy start = false) ->
  startable (Context_init d sc conn fn mode ob tddl start).
Proof.
  intros H. unfold startable. cbn [as_sql connection _start_from_rev Context_init].
  destruct mode; [now left | right; now apply H].
Qed.

Lemma writes_of_write_delta (self : Context) (old new : PyRev) :
  List.filter is_write (write_delta self old new) = [EvWrite old new].
Proof.
  unfold write_delta, write_statement, stmt_event. cbn [List.filter is_write].
  f_equal.
  destruct (py_eqb old new); [reflexivity|].
  destruct (is_None new); [now destruct (as_sql self)|].
  destruct (is_None old); now destruct (as_sql self).
Qed.

Lemma is_write_pointer_write (delta : list Event) :
  List.filter is_pointer_write delta = [] -> List.filter is_write delta = [].
Proof.
  induction delta as [|ev delta IH]; [reflexivity|].
  destruct ev; cbn [List.filter is_pointer_write is_write]; try discriminate;
    intros H; apply IH;
    match type of H with
    | (if ?b then _ else _) = _ => destruct b; [discriminate | exact H]
    | _ => exact H
    end.
Qed.

Lemma writes_blocks (self : Context) (kw : Kw) (steps : list Step) :
  List.filter is_pointer_write (flat_map (block self kw) steps) = [].
Proof.
  induction steps as [|step steps IH]; [reflexivity|].
  simpl. now rewrite List.filter_app, writes_block, IH.
Qed.

Lemma steps_blocks (self : Context) (kw : Kw) (steps : list Step) :
  transactional_ddl (impl self) = true ->
  flat_map (step_delta self kw) steps = flat_map (block self kw) steps.
Proof.
  intros Htx. induction steps as [|step steps IH]; [reflexivity|].
  simpl. unfold step_delta at 1. now rewrite Htx, app_nil_r, IH.
Qed.

(** C1 -- A run with transactional durability over at least one step, in
    which every migration succeeds: the run completes, and its log is the
    blocks of all the steps, then one pointer write from the revision the
    first step starts at to the revision the last step ends at, with no
    pointer write before it (none between the steps) and none after it.
    That call of [_update_current_rev] is the only one of the run.  On a
    live connection whose pointer is the first step's starting revision,
    the pointer after the run is the last step's revision. *)
Theorem transactional_batching
    (d : Dialect) (sc : option ScriptDirectory) (conn : option Connection)
    (fn : Sequencer) (mode : bool) (ob : option Buffer) (tddl : option bool)
    (start : RevisionId) (kw : Kw) (w : World)
    (first : Step) (rest : list Step) :
  let self := Context_init d sc conn fn mode ob tddl start in
  let anchorRev := PyRevision (prev_rev_of first) in
  let toRev := PyRevision (final_rev (rev_of first) rest) in
  transactional_ddl (impl self) = true ->
  (mode = false -> is_Some conn /\ truthy start = false) ->
  fn (if mode then start else pointer (store w)) = first :: rest ->
  Forall (succeeds kw) (first :: rest) ->
  exists before after,
    run_migrations self kw w
    = Done tt (advance (before ++ flat_map (block self kw) (first :: rest)
                        ++ write_delta self anchorRev toRev ++ after) w)
    /\ List.filter is_pointer_write before = []
    /\ List.filter is_pointer_write after = []
    /\ List.filter is_write
         (before ++ flat_map (block self kw) (first :: rest)
          ++ write_delta self anchorRev toRev ++ after)
       = [EvWrite anchorRev toRev]
    /\ (mode = false -> pointer (store w) = prev_rev_of first ->
        pointer (store (world_of (run_migrations self kw w)))
        = final_rev (rev_of first) rest).
Proof.
  intros self anchorRev toRev Htx Hmode Hfn Hall.
  pose proof (Context_init_consistent d sc conn fn mode ob tddl start) as Hc.
  pose proof (startable_init d sc conn fn mode ob tddl start Hmode) as Hst.
  fold self in Hc, Hst.
  assert (Hsteps : _migrations_fn self (anchor self w) = first :: rest)
    by exact Hfn.
  pose proof (run_ok self Hc kw w Hst) as Hrun.
  rewrite Hsteps in Hrun. specialize (Hrun Hall).
  set (before := marker self "BEGIN;" ++ read_delta self w
                 ++ create_delta self (first :: rest)).
  set (after := (if as_sql self
                    && negb (truthy (final_rev (rev_of first) rest))
                 then [EvRender DropTable] else [])
                ++ marker self "COMMIT;").
  exists before, after.
  assert (Hshape :
    run_delta self kw w (first :: rest)
    = before ++ flat_map (block self kw) (first :: rest)
      ++ write_delta self anchorRev toRev ++ after).
  { unfold run_delta, closing_delta, before, after. rewrite Htx.
    rewrite (steps_blocks self kw (first :: rest) Htx).
    now rewrite <- !app_assoc. }
  rewrite <- Hshape.
  assert (Hbefore : List.filter is_pointer_write before = [])
    by (unfold before;
        now rewrite !List.filter_app, writes_marker, writes_read,
          writes_create).
  assert (Hafter : List.filter is_pointer_write after = []).
  { unfold after. rewrite List.filter_app, writes_marker.
    now destruct (as_sql self
                  && negb (truthy (final_rev (rev_of first) rest))). }
  split; [exact Hrun|]. split; [exact Hbefore|]. split; [exact Hafter|].
  split.
  - rewrite Hshape. clearbody before after. rewrite !List.filter_app.
    rewrite (is_write_pointer_write _ Hbefore).
    rewrite (is_write_pointer_write _ Hafter).
    rewrite (is_write_pointer_write _ (writes_blocks self kw (first :: rest))).
    now rewrite writes_of_write_delta.
  - intros Hm Hptr. rewrite Hrun. cbn [world_of advance store].
    assert (Hlive : as_sql self = false) by exact Hm.
    apply (live_run_batch points_to points_to_rows points_to_write self kw
             Hlive w first rest Htx).
    rewrite <- Hptr. now apply read_points_to.
Qed.

(** ** Rendering touches no live store *)

Lemma offline_ret {A : Type} (a : A) : offline (ret a).
Proof. intros w. exists []. now rewrite app_nil_r. Qed.

Lemma offline_raise {A : Type} (e : Exn) : offline (@raise A e).
Proof. intros w. exists []. now rewrite app_nil_r. Qed.

Lemma offline_emit (ev : Event) : is_live ev = false -> offline (emit ev).
Proof.
  intros Hev w. exists [ev]. cbn. now rewrite Hev.
Qed.

Lemma offline_bind {A B : Type} (m : M A) (k : A -> M B) :
  offline m -> (forall a, offline (k a)) -> offline (bind m k).
Proof.
  intros Hm Hk w. unfold bind.
  destruct (Hm w) as (d1 & E1 & L1 & S1).
  destruct (m w) as [a w1|e w1]; cbn [world_of] in *.
  - destruct (Hk a w1) as (d2 & E2 & L2 & S2).
    exists (d1 ++ d2). rewrite E2, E1, S2, S1, <- app_assoc, forallb_app.
    now rewrite L1, L2.
  - now exists d1.
Qed.

Lemma offline_when (b : bool) (m : M unit) :
  offline m -> offline (if b then m else ret tt).
Proof. destruct b; [auto | intros _; apply offline_ret]. Qed.

Section Rendering.

Variable self : Context.
Hypothesis Hself : consistent self.
Hypothesis Hrender : as_sql self = true.
Variable kw : Kw.

Lemma offline_exec (c : Construct) : offline (_exec (impl self) c).
Proof.
  unfold _exec. destruct Hself as [-> _]. rewrite Hrender.
  now apply offline_emit.
Qed.

Lemma offline_update (old new : PyRev) :
  offline (_update_current_rev self old new).
Proof.
  unfold _update_current_rev.
  apply offline_bind; [now apply offline_emit|]. intros _.
  destruct (py_eqb old new); [apply offline_ret|].
  destruct (is_None new); [apply offline_exec|].
  destruct (is_None old); apply offline_exec.
Qed.

Lemma offline_bind_execute (c : Construct) : offline (bind_execute self c).
Proof.
  unfold bind_execute. rewrite Hrender.
  apply offline_bind; [apply offline_exec | intros _; apply offline_ret].
Qed.

Lemma offline_create (checkfirst : bool) :
  offline (version_create self checkfirst).
Proof.
  unfold version_create. rewrite Hrender.
  apply offline_bind;
    [apply offline_bind_execute | intros _; apply offline_ret].
Qed.

Lemma offline_drop : offline (version_drop self).
Proof.
  unfold version_drop.
  apply offline_bind;
    [apply offline_bind_execute | intros _; apply offline_ret].
Qed.

Lemma offline_actions (acts : list Action) :
  offline (run_actions self acts).
Proof.
  induction acts as [|[sql|msg] acts IH]; simpl.
  - apply offline_ret.
  - apply offline_bind; [apply offline_exec | intros _; exact IH].
  - apply offline_raise.
Qed.

Lemma offline_loop_body (vars : PyRev * PyRev) (step : Step) :
  offline (loop_body self kw vars step).
Proof.
  destruct step as [[change prev] rev]. unfold loop_body.
  apply offline_bind.
  { destruct (is_False (fst vars)); [|apply offline_ret].
    apply offline_bind; [|intros _; apply offline_ret].
    apply offline_when, offline_create. }
  intros current_rev.
  apply offline_bind;
    [apply offline_when; now apply offline_emit|]. intros _.
  apply offline_bind; [apply offline_actions|]. intros _.
  apply offline_bind; [apply offline_when, offline_update|]. intros _.
  apply offline_ret.
Qed.

Lemma offline_for_each (steps : list Step) (vars : PyRev * PyRev) :
  offline (for_each self kw vars steps).
Proof.
  revert vars. induction steps as [|step steps IH]; intros vars; simpl.
  - apply offline_ret.
  - apply offline_bind; [apply offline_loop_body | intros v; apply IH].
Qed.

Lemma offline_run : offline (run_migrations self kw).
Proof.
  unfold run_migrations.
  apply offline_bind;
    [apply offline_when; now apply offline_emit|]. intros _.
  apply offline_bind.
  { unfold _current_rev. rewrite Hrender. apply offline_ret. }
  intros start_rev.
  apply offline_bind; [apply offline_for_each|]. intros [current_rev rev].
  apply offline_bind.
  - apply offline_when. apply offline_bind.
    + apply offline_when, offline_update.
    + intros _. apply offline_when, offline_drop.
  - intros _. apply offline_when. now apply offline_emit.
Qed.

End Rendering.

Lemma transactional_batching_witness :
  pointer (store (world_of
    (run_migrations
       (Context_init (mkDialect "postgresql" true) None
                     (Some (mkConnection (mkDialect "postgresql" true)))
                     (fun _ =>
                        [(mkChange "upgrade" (fun _ => [Execute "CREATE TABLE t1"]),
                          None, Some "a1");
                         (mkChange "upgrade" (fun _ => [Execute "CREATE TABLE t2"]),
                          Some "a1", Some "b2")])
                     false None None None)
       [] (mkWorld (mkStore None []) []))))
  = Some "b2".
Proof.
  destruct (transactional_batching
              (mkDialect "postgresql" true) None
              (Some (mkConnection (mkDialect "postgresql" true)))
              (fun _ =>
                 [(mkChange "upgrade" (fun _ => [Execute "CREATE TABLE t1"]),
                   None, Some "a1");
                  (mkChange "upgrade" (fun _ => [Execute "CREATE TABLE t2"]),
                   Some "a1", Some "b2")])
              false None None None [] (mkWorld (mkStore None []) [])
              (mkChange "upgrade" (fun _ => [Execute "CREATE TABLE t1"]),
               None, Some "a1")
              [(mkChange "upgrade" (fun _ => [Execute "CREATE TABLE t2"]),
                Some "a1", Some "b2")])
    as (before & after & _ & _ & _ & _ & Hptr).
  - reflexivity.
  - intros _. split; [eexists; reflexivity | reflexivity].
  - reflexivity.
  - repeat constructor.
  - exact (Hptr eq_refl eq_refl).
Defined.

(** C2 -- A run with non-transactional durability in which the migration of
    a step raises, after the steps [pre] before it succeeded: the run
    raises that exception; the pointer writes in its log are exactly the
    writes of the steps of [pre], one call per step in order, and none for
    the failing step or the steps after it.  On a live connection, when the
    steps of [pre] are chained from the pointer the run started at, the
    pointer after the failure is the revision the last step of [pre] ends
    at (the starting pointer when the first step fails).  In rendering mode
    the store is untouched. *)
Theorem non_transactional_failure
    (d : Dialect) (sc : option ScriptDirectory) (conn : option Connection)
    (fn : Sequencer) (mode : bool) (ob : option Buffer) (tddl : option bool)
    (start : RevisionId) (kw : Kw) (w : World)
    (pre post : list Step) (step : Step) (msg : string) :
  let self := Context_init d sc conn fn mode ob tddl start in
  transactional_ddl (impl self) = false ->
  (mode = false -> is_Some conn /\ truthy start = false) ->
  fn (if mode then start else pointer (store w)) = pre ++ step :: post ->
  Forall (succeeds kw) pre ->
  raises (body (fst (fst step)) kw) = Some msg ->
  exists delta,
    run_migrations self kw w = Raised (MigrationError msg) (advance delta w)
    /\ List.filter is_pointer_write delta
       = flat_map (fun s => write_delta self (PyRevision (prev_rev_of s))
                              (PyRevision (rev_of s))) pre
    /\ List.filter is_write delta
       = map (fun s => EvWrite (PyRevision (prev_rev_of s))
                               (PyRevision (rev_of s))) pre
    /\ (mode = false -> chained (pointer (store w)) pre ->
        pointer (store (advance delta w))
        = final_rev (pointer (store w)) pre)
    /\ (mode = true -> store (advance delta w) = store w).
Proof.
  intros self Htx Hmode Hfn Hall Hraise.
  pose proof (Context_init_consistent d sc conn fn mode ob tddl start) as Hc.
  pose proof (startable_init d sc conn fn mode ob tddl start Hmode) as Hst.
  fold self in Hc, Hst.
  assert (Hsteps : _migrations_fn self (anchor self w) = pre ++ step :: post)
    by exact Hfn.
  pose proof (run_fail self Hc kw w pre post step msg Hst Hsteps Hall Hraise)
    as Hrun.
  eexists. split; [exact Hrun|].
  assert (Hpw : List.filter is_pointer_write
            (marker self "BEGIN;" ++ read_delta self w
             ++ create_delta self (pre ++ step :: post)
             ++ flat_map (step_delta self kw) pre ++ block self kw step)
          = flat_map (fun s => write_delta self (PyRevision (prev_rev_of s))
                                 (PyRevision (rev_of s))) pre).
  { rewrite !List.filter_app, writes_marker, writes_read, writes_create,
      writes_steps, writes_block, Htx. now rewrite app_nil_r. }
  split; [exact Hpw|]. split; [|split].
  - rewrite !List.filter_app.
    rewrite (is_write_pointer_write _ (writes_marker self _)).
    rewrite (is_write_pointer_write _ (writes_read self w)).
    rewrite (is_write_pointer_write _ (writes_create self _)).
    rewrite (is_write_pointer_write _ (writes_block self kw step)).
    rewrite app_nil_r. cbn [app].
    clear - Htx. induction pre as [|p pre IH]; [reflexivity|].
    cbn [flat_map map]. unfold step_delta at 1.
    rewrite !List.filter_app, IH.
    rewrite (is_write_pointer_write _ (writes_block self kw p)).
    now rewrite Htx, writes_of_write_delta.
  - intros Hm Hchain. cbn [advance store].
    assert (Hlive : as_sql self = false) by exact Hm.
    unfold marker, create_delta. rewrite Hlive. cbn [andb app].
    replace (match pre ++ step :: post with
             | [] => []
             | _ :: _ => @nil Event
             end) with (@nil Event) by now destruct (pre ++ step :: post).
    cbn [app]. rewrite !replay_app.
    apply (live_block points_to points_to_rows self kw Hlive).
    apply (live_steps points_to points_to_rows points_to_write self kw
             Hlive pre _ _ Htx Hchain).
    now apply read_points_to.
  - intros Hm. assert (Hr : as_sql self = true) by exact Hm.
    destruct (offline_run self Hc Hr kw w) as (dl & _ & _ & Hstore).
    rewrite Hrun in Hstore. exact Hstore.
Qed.

Lemma non_transactional_failure_witness :
  pointer (store (world_of
    (run_migrations
       (Context_init (mkDialect "mysql" false) None
                     (Some (mkConnection (mkDialect "mysql" false)))
                     (fun _ =>
                        [(mkChange "upgrade" (fun _ => [Execute "CREATE TABLE t1"]),
                          None, Some "a1");
                         (mkChange "upgrade"
                                   (fun _ => [Execute "CREATE TABLE t2"; Raise "boom"]),
                          Some "a1", Some "b2")])
                     false None None None)
       [] (mkWorld (mkStore None []) []))))
  = Some "a1".
Proof.
  destruct (non_transactional_failure
              (mkDialect "mysql" false) None
              (Some (mkConnection (mkDialect "mysql" false)))
              (fun _ =>
                 [(mkChange "upgrade" (fun _ => [Execute "CREATE TABLE t1"]),
                   None, Some "a1");
                  (mkChange "upgrade"
                            (fun _ => [Execute "CREATE TABLE t2"; Raise "boom"]),
                   Some "a1", Some "b2")])
              false None None None [] (mkWorld (mkStore None []) [])
              [(mkChange "upgrade" (fun _ => [Execute "CREATE TABLE t1"]),
                None, Some "a1")]
              []
              (mkChange "upgrade"
                        (fun _ => [Execute "CREATE TABLE t2"; Raise "boom"]),
               Some "a1", Some "b2")
              "boom")
    as (delta & Hrun & _ & _ & Hptr & _).
  - reflexivity.
  - intros _. split; [eexists; reflexivity | reflexivity].
  - reflexivity.
  - repeat constructor.
  - reflexivity.
  - rewrite Hrun. apply Hptr; [reflexivity|]. now split.
Defined.

Lemma prefix_append (s x : string) : String.prefix s (s ++ x) = true.
Proof.
  induction s as [|a s IH]; simpl.
  - now destruct x.
  - destruct (ascii_dec a a); [exact IH | contradiction].
Qed.

Lemma is_header_running (step : Step) : is_header (header_event step) = true.
Proof. apply prefix_append. Qed.

Lemma headers_write_delta (self : Context) (old new : PyRev) :
  List.filter is_header (write_delta self old new) = [].
Proof.
  unfold write_delta, write_statement, stmt_event. cbn [List.filter is_header].
  destruct (py_eqb old new); [reflexivity|].
  destruct (is_None new); [now destruct (as_sql self)|].
  destruct (is_None old); now destruct (as_sql self).
Qed.

Lemma headers_statements (l : list string) :
  List.filter is_header (map (fun sql => EvRender (TextClause sql)) l) = [].
Proof. induction l as [|sql l IH]; [reflexivity | exact IH]. Qed.

(** C6 (as amended) -- Rendering mode.  Every run, completed or not, leaves
    the store as it was and gives no statement to a live connection.  A run
    in which every migration succeeds completes, and its output is: the
    marker
    [BEGIN;] when durability is transactional; the creation of the version
    table when the first step starts from no revision; for each step, in
    order, one block made of the header of the step followed by the
    statements of its migration (and then, when durability is not
    transactional, the pointer write of the step); the closing pointer
    write and table removal; the marker [COMMIT;] when durability is
    transactional.  So the output holds one header per step, and it opens
    with [BEGIN;] and ends with [COMMIT;] if and only if durability is
    transactional. *)
Theorem rendering_isolation
    (d : Dialect) (sc : option ScriptDirectory) (conn : option Connection)
    (fn : Sequencer) (ob : option Buffer) (tddl : option bool)
    (start : RevisionId) (kw : Kw) (w : World) :
  let self := Context_init d sc conn fn true ob tddl start in
  let transactional := transactional_ddl (impl self) in
  let steps := fn start in
  let o := run_migrations self kw w in
  store (world_of o) = store w
  /\ (exists delta,
        events (world_of o) = events w ++ delta
        /\ forallb (fun ev => negb (is_live ev)) delta = true)
  /\ (Forall (succeeds kw) steps ->
      exists delta,
        o = Done tt (mkWorld (store w) (events w ++ delta))
        /\ delta
           = (if transactional then [EvStatic "BEGIN;"] else [])
             ++ create_delta self steps
             ++ flat_map
                  (fun step =>
                     (header_event step
                      :: map (fun sql => EvRender (TextClause sql))
                             (sqls (body (fst (fst step)) kw)))
                     ++ (if transactional then []
                         else write_delta self (PyRevision (prev_rev_of step))
                                (PyRevision (rev_of step))))
                  steps
             ++ closing_delta self steps
             ++ (if transactional then [EvStatic "COMMIT;"] else [])
        /\ List.filter is_header delta = map header_event steps
        /\ (transactional = true <->
            exists mid,
              delta = EvStatic "BEGIN;" :: mid ++ [EvStatic "COMMIT;"])).
Proof.
  intros self transactional steps o.
  pose proof (Context_init_consistent d sc conn fn true ob tddl start) as Hc.
  fold self in Hc.
  assert (Hr : as_sql self = true) by reflexivity.
  destruct (offline_run self Hc Hr kw w) as (dl & Hev & Hlive & Hstore).
  fold o in Hev, Hstore.
  split; [exact Hstore|]. split; [now exists dl|].
  intros Hall.
  assert (Hst : startable self) by now left.
  pose proof (run_ok self Hc kw w Hst Hall) as Hrun. fold o in Hrun.
  change (_migrations_fn self (anchor self w)) with steps in Hrun.
  assert (Hsteps :
    flat_map (step_delta self kw) steps
    = flat_map
        (fun step =>
           (header_event step
            :: map (fun sql => EvRender (TextClause sql))
                   (sqls (body (fst (fst step)) kw)))
           ++ (if transactional then []
               else write_delta self (PyRevision (prev_rev_of step))
                      (PyRevision (rev_of step))))
        steps) by reflexivity.
  assert (Hdelta :
    run_delta self kw w steps
    = (if transactional then [EvStatic "BEGIN;"] else [])
      ++ create_delta self steps
      ++ flat_map (step_delta self kw) steps
      ++ closing_delta self steps
      ++ (if transactional then [EvStatic "COMMIT;"] else []))
    by reflexivity.
  rewrite Hdelta in Hrun. rewrite Hsteps in Hrun.
  eexists. split; [|split; [reflexivity|]].
  - rewrite Hrun. unfold advance. f_equal. f_equal.
    rewrite Hrun in Hstore. exact Hstore.
  - assert (Hcreate : List.filter is_header (create_delta self steps) = []).
    { destruct steps as [|s0 ss]; [reflexivity|]. cbn [create_delta].
      now destruct (as_sql self && negb (truthy (prev_rev_of s0))). }
    assert (Hclose : List.filter is_header (closing_delta self steps) = []).
    { destruct steps as [|s0 ss]; [reflexivity|]. cbn [closing_delta].
      rewrite List.filter_app.
      destruct (transactional_ddl (impl self));
        [rewrite headers_write_delta|];
        now destruct (as_sql self
                      && negb (truthy (final_rev (rev_of s0) ss))). }
    assert (Hblocks :
      List.filter is_header
        (flat_map
           (fun step =>
              (header_event step
               :: map (fun sql => EvRender (TextClause sql))
                      (sqls (body (fst (fst step)) kw)))
              ++ (if transactional then []
                  else write_delta self (PyRevision (prev_rev_of step))
                         (PyRevision (rev_of step))))
           steps)
      = map header_event steps).
    { clear. induction steps as [|s0 ss IH]; [reflexivity|].
      cbn [flat_map map]. rewrite !List.filter_app, IH.
      cbn [List.filter]. rewrite is_header_running, headers_statements.
      destruct transactional; [reflexivity|].
      now rewrite headers_write_delta. }
    split.
    + rewrite !List.filter_app, Hcreate, Hclose, Hblocks.
      destruct transactional; cbn; now rewrite app_nil_r.
    + split.
      * intros ->. eexists. cbn [app]. f_equal.
        rewrite !app_assoc. reflexivity.
      * intros [mid Hmid]. destruct transactional; [reflexivity|].
        exfalso. cbn [app] in Hmid. rewrite app_nil_r in Hmid.
        destruct steps as [|s0 ss]; [discriminate|].
        cbn [create_delta flat_map] in Hmid.
        destruct (as_sql self && negb (truthy (prev_rev_of s0)));
          cbn [app] in Hmid; [discriminate|].
        injection Hmid as Hhead _. unfold running_header in Hhead.
        discriminate.
Qed.

Lemma rendering_isolation_witness :
  completed
    (run_migrations
       (Context_init (mkDialect "postgresql" true) None None
                     (fun _ =>
                        [(mkChange "upgrade" (fun _ => [Execute "CREATE TABLE t1"]),
                          None, Some "a1")])
                     true None None None)
       [] (mkWorld (mkStore None []) []))
  = true.
Proof.
  destruct (proj2 (proj2 (rendering_isolation
              (mkDialect "postgresql" true) None None
              (fun _ =>
                 [(mkChange "upgrade" (fun _ => [Execute "CREATE TABLE t1"]),
                   None, Some "a1")])
              None None None [] (mkWorld (mkStore None []) []))))
    as (delta & Hrun & _).
  - repeat constructor.
  - now rewrite Hrun.
Defined.

(** C6 as stated fails for a run that is aborted: a rendering run with
    transactional durability whose only migration raises has written
    [BEGIN;], the creation of the version table, the header of the step and
    the statement before the raise; the output holds a header for a step
    that was not applied, and it does not end with [COMMIT;]. *)
Lemma rendering_isolation_counterexample :
  let self :=
    Context_init (mkDialect "postgresql" true) None None
      (fun _ =>
         [(mkChange "upgrade"
                    (fun _ => [Execute "CREATE TABLE t1"; Raise "boom"]),
           None, Some "a1")])
      true None None None in
  let o := run_migrations self [] (mkWorld (mkStore None []) []) in
  transactional_ddl (impl self) = true
  /\ o = Raised (MigrationError "boom")
           (mkWorld (mkStore None [])
              [EvStatic "BEGIN;"; EvRender CreateTable;
               EvStatic "-- Running upgrade None -> a1";
               EvRender (TextClause "CREATE TABLE t1")])
  /\ List.filter is_header (events (world_of o))
     = [EvStatic "-- Running upgrade None -> a1"]
  /\ ~ (exists mid,
          events (world_of o)
          = EvStatic "BEGIN;" :: mid ++ [EvStatic "COMMIT;"]).
Proof.
  cbv zeta. split; [reflexivity|]. split; [reflexivity|].
  split; [reflexivity|].
  intros [mid H]. cbn in H.
  destruct mid as [|e1 [|e2 [|e3 [|e4 mid]]]]; discriminate H.
Qed.

(** ** The life of the pointer record *)

Lemma rendered_constructs (delta : list Event) :
  forallb (fun ev => negb (is_live ev)) delta = true ->
  rendered delta = constructs delta.
Proof.
  induction delta as [|ev delta IH]; [reflexivity|].
  cbn [forallb]. intros H. apply andb_prop in H as [H1 H2].
  destruct ev; try discriminate; cbn; now rewrite IH.
Qed.

Lemma script_run (Inv : Store -> RevisionId -> Prop) (kw : Kw)
    (transactional : bool) (steps : list Step) (start : RevisionId)
    (s : Store) :
  (forall s s' r, version_rows s' = version_rows s -> Inv s r -> Inv s' r) ->
  (forall s old new,
     Inv s old ->
     exists s',
       run_script (write_statement (PyRevision old) (PyRevision new)) s
       = inr s'
       /\ Inv s' new /\ applied_sql s' = applied_sql s) ->
  chained start steps -> Inv s start ->
  exists s',
    run_script
      (flat_map (step_script kw transactional) steps
       ++ (if transactional
           then match steps with
                | first :: rest =>
                    write_statement (PyRevision (prev_rev_of first))
                      (PyRevision (final_rev (rev_of first) rest))
                | [] => []
                end
           else [])) s
    = inr s'
    /\ Inv s' (final_rev start steps).
Proof.
  intros Inv_rows Inv_write Hc HI. rewrite run_script_app.
  destruct transactional.
  - destruct (batch_steps Inv Inv_rows kw steps start s HI) as (s1 & -> & H1).
    destruct steps as [|first rest]; [now exists s1|].
    destruct Hc as [Hp _]. rewrite <- Hp in H1.
    destruct (Inv_write s1 _ (final_rev (rev_of first) rest) H1)
      as (s2 & E2 & H2 & _).
    exists s2. now rewrite final_rev_cons.
  - destruct (chain_steps Inv Inv_rows Inv_write kw steps start s Hc HI)
      as (s1 & -> & H1).
    now exists s1.
Qed.

Lemma rendering_run_ok (self : Context) (kw : Kw) (w : World) :
  consistent self -> as_sql self = true ->
  Forall (succeeds kw) (_migrations_fn self (_start_from_rev self)) ->
  run_migrations self kw w
  = Done tt (mkWorld (store w)
               (events w
                ++ run_delta self kw w
                     (_migrations_fn self (_start_from_rev self))))
  /\ forallb (fun ev => negb (is_live ev))
       (run_delta self kw w (_migrations_fn self (_start_from_rev self)))
     = true.
Proof.
  intros Hc Hr Hall.
  assert (Ha : anchor self w = _start_from_rev self)
    by (unfold anchor; now rewrite Hr).
  pose proof (run_ok self Hc kw w (or_introl Hr)) as Hrun.
  rewrite Ha in Hrun. specialize (Hrun Hall).
  destruct (offline_run self Hc Hr kw w) as (dl & Hev & Hlive & Hstore).
  rewrite Hrun in Hev, Hstore. cbn [world_of advance events store] in *.
  apply app_inv_head in Hev. subst dl.
  split; [|exact Hlive]. rewrite Hrun. unfold advance. now rewrite Hstore.
Qed.

Lemma rendering_constructs (self : Context) (kw : Kw) (w : World)
    (steps : list Step) :
  as_sql self = true ->
  constructs (run_delta self kw w steps)
  = match steps with
    | first :: _ =>
        if negb (truthy (prev_rev_of first)) then [CreateTable] else []
    | [] => []
    end
    ++ (flat_map (step_script kw (transactional_ddl (impl self))) steps
        ++ (if transactional_ddl (impl self)
            then match steps with
                 | first :: rest =>
                     write_statement (PyRevision (prev_rev_of first))
                       (PyRevision (final_rev (rev_of first) rest))
                 | [] => []
                 end
            else []))
    ++ match steps with
       | first :: rest =>
           if negb (truthy (final_rev (rev_of first) rest))
           then [DropTable] else []
       | [] => []
       end.
Proof.
  intros Hr. unfold run_delta, marker, read_delta, create_delta,
    closing_delta.
  rewrite Hr. cbn [andb app].
  rewrite !constructs_app, constructs_steps.
  replace (constructs (if transactional_ddl (impl self)
                       then [EvStatic "BEGIN;"] else [])) with (@nil Construct)
    by now destruct (transactional_ddl (impl self)).
  replace (constructs (if transactional_ddl (impl self)
                       then [EvStatic "COMMIT;"] else []))
    with (@nil Construct)
    by now destruct (transactional_ddl (impl self)).
  cbn [app]. rewrite app_nil_r.
  destruct steps as [|first rest].
  - cbn. now destruct (transactional_ddl (impl self)).
  - rewrite constructs_app. rewrite <- !app_assoc. f_equal.
    + now destruct (negb (truthy (prev_rev_of first))).
    + f_equal. f_equal.
      * destruct (transactional_ddl (impl self)); [|reflexivity].
        apply constructs_write_delta.
      * now destruct (negb (truthy (final_rev (rev_of first) rest))).
Qed.

(** C7 -- The life of the pointer record, over runs whose steps are
    chained and all succeed.  On a live connection: a run from a store
    that holds no pointer (no table, or no row), whose steps start at
    [None] and end at ["b2"], leaves exactly the record ["b2"]; a run from
    a store holding the record ["b2"], whose steps start at ["b2"] and end
    at [None], leaves no record.  In rendering mode the same two runs
    render a script that, run against such a store, creates the table and
    leaves exactly the record ["b2"], respectively removes the record and
    ends with the removal of the table itself. *)
Theorem pointer_lifecycle
    (d : Dialect) (sc : option ScriptDirectory) (fn : Sequencer)
    (ob : option Buffer) (tddl : option bool) (kw : Kw) (w : World) :
  (forall c start,
     let self := Context_init d sc (Some c) fn false ob tddl start in
     truthy start = false ->
     version_rows (store w) = None \/ version_rows (store w) = Some [] ->
     chained None (fn None) -> final_rev None (fn None) = Some "b2" ->
     Forall (succeeds kw) (fn None) ->
     exists w',
       run_migrations self kw w = Done tt w'
       /\ version_rows (store w') = Some ["b2"])
  /\ (forall c start,
        let self := Context_init d sc (Some c) fn false ob tddl start in
        truthy start = false ->
        version_rows (store w) = Some ["b2"] ->
        chained (Some "b2") (fn (Some "b2")) ->
        final_rev (Some "b2") (fn (Some "b2")) = None ->
        Forall (succeeds kw) (fn (Some "b2")) ->
        exists w',
          run_migrations self kw w = Done tt w'
          /\ version_rows (store w') = Some [])
  /\ (forall conn,
        let self := Context_init d sc conn fn true ob tddl None in
        chained None (fn None) -> final_rev None (fn None) = Some "b2" ->
        Forall (succeeds kw) (fn None) ->
        exists delta,
          run_migrations self kw w
          = Done tt (mkWorld (store w) (events w ++ delta))
          /\ forall s0, version_rows s0 = None ->
               exists s1,
                 run_script (rendered delta) s0 = inr s1
                 /\ version_rows s1 = Some ["b2"])
  /\ (forall conn,
        let self := Context_init d sc conn fn true ob tddl (Some "b2") in
        chained (Some "b2") (fn (Some "b2")) ->
        final_rev (Some "b2") (fn (Some "b2")) = None ->
        Forall (succeeds kw) (fn (Some "b2")) ->
        exists delta,
          run_migrations self kw w
          = Done tt (mkWorld (store w) (events w ++ delta))
          /\ (exists script, rendered delta = script ++ [DropTable])
          /\ forall s0, version_rows s0 = Some ["b2"] ->
               exists s1,
                 run_script (rendered delta) s0 = inr s1
                 /\ version_rows s1 = None).
Proof.
  split; [|split; [|split]].
  - intros c start self Hst Hrows Hchain Hfinal Hall.
    pose proof (Context_init_consistent d sc (Some c) fn false ob tddl start)
      as Hc. fold self in Hc.
    assert (Hptr : pointer (store w) = None)
      by (unfold pointer; now destruct Hrows as [-> | ->]).
    assert (Hstart : startable self)
      by (right; split; [now exists c | exact Hst]).
    pose proof (run_ok self Hc kw w Hstart) as Hrun.
    change (_migrations_fn self (anchor self w)) with (fn (pointer (store w)))
      in Hrun.
    rewrite Hptr in Hrun. specialize (Hrun Hall).
    eexists. split; [exact Hrun|]. cbn [advance store].
    pose proof (live_run single_row single_row_rows single_row_write self kw
                  eq_refl w (fn None) None Hchain) as Hinv.
    rewrite Hfinal in Hinv. apply Hinv.
    apply read_single_row; [reflexivity|].
    destruct Hrows as [H | H]; [now left | now right].
  - intros c start self Hst Hrows Hchain Hfinal Hall.
    pose proof (Context_init_consistent d sc (Some c) fn false ob tddl start)
      as Hc. fold self in Hc.
    assert (Hptr : pointer (store w) = Some "b2")
      by (unfold pointer; now rewrite Hrows).
    assert (Hstart : startable self)
      by (right; split; [now exists c | exact Hst]).
    pose proof (run_ok self Hc kw w Hstart) as Hrun.
    change (_migrations_fn self (anchor self w)) with (fn (pointer (store w)))
      in Hrun.
    rewrite Hptr in Hrun. specialize (Hrun Hall).
    eexists. split; [exact Hrun|]. cbn [advance store].
    pose proof (live_run single_row single_row_rows single_row_write self kw
                  eq_refl w (fn (Some "b2")) (Some "b2") Hchain) as Hinv.
    rewrite Hfinal in Hinv. apply Hinv.
    apply read_single_row; [reflexivity|]. now right.
  - intros conn self Hchain Hfinal Hall.
    pose proof (Context_init_consistent d sc conn fn true ob tddl None)
      as Hc. fold self in Hc.
    destruct (rendering_run_ok self kw w Hc eq_refl Hall) as [Hrun Hlive].
    change (_migrations_fn self (_start_from_rev self)) with (fn None)
      in Hrun, Hlive.
    eexists. split; [exact Hrun|].
    intros s0 Hs0. rewrite (rendered_constructs _ Hlive).
    rewrite (rendering_constructs self kw w (fn None) eq_refl).
    destruct (fn None) as [|first rest] eqn:Hsteps; [discriminate|].
    destruct Hchain as [Hp Hchain'].
    rewrite Hp. cbn [truthy negb].
    rewrite final_rev_cons in Hfinal. rewrite Hfinal. cbn [truthy negb app].
    change (String.eqb "b2" "") with false. cbn [negb].
    rewrite app_nil_r.
    cbn [run_script]. unfold store_execute at 1. rewrite Hs0.
    destruct (script_run single_row kw (transactional_ddl (impl self))
                (first :: rest) None (mkStore (Some []) (applied_sql s0))
                single_row_rows single_row_write)
      as (s1 & E1 & H1); [now split | reflexivity|].
    rewrite Hp, Hfinal in E1. exists s1. split; [exact E1|].
    rewrite final_rev_cons, Hfinal in H1. exact H1.
  - intros conn self Hchain Hfinal Hall.
    pose proof (Context_init_consistent d sc conn fn true ob tddl (Some "b2"))
      as Hc. fold self in Hc.
    destruct (rendering_run_ok self kw w Hc eq_refl Hall) as [Hrun Hlive].
    change (_migrations_fn self (_start_from_rev self)) with (fn (Some "b2"))
      in Hrun, Hlive.
    eexists. split; [exact Hrun|].
    rewrite (rendered_constructs _ Hlive).
    rewrite (rendering_constructs self kw w (fn (Some "b2")) eq_refl).
    destruct (fn (Some "b2")) as [|first rest] eqn:Hsteps; [discriminate|].
    destruct Hchain as [Hp Hchain'].
    rewrite Hp. cbn [truthy negb].
    rewrite final_rev_cons in Hfinal. rewrite Hfinal.
    change (String.eqb "b2" "") with false. cbn [truthy negb app].
    split.
    + eexists. reflexivity.
    + intros s0 Hs0. rewrite run_script_app.
      destruct (script_run single_row kw (transactional_ddl (impl self))
                  (first :: rest) (Some "b2") s0
                  single_row_rows single_row_write)
        as (s1 & E1 & H1); [now split | exact Hs0|].
      rewrite Hp, Hfinal in E1. rewrite E1.
      rewrite final_rev_cons, Hfinal in H1. unfold single_row in H1.
      cbn [run_script]. unfold store_execute. rewrite H1.
      eexists. split; reflexivity.
Qed.

Lemma pointer_lifecycle_witness :
  exists w',
    run_migrations
      (Context_init (mkDialect "mysql" false) None
                    (Some (mkConnection (mkDialect "mysql" false)))
                    (fun _ =>
                       [(mkChange "upgrade" (fun _ => [Execute "CREATE TABLE t1"]),
                         None, Some "a1");
                        (mkChange "upgrade" (fun _ => [Execute "CREATE TABLE t2"]),
                         Some "a1", Some "b2")])
                    false None None None)
      [] (mkWorld (mkStore None []) [])
    = Done tt w'
    /\ version_rows (store w') = Some ["b2"].
Proof.
  apply (proj1 (pointer_lifecycle
                  (mkDialect "mysql" false) None
                  (fun _ =>
                     [(mkChange "upgrade" (fun _ => [Execute "CREATE TABLE t1"]),
                       None, Some "a1");
                      (mkChange "upgrade" (fun _ => [Execute "CREATE TABLE t2"]),
                       Some "a1", Some "b2")])
                  None None [] (mkWorld (mkStore None []) []))
               (mkConnection (mkDialect "mysql" false)) None).
  - reflexivity.
  - now left.
  - now repeat split.
  - reflexivity.
  - repeat constructor.
Defined.

(** ** The options registry and [configure] *)

Lemma store_args_fields (a : ConfigureArgs) (o : Opts) :
  opt_fn (store_args a o) = opt_fn o
  /\ opt_as_sql (store_args a o) = opt_as_sql o
  /\ opt_transactional_ddl (store_args a o)
     = match arg_transactional_ddl a with
       | Some b => Some (Some b)
       | None => opt_transactional_ddl o
       end
  /\ opt_output_buffer (store_args a o)
     = match arg_output_buffer a with
       | Some b => Some (Some b)
       | None => opt_output_buffer o
       end
  /\ opt_starting_rev (store_args a o)
     = (if truthy (arg_starting_rev a) then Some (arg_starting_rev a)
        else opt_starting_rev o)
  /\ opt_tag (store_args a o)
     = (if truthy (arg_tag a) then Some (arg_tag a) else opt_tag o).
Proof.
  unfold store_args.
  destruct (arg_transactional_ddl a), (arg_output_buffer a),
    (truthy (arg_starting_rev a)), (truthy (arg_tag a)); now repeat split.
Qed.

(** What [configure] leaves in the registry: the options with the
    arguments stored, or the options as they were when no dialect could be
    resolved. *)
Lemma configure_opts (url_dialect : string -> Exn + Dialect)
    (a : ConfigureArgs) (g : Globals) :
  _context_opts (snd (configure url_dialect a g))
  = store_args a (_context_opts g)
  \/ _context_opts (snd (configure url_dialect a g)) = _context_opts g.
Proof.
  unfold configure. destruct (resolve_dialect url_dialect a); [now right|].
  left. now destruct (opt_fn (store_args a (_context_opts g))).
Qed.

(** C5 (as amended) -- With a connection and a non-empty starting
    revision given while the registry is in live mode, [configure] does not
    fail on that conflict.  It succeeds whenever a migration function is
    registered, and installs a context; with none registered it raises
    [KeyError] for the missing ['fn'] and nothing else.  Whenever it
    succeeds, it is the run that fails: [run_migrations] raises
    [CommandError] from the current-revision read, before the sequencer is
    asked for steps and with nothing executed or written. *)
Theorem configure_conflict
    (url_dialect : string -> Exn + Dialect) (g : Globals)
    (a : ConfigureArgs) (c : Connection) (kw : Kw) (w : World) :
  arg_connection a = Some c ->
  truthy (arg_starting_rev a) = true ->
  default false (opt_as_sql (_context_opts g)) = false ->
  (forall fn, opt_fn (_context_opts g) = Some fn ->
     exists g', configure url_dialect a g = (None, g'))
  /\ (opt_fn (_context_opts g) = None ->
      fst (configure url_dialect a g) = Some (KeyError "fn"))
  /\ (forall g',
        configure url_dialect a g = (None, g') ->
        is_Some (_context g')
        /\ exists msg,
             module_run_migrations g' kw w = Raised (CommandError msg) w).
Proof.
  intros Hconn Hstart Hlive.
  destruct (store_args_fields a (_context_opts g))
    as (Ffn & Fsql & _ & _ & Fstart & _).
  unfold configure, resolve_dialect. rewrite Hconn, Ffn.
  split; [|split].
  - intros fn Hfn. rewrite Hfn. eexists. reflexivity.
  - now intros ->.
  - intros g' Hcfg.
    destruct (opt_fn (_context_opts g)) as [fn|]; [|discriminate].
    injection Hcfg as <-. split; [now eexists|].
    unfold module_run_migrations, get_context. cbn [_context].
    rewrite Fsql, Hlive, Fstart, Hstart.
    unfold run_migrations, _current_rev, bind.
    cbn [as_sql _start_from_rev Context_init andb ret default from_option id].
    rewrite Hstart. eexists. reflexivity.
Qed.

Lemma configure_conflict_witness :
  exists g',
    configure (fun _ => inl (PyException "unknown dialect"))
      (mkArgs (Some (mkConnection (mkDialect "sqlite" false)))
              None None None None (Some "a1") None)
      (_opts (mkConfig "alembic.ini") (mkScript "migrations")
             (mkOpts (Some (fun _ => [])) (Some false) None None (Some None)
                     (Some (Some "b2")) (Some None))
             initial_globals)
    = (None, g').
Proof.
  exact (proj1 (configure_conflict
                  (fun _ => inl (PyException "unknown dialect"))
                  (_opts (mkConfig "alembic.ini") (mkScript "migrations")
                         (mkOpts (Some (fun _ => [])) (Some false) None None
                                 (Some None) (Some (Some "b2")) (Some None))
                         initial_globals)
                  (mkArgs (Some (mkConnection (mkDialect "sqlite" false)))
                          None None None None (Some "a1") None)
                  (mkConnection (mkDialect "sqlite" false))
                  [] (mkWorld (mkStore None []) [])
                  eq_refl eq_refl eq_refl)
           (fun _ => []) eq_refl).
Defined.

(** C5 as stated fails: after the set-up of an upgrade in live mode,
    [configure] with a live connection and a starting revision raises
    nothing. *)
Lemma configure_conflict_counterexample :
  fst (configure (fun _ => inl (PyException "unknown dialect"))
         (mkArgs (Some (mkConnection (mkDialect "sqlite" false)))
                 None None None None (Some "a1") None)
         (_opts (mkConfig "alembic.ini") (mkScript "migrations")
                (mkOpts (Some (fun _ => [])) (Some false) None None
                        (Some None) (Some (Some "b2")) (Some None))
                initial_globals))
  = None
  /\ ~ (exists e,
          fst (configure (fun _ => inl (PyException "unknown dialect"))
                 (mkArgs (Some (mkConnection (mkDialect "sqlite" false)))
                         None None None None (Some "a1") None)
                 (_opts (mkConfig "alembic.ini") (mkScript "migrations")
                        (mkOpts (Some (fun _ => [])) (Some false) None None
                                (Some None) (Some (Some "b2")) (Some None))
                        initial_globals))
          = Some e).
Proof.
  split; [reflexivity|]. intros [e He]. discriminate He.
Qed.

(** An option that the later calls leave out stays as it is in the
    registry. *)
Ltac keep_option field :=
  let F := fresh "F" in
  match goal with
  | |- context [snd (configure ?u ?a ?g)] =>
      destruct (configure_opts u a g) as [F | F]; rewrite F;
      [pose proof (store_args_fields a (_context_opts g)) as field | ]
  end.

Lemma configure_keeps (url_dialect : string -> Exn + Dialect)
    (a : ConfigureArgs) (g : Globals) :
  (arg_transactional_ddl a = None ->
   opt_transactional_ddl (_context_opts (snd (configure url_dialect a g)))
   = opt_transactional_ddl (_context_opts g))
  /\ (arg_output_buffer a = None ->
      opt_output_buffer (_context_opts (snd (configure url_dialect a g)))
      = opt_output_buffer (_context_opts g))
  /\ (truthy (arg_starting_rev a) = false ->
      opt_starting_rev (_context_opts (snd (configure url_dialect a g)))
      = opt_starting_rev (_context_opts g))
  /\ (truthy (arg_tag a) = false ->
      opt_tag (_context_opts (snd (configure url_dialect a g)))
      = opt_tag (_context_opts g)).
Proof.
  repeat split; intros H; keep_option Hf; try reflexivity;
    destruct Hf as (_ & _ & F1 & F2 & F3 & F4);
    rewrite H in *; assumption.
Qed.

Lemma configure_all_keeps (url_dialect : string -> Exn + Dialect)
    (calls : list ConfigureArgs) (g : Globals) :
  (Forall (fun a => arg_transactional_ddl a = None) calls ->
   opt_transactional_ddl (_context_opts (configure_all url_dialect calls g))
   = opt_transactional_ddl (_context_opts g))
  /\ (Forall (fun a => arg_output_buffer a = None) calls ->
      opt_output_buffer (_context_opts (configure_all url_dialect calls g))
      = opt_output_buffer (_context_opts g))
  /\ (Forall (fun a => truthy (arg_starting_rev a) = false) calls ->
      opt_starting_rev (_context_opts (configure_all url_dialect calls g))
      = opt_starting_rev (_context_opts g))
  /\ (Forall (fun a => truthy (arg_tag a) = false) calls ->
      opt_tag (_context_opts (configure_all url_dialect calls g))
      = opt_tag (_context_opts g)).
Proof.
  revert g. induction calls as [|a calls IH]; intros g.
  - now repeat split.
  - destruct (IH (snd (configure url_dialect a g))) as (I1 & I2 & I3 & I4).
    destruct (configure_keeps url_dialect a g) as (K1 & K2 & K3 & K4).
    cbn [configure_all].
    repeat split; intros H; inversion H as [|? ? Ha Hcalls]; subst.
    + now rewrite I1, K1.
    + now rewrite I2, K2.
    + now rewrite I3, K3.
    + now rewrite I4, K4.
Qed.

Lemma configure_all_snoc (url_dialect : string -> Exn + Dialect)
    (calls : list ConfigureArgs) (a : ConfigureArgs) (g : Globals) :
  configure_all url_dialect (calls ++ [a]) g
  = snd (configure url_dialect a (configure_all url_dialect calls g)).
Proof.
  revert g. induction calls as [|b calls IH]; intros g; [reflexivity|].
  cbn [configure_all app]. apply IH.
Qed.

Lemma configure_context (url_dialect : string -> Exn + Dialect)
    (a : ConfigureArgs) (g g' : Globals) :
  configure url_dialect a g = (None, g') ->
  exists dl fn,
    _context g'
    = Some (Context_init dl (_script g) (arg_connection a) fn
              (default false (opt_as_sql (_context_opts g')))
              (get (opt_output_buffer (_context_opts g')))
              (get (opt_transactional_ddl (_context_opts g')))
              (default None (opt_starting_rev (_context_opts g'))))
    /\ _context_opts g' = store_args a (_context_opts g).
Proof.
  unfold configure. destruct (resolve_dialect url_dialect a) as [e|dl];
    [discriminate|].
  destruct (opt_fn (store_args a (_context_opts g))) as [fn|];
    [|discriminate].
  intros H. injection H as <-. now exists dl, fn.
Qed.

(** C9 -- Options persist in the registry.  After a [configure] call that
    completed, and any number of further calls, a later completed call
    builds its context from the values the first call gave for every
    option that the calls since then left out: [transactional_ddl] and
    [output_buffer] when they are passed as [None], [starting_rev] and
    [tag] when they are passed as a false value.  Once the registry has
    been cleared (and set up again without these options), a call that
    leaves them out gets the defaults: the durability of the dialect, the
    standard output, no starting revision and no tag. *)
Theorem options_persist
    (url_dialect : string -> Exn + Dialect) (g0 : Globals)
    (a1 : ConfigureArgs) (between : list ConfigureArgs) (a2 : ConfigureArgs)
    (g2 : Globals) :
  fst (configure url_dialect a1 g0) = None ->
  configure url_dialect a2
    (configure_all url_dialect between (snd (configure url_dialect a1 g0)))
  = (None, g2) ->
  exists c,
    _context g2 = Some c
    /\ (forall b,
          arg_transactional_ddl a1 = Some b ->
          Forall (fun a => arg_transactional_ddl a = None) (between ++ [a2]) ->
          transactional_ddl (impl c) = b)
    /\ (forall buf,
          arg_output_buffer a1 = Some buf ->
          Forall (fun a => arg_output_buffer a = None) (between ++ [a2]) ->
          output_buffer c = buf)
    /\ (truthy (arg_starting_rev a1) = true ->
        Forall (fun a => truthy (arg_starting_rev a) = false)
               (between ++ [a2]) ->
        _start_from_rev c = arg_starting_rev a1)
    /\ (truthy (arg_tag a1) = true ->
        Forall (fun a => truthy (arg_tag a) = false) (between ++ [a2]) ->
        get_tag_argument g2 = arg_tag a1)
    /\ (forall cfg script kw a3 g3,
          opt_transactional_ddl kw = None -> opt_output_buffer kw = None ->
          opt_starting_rev kw = None -> opt_tag kw = None ->
          arg_transactional_ddl a3 = None -> arg_output_buffer a3 = None ->
          truthy (arg_starting_rev a3) = false ->
          truthy (arg_tag a3) = false ->
          configure url_dialect a3 (_opts cfg script kw (_clear g2))
          = (None, g3) ->
          exists c3,
            _context g3 = Some c3
            /\ transactional_ddl (impl c3)
               = supports_transactional_ddl (dialect c3)
            /\ output_buffer c3 = sys_stdout
            /\ _start_from_rev c3 = None
            /\ get_tag_argument g3 = None).
Proof.
  intros H1 H2.
  destruct (configure url_dialect a1 g0) as [r g1] eqn:E1.
  cbn [fst snd] in *. subst r.
  destruct (configure_context _ _ _ _ E1) as (dl1 & fn1 & _ & O1).
  destruct (configure_context _ _ _ _ H2) as (dl2 & fn2 & C2 & _).
  assert (Hg2 : g2 = configure_all url_dialect (between ++ [a2]) g1)
    by now rewrite configure_all_snoc, H2.
  destruct (configure_all_keeps url_dialect (between ++ [a2]) g1)
    as (K1 & K2 & K3 & K4).
  rewrite <- Hg2 in K1, K2, K3, K4.
  destruct (store_args_fields a1 (_context_opts g0))
    as (_ & _ & F1 & F2 & F3 & F4).
  rewrite <- O1 in F1, F2, F3, F4.
  eexists. split; [exact C2|].
  split; [|split; [|split; [|split]]].
  - intros b Hb Hall. cbn [impl Context_init DefaultImpl_init transactional_ddl].
    now rewrite (K1 Hall), F1, Hb.
  - intros buf Hb Hall. cbn [output_buffer Context_init].
    now rewrite (K2 Hall), F2, Hb.
  - intros Hs Hall. cbn [_start_from_rev Context_init].
    now rewrite (K3 Hall), F3, Hs.
  - intros Ht Hall. unfold get_tag_argument.
    now rewrite (K4 Hall), F4, Ht.
  - intros cfg script kw a3 g3 Q1 Q2 Q3 Q4 A1 A2 A3 A4 H3.
    destruct (configure_context _ _ _ _ H3) as (dl3 & fn3 & C3 & O3).
    destruct (store_args_fields a3
                (_context_opts (_opts cfg script kw (_clear g2))))
      as (_ & _ & G1 & G2 & G3 & G4).
    rewrite <- O3 in G1, G2, G3, G4.
    eexists. split; [exact C3|].
    cbn [impl Context_init DefaultImpl_init transactional_ddl output_buffer
         _start_from_rev dialect].
    unfold get_tag_argument. rewrite G1, G2, G3, G4, A1, A2, A3, A4.
    cbn. rewrite Q1, Q2, Q3, Q4. now repeat split.
Qed.

Lemma options_persist_witness :
  exists c,
    _context
      (snd (configure (fun _ => inl (PyException "unknown dialect"))
              (mkArgs (Some (mkConnection (mkDialect "postgresql" true)))
                      None None None None None None)
              (snd (configure (fun _ => inl (PyException "unknown dialect"))
                      (mkArgs (Some (mkConnection (mkDialect "postgresql" true)))
                              None None (Some false) None None None)
                      (mkGlobals None
                         (mkOpts (Some (fun _ => [])) (Some true) None None
                                 None None None)
                         None None)))))
    = Some c
    /\ transactional_ddl (impl c) = false.
Proof.
  destruct (options_persist
              (fun _ => inl (PyException "unknown dialect"))
              (mkGlobals None
                 (mkOpts (Some (fun _ => [])) (Some true) None None None
                         None None)
                 None None)
              (mkArgs (Some (mkConnection (mkDialect "postgresql" true)))
                      None None (Some false) None None None)
              []
              (mkArgs (Some (mkConnection (mkDialect "postgresql" true)))
                      None None None None None None)
              _ eq_refl eq_refl)
    as (c & Hc & Htx & _).
  exists c. split; [exact Hc|].
  apply (Htx false eq_refl). repeat constructor.
Defined.

(** * Further properties of the module *)

(** ** Contexts and the registry *)

(** X1 -- Clearing the registry disables the module until [_opts] is
    called again.  After [_clear], whatever was configured before, there is
    no context: [get_context] and [get_impl] raise, and the module-level
    [run_migrations] and [execute] raise the same exception without
    executing or writing anything.  A [configure] call made in that state
    never succeeds, whatever its arguments (it fails on the dialect or on
    the missing ['fn']), and leaves the module without a context. *)
Theorem cleared_has_no_context
    (url_dialect : string -> Exn + Dialect) (g : Globals)
    (a : ConfigureArgs) (kw : Kw) (sql : string) (w : World) :
  get_context (_clear g)
  = inl (PyException "No context has been configured yet.")
  /\ get_impl (_clear g)
     = inl (PyException "No context has been configured yet.")
  /\ module_run_migrations (_clear g) kw w
     = Raised (PyException "No context has been configured yet.") w
  /\ module_execute (_clear g) sql w
     = Raised (PyException "No context has been configured yet.") w
  /\ fst (configure url_dialect a (_clear g)) <> None
  /\ get_context (snd (configure url_dialect a (_clear g)))
     = inl (PyException "No context has been configured yet.")
  /\ module_run_migrations (snd (configure url_dialect a (_clear g))) kw w
     = Raised (PyException "No context has been configured yet.") w.
Proof.
  do 4 (split; [reflexivity|]).
  destruct (store_args_fields a (_context_opts (_clear g))) as (Ffn & _).
  unfold configure.
  destruct (resolve_dialect url_dialect a) as [e|dl];
    [now repeat split|].
  rewrite Ffn. cbn [_clear _context_opts empty_opts opt_fn fst snd].
  now repeat split.
Qed.

(** X2 -- [configure] without a target: with no connection, and a url and a
    dialect name that are [None] or empty, it raises the "is required"
    exception; and when the url (or, with no url, the dialect name) cannot
    be resolved, it raises the resolver's exception, without falling back on
    the dialect name.  In both cases the registry and the active context are
    as before: none of the options of the call is stored. *)
Theorem configure_without_target
    (url_dialect : string -> Exn + Dialect) (a : ConfigureArgs)
    (g : Globals) :
  arg_connection a = None ->
  (truthy (arg_url a) = false -> truthy (arg_dialect_name a) = false ->
   configure url_dialect a g
   = (Some (PyException "Connection, url, or dialect_name is required."), g))
  /\ (forall url e,
        arg_url a = Some url -> url <> "" -> url_dialect url = inl e ->
        configure url_dialect a g = (Some e, g))
  /\ (forall name e,
        truthy (arg_url a) = false -> arg_dialect_name a = Some name ->
        name <> "" -> url_dialect (name ++ "://")%string = inl e ->
        configure url_dialect a g = (Some e, g)).
Proof.
  intros Hconn. unfold configure, resolve_dialect. rewrite Hconn.
  split; [|split].
  - now intros -> ->.
  - intros url e Hurl Hne He. rewrite Hurl. cbn [truthy default from_option id].
    apply String.eqb_neq in Hne. now rewrite Hne, He.
  - intros name e Hurl Hname Hne He. rewrite Hurl, Hname.
    cbn [truthy default from_option id].
    apply String.eqb_neq in Hne. now rewrite Hne, He.
Qed.

Lemma configure_without_target_witness :
  configure (fun _ => inl (PyException "unknown dialect"))
    (mkArgs None (Some "") None (Some true) None None (Some "nightly"))
    initial_globals
  = (Some (PyException "Connection, url, or dialect_name is required."),
     initial_globals).
Proof.
  exact (proj1 (configure_without_target
                  (fun _ => inl (PyException "unknown dialect"))
                  (mkArgs None (Some "") None (Some true) None None
                          (Some "nightly"))
                  initial_globals eq_refl) eq_refl eq_refl).
Defined.

(** X3 -- [configure] before any migration function was registered: when a
    dialect is resolved but the registry has no ['fn'], the call raises
    [KeyError]; the options of the call have been stored all the same, and
    the context that was active before stays the active one. *)
Theorem configure_without_fn
    (url_dialect : string -> Exn + Dialect) (a : ConfigureArgs)
    (g : Globals) (dl : Dialect) :
  resolve_dialect url_dialect a = inr dl ->
  opt_fn (_context_opts g) = None ->
  exists g',
    configure url_dialect a g = (Some (KeyError "fn"), g')
    /\ get_context g' = get_context g
    /\ (forall b, arg_transactional_ddl a = Some b ->
          opt_transactional_ddl (_context_opts g') = Some (Some b))
    /\ (forall buf, arg_output_buffer a = Some buf ->
          opt_output_buffer (_context_opts g') = Some (Some buf))
    /\ (truthy (arg_starting_rev a) = true ->
        opt_starting_rev (_context_opts g') = Some (arg_starting_rev a))
    /\ (truthy (arg_tag a) = true -> get_tag_argument g' = arg_tag a).
Proof.
  intros Hdl Hfn.
  destruct (store_args_fields a (_context_opts g))
    as (Ffn & _ & F1 & F2 & F3 & F4).
  unfold configure. rewrite Hdl, Ffn, Hfn.
  eexists. split; [reflexivity|]. cbn [_context_opts].
  split; [reflexivity|]. unfold get_tag_argument. cbn [_context_opts].
  repeat split.
  - intros b Hb. now rewrite F1, Hb.
  - intros buf Hb. now rewrite F2, Hb.
  - intros Hs. now rewrite F3, Hs.
  - intros Ht. now rewrite F4, Ht.
Qed.

Lemma configure_without_fn_witness :
  exists g',
    configure (fun _ => inl (PyException "unknown dialect"))
      (mkArgs (Some (mkConnection (mkDialect "sqlite" false)))
              None None (Some true) None None (Some "nightly"))
      (_clear initial_globals)
    = (Some (KeyError "fn"), g')
    /\ get_tag_argument g' = Some "nightly".
Proof.
  destruct (configure_without_fn
              (fun _ => inl (PyException "unknown dialect"))
              (mkArgs (Some (mkConnection (mkDialect "sqlite" false)))
                      None None (Some true) None None (Some "nightly"))
              (_clear initial_globals) (mkDialect "sqlite" false)
              eq_refl eq_refl)
    as (g' & Hcfg & _ & _ & _ & _ & Htag).
  exists g'. split; [exact Hcfg | exact (Htag eq_refl)].
Defined.



Lemma store_args_destination (a : ConfigureArgs) (o : Opts) :
  opt_destination_rev (store_args a o) = opt_destination_rev o.
Proof.
  unfold store_args.
  now destruct (arg_transactional_ddl a), (arg_output_buffer a),
    (truthy (arg_starting_rev a)), (truthy (arg_tag a)).
Qed.

Lemma configure_script (url_dialect : string -> Exn + Dialect)
    (a : ConfigureArgs) (g : Globals) :
  _script (snd (configure url_dialect a g)) = _script g
  /\ config (snd (configure url_dialect a g)) = config g.
Proof.
  unfold configure. destruct (resolve_dialect url_dialect a); [now split|].
  now destruct (opt_fn (store_args a (_context_opts g))).
Qed.



(** X6 -- The arguments of a successful [configure] call win over what the
    registry held: a durability passed to the call is the durability of the
    new context whatever the dialect supports, an output buffer passed to
    the call is the buffer of the context and of its implementation object,
    a non-empty starting revision is the starting revision of the context,
    a non-empty tag is the tag.  When the call leaves durability or buffer
    out and the registry holds no value for it (no key, or [None]), the
    context takes the capability of its dialect and the standard output. *)
Theorem configure_arguments_override
    (url_dialect : string -> Exn + Dialect) (a : ConfigureArgs)
    (g g' : Globals) :
  configure url_dialect a g = (None, g') ->
  exists ctx,
    get_context g' = inr ctx
    /\ (forall b, arg_transactional_ddl a = Some b ->
          transactional_ddl (impl ctx) = b)
    /\ (arg_transactional_ddl a = None ->
        get (opt_transactional_ddl (_context_opts g)) = None ->
        transactional_ddl (impl ctx)
        = supports_transactional_ddl (dialect ctx))
    /\ (forall buf, arg_output_buffer a = Some buf ->
          output_buffer ctx = buf /\ impl_output_buffer (impl ctx) = buf)
    /\ (arg_output_buffer a = None ->
        get (opt_output_buffer (_context_opts g)) = None ->
        output_buffer ctx = sys_stdout
        /\ impl_output_buffer (impl ctx) = sys_stdout)
    /\ (truthy (arg_starting_rev a) = true ->
        _start_from_rev ctx = arg_starting_rev a)
    /\ (truthy (arg_tag a) = true -> get_tag_argument g' = arg_tag a).
Proof.
  intros Hcfg.
  destruct (configure_context _ _ _ _ Hcfg) as (dl & fn & C & O).
  destruct (store_args_fields a (_context_opts g))
    as (_ & _ & F1 & F2 & F3 & F4).
  rewrite <- O in F1, F2, F3, F4.
  unfold get_context, get_tag_argument. rewrite C.
  eexists. split; [reflexivity|].
  cbn [impl Context_init DefaultImpl_init transactional_ddl output_buffer
       impl_output_buffer _start_from_rev dialect].
  rewrite F1, F2, F3, F4.
  split; [|split; [|split; [|split; [|split]]]].
  - now intros b ->.
  - now intros -> ->.
  - now intros buf ->.
  - now intros -> ->.
  - now intros ->.
  - now intros ->.
Qed.

Lemma configure_arguments_override_witness :
  exists ctx,
    get_context
      (snd (configure (fun _ => inl (PyException "unknown dialect"))
              (mkArgs (Some (mkConnection (mkDialect "postgresql" true)))
                      None None (Some false) None None None)
              (_opts (mkConfig "alembic.ini") (mkScript "migrations")
                     (mkOpts (Some (fun _ => [])) (Some false) (Some (Some true))
                             None None None None)
                     initial_globals)))
    = inr ctx
    /\ transactional_ddl (impl ctx) = false.
Proof.
  destruct (configure_arguments_override
              (fun _ => inl (PyException "unknown dialect"))
              (mkArgs (Some (mkConnection (mkDialect "postgresql" true)))
                      None None (Some false) None None None)
              (_opts (mkConfig "alembic.ini") (mkScript "migrations")
                     (mkOpts (Some (fun _ => [])) (Some false)
                             (Some (Some true)) None None None None)
                     initial_globals)
              _ eq_refl)
    as (ctx & Hctx & Htx & _).
  exists ctx. split; [exact Hctx | exact (Htx false eq_refl)].
Defined.

(** X7 -- Options set through [_opts] reach a context only at the next
    [configure]: [_opts] leaves the active context as it is, and a
    successful [configure] after it builds the new context with the
    migration function and the script of that [_opts] call, and in the mode
    it gave (the mode of the registry when it gave none). *)
Theorem opts_then_configure
    (url_dialect : string -> Exn + Dialect) (cfg : Config)
    (s : ScriptDirectory) (kw : Opts) (a : ConfigureArgs) (g g' : Globals)
    (fn : Sequencer) :
  opt_fn kw = Some fn ->
  configure url_dialect a (_opts cfg s kw g) = (None, g') ->
  get_context (_opts cfg s kw g) = get_context g
  /\ exists ctx,
       get_context g' = inr ctx
       /\ _migrations_fn ctx = fn
       /\ script ctx = Some s
       /\ config g' = Some cfg
       /\ (forall b, opt_as_sql kw = Some b -> as_sql ctx = b)
       /\ (opt_as_sql kw = None ->
           as_sql ctx = default false (opt_as_sql (_context_opts g))).
Proof.
  intros Hfn Hcfg. split; [reflexivity|].
  destruct (store_args_fields a (update (_context_opts g) kw))
    as (Ffn & Fsql & _).
  unfold configure in Hcfg. cbn [_opts _context_opts] in Hcfg.
  destruct (resolve_dialect url_dialect a) as [e|dl]; [discriminate|].
  rewrite Ffn in Hcfg. cbn [update opt_fn] in Hcfg.
  rewrite Hfn in Hcfg. cbn [override] in Hcfg.
  injection Hcfg as <-. unfold get_context. cbn [_context].
  eexists. split; [reflexivity|].
  cbn [_migrations_fn script config as_sql Context_init _script].
  rewrite Fsql. cbn [update opt_as_sql].
  repeat split.
  - now intros b ->.
  - now intros ->.
Qed.

Lemma opts_then_configure_witness :
  exists ctx,
    get_context
      (snd (configure (fun _ => inl (PyException "unknown dialect"))
              (mkArgs (Some (mkConnection (mkDialect "sqlite" false)))
                      None None None None None None)
              (_opts (mkConfig "alembic.ini") (mkScript "migrations")
                     (mkOpts (Some (fun _ => [])) (Some true) None None None
                             None None)
                     initial_globals)))
    = inr ctx
    /\ script ctx = Some (mkScript "migrations").
Proof.
  destruct (opts_then_configure
              (fun _ => inl (PyException "unknown dialect"))
              (mkConfig "alembic.ini") (mkScript "migrations")
              (mkOpts (Some (fun _ => [])) (Some true) None None None None
                      None)
              (mkArgs (Some (mkConnection (mkDialect "sqlite" false)))
                      None None None None None None)
              initial_globals _ (fun _ => []) eq_refl eq_refl)
    as (_ & ctx & Hctx & _ & Hs & _).
  exists ctx. split; [exact Hctx | exact Hs].
Defined.

(** X8 -- [configure_connection] stores nothing: the registry is as before,
    whether the call succeeds or not.  It succeeds exactly when a migration
    function is registered, and then the context is built on that
    connection and its dialect from the options the registry already
    held. *)
Theorem configure_connection_keeps_options
    (url_dialect : string -> Exn + Dialect) (c : Connection) (g : Globals) :
  _context_opts (snd (configure_connection url_dialect c g))
  = _context_opts g
  /\ (opt_fn (_context_opts g) = None ->
      fst (configure_connection url_dialect c g) = Some (KeyError "fn")
      /\ get_context (snd (configure_connection url_dialect c g))
         = get_context g)
  /\ (forall fn,
        opt_fn (_context_opts g) = Some fn ->
        fst (configure_connection url_dialect c g) = None
        /\ get_context (snd (configure_connection url_dialect c g))
           = inr (Context_init (conn_dialect c) (_script g) (Some c) fn
                    (default false (opt_as_sql (_context_opts g)))
                    (get (opt_output_buffer (_context_opts g)))
                    (get (opt_transactional_ddl (_context_opts g)))
                    (default None (opt_starting_rev (_context_opts g))))).
Proof.
  unfold configure_connection, configure, resolve_dialect, store_args.
  cbn [arg_connection arg_transactional_ddl arg_output_buffer
       arg_starting_rev arg_tag truthy].
  repeat split.
  - now destruct (opt_fn (_context_opts g)).
  - now rewrite H.
  - now rewrite H.
  - now rewrite H.
  - now rewrite H.
Qed.

Lemma configure_connection_keeps_options_witness :
  fst (configure_connection (fun _ => inl (PyException "unknown dialect"))
         (mkConnection (mkDialect "sqlite" false)) initial_globals)
  = Some (KeyError "fn").
Proof.
  exact (proj1 (proj1 (proj2 (configure_connection_keeps_options
                  (fun _ => inl (PyException "unknown dialect"))
                  (mkConnection (mkDialect "sqlite" false))
                  initial_globals)) eq_refl)).
Defined.

(** ** The revision arguments *)

(** X9 -- The starting revision argument.  With a context configured it is
    read from the context, so an [_opts] call made afterwards changes the
    script that converts it but not the revision; with no context it is
    read from the registry, also when the key holds [None]; only with no
    context and no key does the function raise [CommandError], as it does
    once the registry is cleared.  Right after a successful [configure] the
    two sources agree. *)
Theorem starting_revision_argument
    (f : ScriptDirectory -> RevisionId -> Exn + RevisionId) :
  (forall g,
     get_starting_revision_argument f (_clear g)
     = inl (ArgExn (CommandError
                      "No starting revision argument is available.")))
  /\ (forall g c cfg s kw,
        _context g = Some c ->
        get_starting_revision_argument f (_opts cfg s kw g)
        = match f s (_start_from_rev c) with
          | inl e => inl (ArgExn e)
          | inr r => inr r
          end)
  /\ (forall g cfg s kw r,
        _context g = None -> opt_starting_rev kw = Some r ->
        get_starting_revision_argument f (_opts cfg s kw g)
        = match f s r with
          | inl e => inl (ArgExn e)
          | inr r => inr r
          end)
  /\ (forall url_dialect a g g',
        configure url_dialect a g = (None, g') ->
        get_starting_revision_argument f g'
        = script_rev_number f g'
            (default None (opt_starting_rev (_context_opts g')))).
Proof.
  split; [reflexivity|]. split; [|split].
  - intros g c cfg s kw Hc. unfold get_starting_revision_argument.
    cbn [_opts _context]. now rewrite Hc.
  - intros g cfg s kw r Hc Hr. unfold get_starting_revision_argument.
    cbn [_opts _context _context_opts update opt_starting_rev].
    now rewrite Hc, Hr.
  - intros url_dialect a g g' Hcfg.
    destruct (configure_context _ _ _ _ Hcfg) as (dl & fn & C & _).
    unfold get_starting_revision_argument. now rewrite C.
Qed.

Lemma starting_revision_argument_witness :
  get_starting_revision_argument (fun _ r => inr r)
    (_opts (mkConfig "alembic.ini") (mkScript "migrations")
           (mkOpts (Some (fun _ => [])) (Some true) None None (Some None)
                   (Some (Some "b2")) None)
           initial_globals)
  = inr None.
Proof.
  exact (proj1 (proj2 (proj2 (starting_revision_argument (fun _ r => inr r))))
           initial_globals (mkConfig "alembic.ini") (mkScript "migrations")
           (mkOpts (Some (fun _ => [])) (Some true) None None (Some None)
                   (Some (Some "b2")) None)
           None eq_refl eq_refl).
Defined.

(** X10 -- The destination and head revision arguments do not depend on
    [configure]: whatever a [configure] call does, [get_revision_argument]
    and [get_head_revision] answer as before it.  Once the registry is
    cleared there is no script, and [get_revision_argument] fails on the
    attribute lookup before it reaches the missing key; with a script set
    up but no destination registered it raises [KeyError]. *)
Theorem revision_argument_stable
    (f : ScriptDirectory -> RevisionId -> Exn + RevisionId)
    (url_dialect : string -> Exn + Dialect) (a : ConfigureArgs)
    (g : Globals) :
  get_revision_argument f (snd (configure url_dialect a g))
  = get_revision_argument f g
  /\ get_head_revision f (snd (configure url_dialect a g))
     = get_head_revision f g
  /\ get_revision_argument f (_clear g)
     = inl (AttributeError "_as_rev_number")
  /\ (forall cfg s kw,
        opt_destination_rev kw = None ->
        opt_destination_rev (_context_opts g) = None ->
        get_revision_argument f (_opts cfg s kw g)
        = inl (ArgExn (KeyError "destination_rev"))).
Proof.
  destruct (configure_script url_dialect a g) as [Hs _].
  split; [|split; [|split]].
  - unfold get_revision_argument, script_rev_number. rewrite Hs.
    destruct (configure_opts url_dialect a g) as [-> | ->];
      [now rewrite store_args_destination | reflexivity].
  - unfold get_head_revision, script_rev_number. now rewrite Hs.
  - reflexivity.
  - intros cfg s kw Hkw Hg. unfold get_revision_argument.
    cbn [_opts _script _context_opts update opt_destination_rev].
    now rewrite Hkw, Hg.
Qed.

Lemma revision_argument_stable_witness :
  get_revision_argument (fun _ r => inr r)
    (_opts (mkConfig "alembic.ini") (mkScript "migrations")
           (mkOpts (Some (fun _ => [])) None None None None None None)
           initial_globals)
  = inl (ArgExn (KeyError "destination_rev")).
Proof.
  exact (proj2 (proj2 (proj2 (revision_argument_stable (fun _ r => inr r)
                  (fun _ => inl (PyException "unknown dialect"))
                  (mkArgs None None None None None None None)
                  initial_globals)))
           (mkConfig "alembic.ini") (mkScript "migrations")
           (mkOpts (Some (fun _ => [])) None None None None None None)
           eq_refl eq_refl).
Defined.

(** ** Runs that fail, and runs step by step *)

Lemma ghost_writes_steps (self : Context) (kw : Kw) (steps : list Step) :
  List.filter is_write (flat_map (step_delta self kw) steps)
  = if transactional_ddl (impl self) then []
    else map (fun s => EvWrite (PyRevision (prev_rev_of s))
                               (PyRevision (rev_of s))) steps.
Proof.
  induction steps as [|p steps IH].
  - now destruct (transactional_ddl (impl self)).
  - cbn [flat_map map]. unfold step_delta at 1.
    rewrite !List.filter_app, IH.
    rewrite (is_write_pointer_write _ (writes_block self kw p)).
    destruct (transactional_ddl (impl self)); [reflexivity|].
    now rewrite writes_of_write_delta.
Qed.

Lemma closing_writes (self : Context) (steps : list Step) :
  transactional_ddl (impl self) = false ->
  List.filter is_pointer_write (closing_delta self steps) = [].
Proof.
  intros Htx. destruct steps as [|first rest]; [reflexivity|].
  unfold closing_delta. rewrite Htx. cbn [app].
  now destruct (as_sql self && negb (truthy (final_rev (rev_of first) rest))).
Qed.

(** X11 -- A run with transactional durability in which the migration of a
    step raises: the run raises that exception and its log holds no pointer
    write at all, neither a call of [_update_current_rev] nor a statement
    on the pointer, however many steps succeeded before.  On a live
    connection the rows of the version table are the ones the read found
    (or an empty table it created), so the pointer is the starting one. *)
Theorem failed_batch_writes_nothing
    (d : Dialect) (sc : option ScriptDirectory) (conn : option Connection)
    (fn : Sequencer) (mode : bool) (ob : option Buffer) (tddl : option bool)
    (start : RevisionId) (kw : Kw) (w : World)
    (pre post : list Step) (step : Step) (msg : string) :
  let self := Context_init d sc conn fn mode ob tddl start in
  transactional_ddl (impl self) = true ->
  (mode = false -> is_Some conn /\ truthy start = false) ->
  fn (if mode then start else pointer (store w)) = pre ++ step :: post ->
  Forall (succeeds kw) pre ->
  raises (body (fst (fst step)) kw) = Some msg ->
  exists delta,
    run_migrations self kw w = Raised (MigrationError msg) (advance delta w)
    /\ List.filter is_pointer_write delta = []
    /\ (mode = false ->
        version_rows (store (advance delta w))
        = Some (default [] (version_rows (store w)))
        /\ pointer (store (advance delta w)) = pointer (store w)).
Proof.
  intros self Htx Hmode Hfn Hall Hraise.
  pose proof (Context_init_consistent d sc conn fn mode ob tddl start) as Hc.
  pose proof (startable_init d sc conn fn mode ob tddl start Hmode) as Hst.
  fold self in Hc, Hst.
  assert (Hsteps : _migrations_fn self (anchor self w) = pre ++ step :: post)
    by exact Hfn.
  pose proof (run_fail self Hc kw w pre post step msg Hst Hsteps Hall Hraise)
    as Hrun.
  eexists. split; [exact Hrun|]. split.
  - rewrite !List.filter_app, writes_marker, writes_read, writes_create,
      writes_steps, writes_block, Htx. reflexivity.
  - intros Hm. assert (Hlive : as_sql self = false) by exact Hm.
    cbn [advance store]. unfold marker, create_delta. rewrite Hlive.
    cbn [andb app].
    replace (match pre ++ step :: post with
             | [] => []
             | _ :: _ => @nil Event
             end) with (@nil Event) by now destruct (pre ++ step :: post).
    cbn [app]. rewrite !replay_app.
    set (rows := Some (default [] (version_rows (store w)))).
    assert (Hrows : version_rows (replay (block self kw step)
                      (replay (flat_map (step_delta self kw) pre)
                         (replay (read_delta self w) (store w)))) = rows).
    { apply (live_block (fun s (_ : RevisionId) => version_rows s = rows)
               ltac:(cbn beta; intros s s' r E HI; now rewrite E) self kw Hlive _ step
               None).
      apply (live_batch (fun s (_ : RevisionId) => version_rows s = rows)
               ltac:(cbn beta; intros s s' r E HI; now rewrite E) self kw Hlive pre None _
               Htx).
      destruct (read_delta_rows self w) as [Hr _]. now rewrite Hlive in Hr. }
    split; [exact Hrows|]. unfold pointer. rewrite Hrows. unfold rows.
    now destruct (version_rows (store w)).
Qed.

Lemma failed_batch_writes_nothing_witness :
  pointer (store (world_of
    (run_migrations
       (Context_init (mkDialect "postgresql" true) None
                     (Some (mkConnection (mkDialect "postgresql" true)))
                     (fun _ =>
                        [(mkChange "upgrade" (fun _ => [Execute "CREATE TABLE t1"]),
                          None, Some "a1");
                         (mkChange "upgrade"
                                   (fun _ => [Execute "CREATE TABLE t2"; Raise "boom"]),
                          Some "a1", Some "b2")])
                     false None None None)
       [] (mkWorld (mkStore None []) []))))
  = None.
Proof.
  destruct (failed_batch_writes_nothing
              (mkDialect "postgresql" true) None
              (Some (mkConnection (mkDialect "postgresql" true)))
              (fun _ =>
                 [(mkChange "upgrade" (fun _ => [Execute "CREATE TABLE t1"]),
                   None, Some "a1");
                  (mkChange "upgrade"
                            (fun _ => [Execute "CREATE TABLE t2"; Raise "boom"]),
                   Some "a1", Some "b2")])
              false None None None [] (mkWorld (mkStore None []) [])
              [(mkChange "upgrade" (fun _ => [Execute "CREATE TABLE t1"]),
                None, Some "a1")]
              []
              (mkChange "upgrade"
                        (fun _ => [Execute "CREATE TABLE t2"; Raise "boom"]),
               Some "a1", Some "b2")
              "boom")
    as (delta & Hrun & _ & Hptr).
  - reflexivity.
  - intros _. split; [eexists; reflexivity | reflexivity].
  - reflexivity.
  - repeat constructor.
  - reflexivity.
  - rewrite Hrun. exact (proj2 (Hptr eq_refl)).
Defined.

Lemma header_not_commit (change : Change) (prev_rev rev : RevisionId) :
  String.eqb (running_header change prev_rev rev) "COMMIT;" = false.
Proof. reflexivity. Qed.

Lemma no_commit_block (self : Context) (kw : Kw) (step : Step) :
  List.filter (is_static "COMMIT;") (block self kw step) = [].
Proof.
  unfold block, header_delta, body_delta, stmt_event.
  rewrite List.filter_app.
  replace (List.filter (is_static "COMMIT;")
             (map (fun sql => if as_sql self then EvRender (TextClause sql)
                              else EvLive (TextClause sql))
                  (sqls (body (fst (fst step)) kw)))) with (@nil Event).
  - destruct (as_sql self); [|reflexivity].
    cbn [List.filter is_static]. now rewrite header_not_commit.
  - induction (sqls (body (fst (fst step)) kw)) as [|sql l IH];
      [reflexivity|].
    simpl. now destruct (as_sql self).
Qed.

Lemma no_commit_blocks (self : Context) (kw : Kw) (steps : list Step) :
  List.filter (is_static "COMMIT;") (flat_map (block self kw) steps) = [].
Proof.
  induction steps as [|step steps IH]; [reflexivity|].
  simpl. now rewrite List.filter_app, no_commit_block, IH.
Qed.

(** X12 -- A rendering run with transactional durability in which a
    migration raises: the output opens with [BEGIN;], holds the blocks of
    the steps up to the failure, and has neither a [COMMIT;] marker nor any
    pointer write; the store is untouched.  The script that was being
    written is left open. *)
Theorem rendering_failure_uncommitted
    (d : Dialect) (sc : option ScriptDirectory) (conn : option Connection)
    (fn : Sequencer) (ob : option Buffer) (tddl : option bool)
    (start : RevisionId) (kw : Kw) (w : World)
    (pre post : list Step) (step : Step) (msg : string) :
  let self := Context_init d sc conn fn true ob tddl start in
  transactional_ddl (impl self) = true ->
  fn start = pre ++ step :: post ->
  Forall (succeeds kw) pre ->
  raises (body (fst (fst step)) kw) = Some msg ->
  exists delta,
    run_migrations self kw w
    = Raised (MigrationError msg)
        (mkWorld (store w) (events w ++ EvStatic "BEGIN;" :: delta))
    /\ delta = create_delta self (pre ++ step :: post)
               ++ flat_map (block self kw) pre ++ block self kw step
    /\ List.filter (is_static "COMMIT;") delta = []
    /\ List.filter is_pointer_write delta = [].
Proof.
  intros self Htx Hfn Hall Hraise.
  pose proof (Context_init_consistent d sc conn fn true ob tddl start) as Hc.
  fold self in Hc.
  assert (Hr : as_sql self = true) by reflexivity.
  assert (Hsteps : _migrations_fn self (anchor self w) = pre ++ step :: post)
    by exact Hfn.
  pose proof (run_fail self Hc kw w pre post step msg (or_introl Hr) Hsteps
                Hall Hraise) as Hrun.
  rewrite (steps_blocks self kw pre Htx) in Hrun.
  assert (Hm : marker self "BEGIN;" = [EvStatic "BEGIN;"])
    by (unfold marker; now rewrite Hr, Htx).
  assert (Hrd : read_delta self w = []) by reflexivity.
  rewrite Hm, Hrd in Hrun. cbn [app] in Hrun.
  destruct (offline_run self Hc Hr kw w) as (dl & _ & _ & Hstore).
  rewrite Hrun in Hstore. cbn [world_of advance store] in Hstore.
  eexists. split; [|split; [reflexivity|split]].
  - rewrite Hrun. unfold advance. now rewrite Hstore.
  - rewrite !List.filter_app, no_commit_blocks, no_commit_block.
    destruct (pre ++ step :: post) as [|s0 ss]; [reflexivity|].
    cbn [create_delta].
    now destruct (as_sql self && negb (truthy (prev_rev_of s0))).
  - now rewrite !List.filter_app, writes_create, writes_blocks, writes_block.
Qed.

Lemma rendering_failure_uncommitted_witness :
  completed
    (run_migrations
       (Context_init (mkDialect "postgresql" true) None None
                     (fun _ =>
                        [(mkChange "upgrade"
                                   (fun _ => [Execute "CREATE TABLE t1"; Raise "boom"]),
                          None, Some "a1")])
                     true None None None)
       [] (mkWorld (mkStore None []) []))
  = false.
Proof.
  destruct (rendering_failure_uncommitted
              (mkDialect "postgresql" true) None None
              (fun _ =>
                 [(mkChange "upgrade"
                            (fun _ => [Execute "CREATE TABLE t1"; Raise "boom"]),
                   None, Some "a1")])
              None None None [] (mkWorld (mkStore None []) [])
              [] []
              (mkChange "upgrade"
                        (fun _ => [Execute "CREATE TABLE t1"; Raise "boom"]),
               None, Some "a1")
              "boom" eq_refl eq_refl ltac:(constructor) eq_refl)
    as (delta & Hrun & _).
  now rewrite Hrun.
Defined.

(** X13 -- A run without transactional durability in which every migration
    succeeds: the run completes and calls [_update_current_rev] once per
    step, in the order of the steps, each time from the revision the step
    starts at to the one it ends at; nothing is written after the loop.  On
    a live connection, with the steps chained from the pointer the run
    started at, the pointer ends at the last revision. *)
Theorem non_transactional_progress
    (d : Dialect) (sc : option ScriptDirectory) (conn : option Connection)
    (fn : Sequencer) (mode : bool) (ob : option Buffer) (tddl : option bool)
    (start : RevisionId) (kw : Kw) (w : World) :
  let self := Context_init d sc conn fn mode ob tddl start in
  let steps := fn (if mode then start else pointer (store w)) in
  transactional_ddl (impl self) = false ->
  (mode = false -> is_Some conn /\ truthy start = false) ->
  Forall (succeeds kw) steps ->
  exists delta,
    run_migrations self kw w = Done tt (advance delta w)
    /\ List.filter is_write delta
       = map (fun s => EvWrite (PyRevision (prev_rev_of s))
                               (PyRevision (rev_of s))) steps
    /\ List.filter is_pointer_write delta
       = flat_map (fun s => write_delta self (PyRevision (prev_rev_of s))
                              (PyRevision (rev_of s))) steps
    /\ (mode = false -> chained (pointer (store w)) steps ->
        pointer (store (advance delta w))
        = final_rev (pointer (store w)) steps).
Proof.
  intros self steps Htx Hmode Hall.
  pose proof (Context_init_consistent d sc conn fn mode ob tddl start) as Hc.
  pose proof (startable_init d sc conn fn mode ob tddl start Hmode) as Hst.
  fold self in Hc, Hst.
  pose proof (run_ok self Hc kw w Hst) as Hrun.
  change (_migrations_fn self (anchor self w)) with steps in Hrun.
  specialize (Hrun Hall).
  eexists. split; [exact Hrun|].
  assert (Hpw : List.filter is_pointer_write (run_delta self kw w steps)
                = flat_map (fun s => write_delta self
                                       (PyRevision (prev_rev_of s))
                                       (PyRevision (rev_of s))) steps).
  { unfold run_delta.
    rewrite !List.filter_app, !writes_marker, writes_read, writes_create,
      writes_steps, (closing_writes self steps Htx), Htx.
    now rewrite !app_nil_r. }
  split; [|split; [exact Hpw|]].
  - unfold run_delta. rewrite !List.filter_app.
    rewrite (is_write_pointer_write _ (writes_marker self "BEGIN;")).
    rewrite (is_write_pointer_write _ (writes_marker self "COMMIT;")).
    rewrite (is_write_pointer_write _ (writes_read self w)).
    rewrite (is_write_pointer_write _ (writes_create self steps)).
    rewrite (is_write_pointer_write _ (closing_writes self steps Htx)).
    rewrite ghost_writes_steps, Htx. now rewrite !app_nil_r.
  - intros Hm Hchain. cbn [advance store].
    assert (Hlive : as_sql self = false) by exact Hm.
    apply (live_run points_to points_to_rows points_to_write self kw Hlive
             w steps (pointer (store w)) Hchain).
    now apply read_points_to.
Qed.

Lemma non_transactional_progress_witness :
  pointer (store (world_of
    (run_migrations
       (Context_init (mkDialect "mysql" false) None
                     (Some (mkConnection (mkDialect "mysql" false)))
                     (fun _ =>
                        [(mkChange "upgrade" (fun _ => [Execute "CREATE TABLE t1"]),
                          None, Some "a1");
                         (mkChange "upgrade" (fun _ => [Execute "CREATE TABLE t2"]),
                          Some "a1", Some "b2")])
                     false None None None)
       [] (mkWorld (mkStore None []) []))))
  = Some "b2".
Proof.
  destruct (non_transactional_progress
              (mkDialect "mysql" false) None
              (Some (mkConnection (mkDialect "mysql" false)))
              (fun _ =>
                 [(mkChange "upgrade" (fun _ => [Execute "CREATE TABLE t1"]),
                   None, Some "a1");
                  (mkChange "upgrade" (fun _ => [Execute "CREATE TABLE t2"]),
                   Some "a1", Some "b2")])
              false None None None [] (mkWorld (mkStore None []) []))
    as (delta & Hrun & _ & _ & Hptr).
  - reflexivity.
  - intros _. split; [eexists; reflexivity | reflexivity].
  - repeat constructor.
  - rewrite Hrun. apply Hptr; [reflexivity|]. now repeat split.
Defined.

(** ** The version table in a run *)

Lemma table_write_statement (old new : PyRev) :
  List.filter table_statement (write_statement old new) = [].
Proof.
  unfold write_statement.
  now destruct (py_eqb old new), (is_None new), (is_None old).
Qed.

Lemma table_step_script (kw : Kw) (transactional : bool) (step : Step) :
  List.filter table_statement (step_script kw transactional step) = [].
Proof.
  unfold step_script. rewrite List.filter_app.
  replace (List.filter table_statement
             (map TextClause (sqls (body (fst (fst step)) kw))))
    with (@nil Construct)
    by (induction (sqls (body (fst (fst step)) kw)); auto).
  destruct transactional; [reflexivity|]. apply table_write_statement.
Qed.

Lemma table_steps_script (kw : Kw) (transactional : bool)
    (steps : list Step) :
  List.filter table_statement (flat_map (step_script kw transactional) steps)
  = [].
Proof.
  induction steps as [|step steps IH]; [reflexivity|].
  simpl. now rewrite List.filter_app, table_step_script, IH.
Qed.

(** X14 -- The version table in a rendered script.  A rendering run in
    which every migration succeeds renders the creation of the version
    table exactly when there is a first step and the revision it starts
    from is [None] or the empty string, and the removal of the table
    exactly when there is a last step and the revision it ends at is
    [None] or the empty string; a run over no step renders neither,
    whatever the starting revision. *)
Theorem rendering_table_statements
    (d : Dialect) (sc : option ScriptDirectory) (conn : option Connection)
    (fn : Sequencer) (ob : option Buffer) (tddl : option bool)
    (start : RevisionId) (kw : Kw) (w : World) :
  let self := Context_init d sc conn fn true ob tddl start in
  let steps := fn start in
  Forall (succeeds kw) steps ->
  exists delta,
    run_migrations self kw w = Done tt (mkWorld (store w) (events w ++ delta))
    /\ List.filter table_statement (rendered delta)
       = match steps with
         | first :: rest =>
             (if truthy (prev_rev_of first) then [] else [CreateTable])
             ++ (if truthy (final_rev (rev_of first) rest) then []
                 else [DropTable])
         | [] => []
         end.
Proof.
  intros self steps Hall.
  pose proof (Context_init_consistent d sc conn fn true ob tddl start) as Hc.
  fold self in Hc.
  destruct (rendering_run_ok self kw w Hc eq_refl Hall) as [Hrun Hlive].
  change (_migrations_fn self (_start_from_rev self)) with steps
    in Hrun, Hlive.
  eexists. split; [exact Hrun|].
  rewrite (rendered_constructs _ Hlive).
  rewrite (rendering_constructs self kw w steps eq_refl).
  rewrite !List.filter_app, table_steps_script.
  destruct steps as [|first rest].
  - now destruct (transactional_ddl (impl self)).
  - replace (List.filter table_statement
               (if transactional_ddl (impl self)
                then write_statement (PyRevision (prev_rev_of first))
                       (PyRevision (final_rev (rev_of first) rest))
                else [])) with (@nil Construct)
      by (destruct (transactional_ddl (impl self));
          [now rewrite table_write_statement | reflexivity]).
    cbn [app].
    now destruct (truthy (prev_rev_of first)),
      (truthy (final_rev (rev_of first) rest)).
Qed.

Lemma rendering_table_statements_witness :
  exists delta,
    run_migrations
      (Context_init (mkDialect "mysql" false) None None
                    (fun _ =>
                       [(mkChange "downgrade" (fun _ => [Execute "DROP TABLE t1"]),
                         Some "a1", Some "")])
                    true None None (Some "a1"))
      [] (mkWorld (mkStore None []) [])
    = Done tt (mkWorld (mkStore None []) delta)
    /\ List.filter table_statement (rendered delta) = [DropTable].
Proof.
  destruct (rendering_table_statements
              (mkDialect "mysql" false) None None
              (fun _ =>
                 [(mkChange "downgrade" (fun _ => [Execute "DROP TABLE t1"]),
                   Some "a1", Some "")])
              None None (Some "a1") [] (mkWorld (mkStore None []) []))
    as (delta & Hrun & Htable).
  - repeat constructor.
  - exists delta. split; [exact Hrun | exact Htable].
Defined.

Lemma steps_split (kw : Kw) (steps : list Step) :
  Forall (succeeds kw) steps
  \/ exists pre step post msg,
       steps = pre ++ step :: post
       /\ Forall (succeeds kw) pre
       /\ raises (body (fst (fst step)) kw) = Some msg.
Proof.
  induction steps as [|s steps IH]; [left; constructor|].
  destruct (raises (body (fst (fst s)) kw)) as [msg|] eqn:E.
  - right. exists [], s, steps, msg. repeat split; [constructor | exact E].
  - destruct IH as [IH | (pre & step & post & msg & -> & Hpre & Hr)].
    + left. now constructor.
    + right. exists (s :: pre), step, post, msg.
      repeat split; [now constructor | exact Hr].
Qed.

Lemma has_table_write (s : Store) (old new : RevisionId) :
  has_table s = true ->
  exists s',
    run_script (write_statement (PyRevision old) (PyRevision new)) s = inr s'
    /\ has_table s' = true /\ applied_sql s' = applied_sql s.
Proof.
  unfold has_table, write_statement.
  destruct s as [[rows|] sql]; [|discriminate]. intros _.
  destruct (py_eqb (PyRevision old) (PyRevision new));
    [eexists; now repeat split|].
  destruct (is_None (PyRevision new)); [eexists; now repeat split|].
  destruct (is_None (PyRevision old)); eexists; now repeat split.
Qed.

Lemma table_steps (self : Context) (kw : Kw) (steps : list Step) (s : Store) :
  as_sql self = false -> has_table s = true ->
  has_table (replay (flat_map (step_delta self kw) steps) s) = true.
Proof.
  intros Hlive. revert s. induction steps as [|step steps IH]; intros s Ht;
    [exact Ht|].
  cbn [flat_map]. rewrite replay_app. apply IH.
  unfold step_delta. rewrite replay_app.
  pose proof (live_block (fun s (_ : RevisionId) => has_table s = true)
                ltac:(cbn beta; unfold has_table; intros s0 s' r E HI;
                      now rewrite E)
                self kw Hlive s step None Ht) as Hb.
  cbn beta in Hb.
  destruct (transactional_ddl (impl self)); [exact Hb|].
  apply (live_write (fun s (_ : RevisionId) => has_table s = true)
           has_table_write self Hlive _ (prev_rev_of step) (rev_of step) Hb).
Qed.

(** X15 -- A live run never removes the version table.  With a connection
    and no starting revision, after the run the version table is there,
    whether it existed before or not, whether the run completed or a
    migration raised, and also after steps that end at [None]: the record
    is deleted, the table stays. *)
Theorem live_run_keeps_table
    (d : Dialect) (sc : option ScriptDirectory) (c : Connection)
    (fn : Sequencer) (ob : option Buffer) (tddl : option bool)
    (start : RevisionId) (kw : Kw) (w : World) :
  let self := Context_init d sc (Some c) fn false ob tddl start in
  truthy start = false ->
  has_table (store (world_of (run_migrations self kw w))) = true.
Proof.
  intros self Hstart.
  pose proof (Context_init_consistent d sc (Some c) fn false ob tddl start)
    as Hc. fold self in Hc.
  assert (Hlive : as_sql self = false) by reflexivity.
  assert (Hst : startable self)
    by (right; split; [now exists c | exact Hstart]).
  assert (Hread : has_table (replay (read_delta self w) (store w)) = true)
    by (now destruct (read_points_to self w Hlive)).
  destruct (steps_split kw (_migrations_fn self (anchor self w)))
    as [Hall | (pre & step & post & msg & Hsteps & Hpre & Hr)].
  - rewrite (run_ok self Hc kw w Hst Hall). cbn [world_of advance store].
    unfold run_delta, marker, create_delta, closing_delta.
    rewrite Hlive. cbn [andb app].
    destruct (_migrations_fn self (anchor self w)) as [|first rest].
    + cbn [app flat_map]. now rewrite app_nil_r.
    + cbn [app]. rewrite !app_nil_r, !replay_app.
      pose proof (table_steps self kw (first :: rest) _ Hlive Hread) as Hs.
      destruct (transactional_ddl (impl self)); [|exact Hs].
      apply (live_write (fun s (_ : RevisionId) => has_table s = true)
               has_table_write self Hlive _ (prev_rev_of first)
               (final_rev (rev_of first) rest) Hs).
  - rewrite (run_fail self Hc kw w pre post step msg Hst Hsteps Hpre Hr).
    cbn [world_of advance store].
    unfold marker, create_delta. rewrite Hlive. cbn [andb app].
    replace (match pre ++ step :: post with
             | [] => []
             | _ :: _ => @nil Event
             end) with (@nil Event) by now destruct (pre ++ step :: post).
    cbn [app]. rewrite !replay_app.
    apply (live_block (fun s (_ : RevisionId) => has_table s = true)
             ltac:(cbn beta; unfold has_table; intros s0 s' r E HI;
                   now rewrite E)
             self kw Hlive _ step None).
    now apply table_steps.
Qed.

Lemma live_run_keeps_table_witness :
  has_table (store (world_of
    (run_migrations
       (Context_init (mkDialect "mysql" false) None
                     (Some (mkConnection (mkDialect "mysql" false)))
                     (fun _ =>
                        [(mkChange "downgrade" (fun _ => [Execute "DROP TABLE t1"]),
                          Some "a1", None)])
                     false None None None)
       [] (mkWorld (mkStore (Some ["a1"]) []) []))))
  = true.
Proof.
  exact (live_run_keeps_table
           (mkDialect "mysql" false) None
           (mkConnection (mkDialect "mysql" false))
           (fun _ =>
              [(mkChange "downgrade" (fun _ => [Execute "DROP TABLE t1"]),
                Some "a1", None)])
           None None None [] (mkWorld (mkStore (Some ["a1"]) []) [])
           eq_refl).
Defined.

(** ** The record and the statements on a live store *)

(** X16 -- The pointer write keeps the single record.  On a live
    connection whose version table holds exactly the record of [old] (no
    row for [None]), the write from [old] to [mid] succeeds and leaves
    exactly the record of [mid]; writes compose: writing from [old] to
    [mid] and then from [mid] to [new] leaves the same rows as the single
    write from [old] to [new]. *)
Theorem update_keeps_single_record
    (d : Dialect) (sc : option ScriptDirectory) (c : Connection)
    (fn : Sequencer) (ob : option Buffer) (tddl : option bool)
    (start : RevisionId) (old mid new : RevisionId) (w : World) :
  let self := Context_init d sc (Some c) fn false ob tddl start in
  single_row (store w) old ->
  exists w1 w2 w3,
    _update_current_rev self (PyRevision old) (PyRevision mid) w = Done tt w1
    /\ single_row (store w1) mid
    /\ _update_current_rev self (PyRevision mid) (PyRevision new) w1
       = Done tt w2
    /\ single_row (store w2) new
    /\ _update_current_rev self (PyRevision old) (PyRevision new) w
       = Done tt w3
    /\ version_rows (store w3) = version_rows (store w2).
Proof.
  intros self Hrow.
  pose proof (Context_init_consistent d sc (Some c) fn false ob tddl start)
    as Hc. fold self in Hc.
  assert (Hlive : as_sql self = false) by reflexivity.
  assert (Hu : usable self w).
  { right. split; [now exists c|]. unfold has_table.
    unfold single_row in Hrow. now rewrite Hrow. }
  destruct (yields_update self Hc (PyRevision old) (PyRevision mid) w Hu)
    as [E1 U1].
  destruct (yields_update self Hc (PyRevision mid) (PyRevision new) _ U1)
    as [E2 _].
  destruct (yields_update self Hc (PyRevision old) (PyRevision new) w Hu)
    as [E3 _].
  pose proof (live_write single_row single_row_write self Hlive (store w)
                old mid Hrow) as H1.
  pose proof (live_write single_row single_row_write self Hlive _ mid new H1)
    as H2.
  pose proof (live_write single_row single_row_write self Hlive (store w)
                old new Hrow) as H3.
  do 3 eexists.
  split; [exact E1|]. split; [exact H1|]. split; [exact E2|].
  split; [exact H2|]. split; [exact E3|].
  cbn [advance store] in *. unfold single_row in H2, H3.
  now rewrite H2, H3.
Qed.

Lemma update_keeps_single_record_witness :
  exists w1,
    _update_current_rev
      (Context_init (mkDialect "sqlite" false) None
                    (Some (mkConnection (mkDialect "sqlite" false)))
                    (fun _ => []) false None None None)
      (PyRevision None) (PyRevision (Some "a1"))
      (mkWorld (mkStore (Some []) []) [])
    = Done tt w1
    /\ single_row (store w1) (Some "a1").
Proof.
  destruct (update_keeps_single_record
              (mkDialect "sqlite" false) None
              (mkConnection (mkDialect "sqlite" false))
              (fun _ => []) None None None None (Some "a1") (Some "b2")
              (mkWorld (mkStore (Some []) []) []) eq_refl)
    as (w1 & w2 & w3 & E1 & H1 & _).
  exists w1. split; [exact E1 | exact H1].
Defined.

Lemma store_after_text (c : Construct) (s : Store) :
  applied_sql (store_after c s) = applied_sql s ++ statement_text c.
Proof.
  unfold store_after, store_execute, statement_text.
  destruct c, (version_rows s); simpl; now rewrite ?app_nil_r.
Qed.

Lemma replay_applied (delta : list Event) (s : Store) :
  rendered delta = [] ->
  applied_sql (replay delta s)
  = applied_sql s ++ flat_map statement_text (constructs delta).
Proof.
  revert s. induction delta as [|ev delta IH]; intros s Hr.
  - simpl. now rewrite app_nil_r.
  - destruct ev; simpl in *; try discriminate; try now apply IH.
    rewrite IH by exact Hr. now rewrite store_after_text, <- app_assoc.
Qed.

Lemma text_write_statement (old new : PyRev) :
  flat_map statement_text (write_statement old new) = [].
Proof.
  unfold write_statement.
  now destruct (py_eqb old new), (is_None new), (is_None old).
Qed.

Lemma text_clauses (l : list string) :
  flat_map statement_text (map TextClause l) = l.
Proof. induction l as [|sql l IH]; [reflexivity|]. simpl. now rewrite IH. Qed.

Lemma text_steps_script (kw : Kw) (transactional : bool)
    (steps : list Step) :
  flat_map statement_text (flat_map (step_script kw transactional) steps)
  = flat_map (fun step => sqls (body (fst (fst step)) kw)) steps.
Proof.
  induction steps as [|step steps IH]; [reflexivity|].
  cbn [flat_map]. rewrite List.flat_map_app, IH. f_equal.
  unfold step_script. rewrite List.flat_map_app, text_clauses.
  destruct transactional; [now rewrite app_nil_r|].
  now rewrite text_write_statement, app_nil_r.
Qed.

Lemma read_delta_text (self : Context) (w : World) :
  rendered (read_delta self w) = []
  /\ flat_map statement_text (constructs (read_delta self w)) = [].
Proof.
  unfold read_delta. now destruct (as_sql self), (has_table (store w)).
Qed.

Lemma steps_applied (self : Context) (kw : Kw) (steps : list Step)
    (s : Store) :
  as_sql self = false ->
  applied_sql (replay (flat_map (step_delta self kw) steps) s)
  = applied_sql s ++ flat_map (fun step => sqls (body (fst (fst step)) kw))
                       steps.
Proof.
  intros Hlive.
  rewrite replay_applied by now apply rendered_steps.
  now rewrite constructs_steps, text_steps_script.
Qed.

Lemma write_applied (self : Context) (old new : PyRev) (s : Store) :
  as_sql self = false ->
  applied_sql (replay (write_delta self old new) s) = applied_sql s.
Proof.
  intros Hlive.
  rewrite replay_applied by now apply rendered_write_delta.
  now rewrite constructs_write_delta, text_write_statement, app_nil_r.
Qed.

Lemma read_applied (self : Context) (w : World) :
  applied_sql (replay (read_delta self w) (store w)) = applied_sql (store w).
Proof. now destruct (read_delta_rows self w). Qed.

Lemma live_run_applied (self : Context) (kw : Kw) (w : World)
    (steps : list Step) :
  as_sql self = false ->
  applied_sql (replay (run_delta self kw w steps) (store w))
  = applied_sql (store w)
    ++ flat_map (fun step => sqls (body (fst (fst step)) kw)) steps.
Proof.
  intros Hlive. unfold run_delta, marker, create_delta, closing_delta.
  rewrite Hlive. cbn [andb app].
  replace (match steps with
           | [] => []
           | _ :: _ => @nil Event
           end) with (@nil Event) by now destruct steps.
  cbn [app]. rewrite !replay_app. cbn [replay].
  assert (Hclose : forall s,
    applied_sql
      (replay match steps with
              | [] => []
              | first :: rest =>
                  (if transactional_ddl (impl self)
                   then write_delta self (PyRevision (prev_rev_of first))
                          (PyRevision (final_rev (rev_of first) rest))
                   else []) ++ []
              end s) = applied_sql s).
  { intros s. destruct steps as [|first rest]; [reflexivity|].
    rewrite app_nil_r.
    destruct (transactional_ddl (impl self)); [|reflexivity].
    now apply write_applied. }
  now rewrite Hclose, steps_applied, read_applied.
Qed.

(** X17 -- On a live connection the two durability modes leave the same
    store.  From a store holding at most the one record of its pointer,
    over steps that are chained from that pointer and all succeed, the run
    with transactional durability and the run without it both complete and
    end in the same store: the single record of the last revision, and the
    statements of the migrations executed in the same order. *)
Theorem durability_modes_agree
    (d : Dialect) (sc : option ScriptDirectory) (c : Connection)
    (fn : Sequencer) (ob : option Buffer) (start : RevisionId) (kw : Kw)
    (w : World) :
  let batch := Context_init d sc (Some c) fn false ob (Some true) start in
  let stepwise := Context_init d sc (Some c) fn false ob (Some false) start in
  let steps := fn (pointer (store w)) in
  truthy start = false ->
  version_rows (store w) = None \/ single_row (store w) (pointer (store w)) ->
  chained (pointer (store w)) steps ->
  Forall (succeeds kw) steps ->
  exists w1 w2,
    run_migrations batch kw w = Done tt w1
    /\ run_migrations stepwise kw w = Done tt w2
    /\ store w1 = store w2
    /\ single_row (store w1) (final_rev (pointer (store w)) steps).
Proof.
  intros batch stepwise steps Hstart Hrows Hchain Hall.
  pose proof (Context_init_consistent d sc (Some c) fn false ob (Some true)
                start) as Hc1.
  pose proof (Context_init_consistent d sc (Some c) fn false ob (Some false)
                start) as Hc2.
  fold batch in Hc1. fold stepwise in Hc2.
  assert (Hst1 : startable batch)
    by (right; split; [now exists c | exact Hstart]).
  assert (Hst2 : startable stepwise)
    by (right; split; [now exists c | exact Hstart]).
  pose proof (run_ok batch Hc1 kw w Hst1 Hall) as R1.
  pose proof (run_ok stepwise Hc2 kw w Hst2 Hall) as R2.
  change (_migrations_fn batch (anchor batch w)) with steps in R1.
  change (_migrations_fn stepwise (anchor stepwise w)) with steps in R2.
  assert (Hread : forall self, as_sql self = false ->
            single_row (replay (read_delta self w) (store w))
                       (pointer (store w))).
  { intros self Hl. apply read_single_row; [exact Hl|].
    destruct Hrows as [Hn | Hs]; [left | now right].
    split; [exact Hn|]. unfold pointer. now rewrite Hn. }
  pose proof (live_run single_row single_row_rows single_row_write batch kw
                eq_refl w steps _ Hchain (Hread batch eq_refl)) as I1.
  pose proof (live_run single_row single_row_rows single_row_write stepwise
                kw eq_refl w steps _ Hchain (Hread stepwise eq_refl)) as I2.
  pose proof (live_run_applied batch kw w steps eq_refl) as A1.
  pose proof (live_run_applied stepwise kw w steps eq_refl) as A2.
  do 2 eexists. split; [exact R1|]. split; [exact R2|].
  cbn [advance store]. split; [|exact I1].
  unfold single_row in I1, I2.
  destruct (replay (run_delta batch kw w steps) (store w)) as [r1 a1].
  destruct (replay (run_delta stepwise kw w steps) (store w)) as [r2 a2].
  cbn [version_rows applied_sql] in *. congruence.
Qed.

Lemma durability_modes_agree_witness :
  exists w1 w2,
    run_migrations
      (Context_init (mkDialect "postgresql" true) None
                    (Some (mkConnection (mkDialect "postgresql" true)))
                    (fun _ =>
                       [(mkChange "upgrade" (fun _ => [Execute "CREATE TABLE t1"]),
                         None, Some "a1");
                        (mkChange "upgrade" (fun _ => [Execute "CREATE TABLE t2"]),
                         Some "a1", Some "b2")])
                    false None (Some true) None)
      [] (mkWorld (mkStore None []) [])
    = Done tt w1
    /\ run_migrations
         (Context_init (mkDialect "postgresql" true) None
                       (Some (mkConnection (mkDialect "postgresql" true)))
                       (fun _ =>
                          [(mkChange "upgrade" (fun _ => [Execute "CREATE TABLE t1"]),
                            None, Some "a1");
                           (mkChange "upgrade" (fun _ => [Execute "CREATE TABLE t2"]),
                            Some "a1", Some "b2")])
                       false None (Some false) None)
         [] (mkWorld (mkStore None []) [])
       = Done tt w2
    /\ store w1 = store w2.
Proof.
  destruct (durability_modes_agree
              (mkDialect "postgresql" true) None
              (mkConnection (mkDialect "postgresql" true))
              (fun _ =>
                 [(mkChange "upgrade" (fun _ => [Execute "CREATE TABLE t1"]),
                   None, Some "a1");
                  (mkChange "upgrade" (fun _ => [Execute "CREATE TABLE t2"]),
                   Some "a1", Some "b2")])
              None None [] (mkWorld (mkStore None []) []))
    as (w1 & w2 & R1 & R2 & Hs & _).
  - reflexivity.
  - now left.
  - now repeat split.
  - repeat constructor.
  - exists w1, w2. now repeat split.
Defined.

(** X18 -- What a live run executes.  With a connection and no starting
    revision, a run in which every migration succeeds has executed, on top
    of what the store had seen, the statements of the migrations in the
    order of the steps, each migration called with the keyword arguments
    of the run; a run in which the migration of a step raises has executed
    the statements of the steps before it and the statements of that
    migration up to the one that raised, and nothing of the steps after
    it. *)
Theorem live_run_statements
    (d : Dialect) (sc : option ScriptDirectory) (c : Connection)
    (fn : Sequencer) (ob : option Buffer) (tddl : option bool)
    (start : RevisionId) (kw : Kw) (w : World) :
  let self := Context_init d sc (Some c) fn false ob tddl start in
  let steps := fn (pointer (store w)) in
  truthy start = false ->
  (Forall (succeeds kw) steps ->
   applied_sql (store (world_of (run_migrations self kw w)))
   = applied_sql (store w)
     ++ flat_map (fun step => sqls (body (fst (fst step)) kw)) steps)
  /\ (forall pre step post msg,
        steps = pre ++ step :: post ->
        Forall (succeeds kw) pre ->
        raises (body (fst (fst step)) kw) = Some msg ->
        applied_sql (store (world_of (run_migrations self kw w)))
        = applied_sql (store w)
          ++ flat_map (fun step => sqls (body (fst (fst step)) kw)) pre
          ++ sqls (body (fst (fst step)) kw)).
Proof.
  intros self steps Hstart.
  pose proof (Context_init_consistent d sc (Some c) fn false ob tddl start)
    as Hc. fold self in Hc.
  assert (Hlive : as_sql self = false) by reflexivity.
  assert (Hst : startable self)
    by (right; split; [now exists c | exact Hstart]).
  split.
  - intros Hall. rewrite (run_ok self Hc kw w Hst Hall).
    cbn [world_of advance store]. now apply live_run_applied.
  - intros pre step post msg Hsteps Hpre Hr.
    rewrite (run_fail self Hc kw w pre post step msg Hst Hsteps Hpre Hr).
    cbn [world_of advance store].
    unfold marker, create_delta. rewrite Hlive. cbn [andb app].
    replace (match pre ++ step :: post with
             | [] => []
             | _ :: _ => @nil Event
             end) with (@nil Event) by now destruct (pre ++ step :: post).
    cbn [app]. rewrite !replay_app.
    rewrite replay_applied by now apply rendered_block.
    rewrite constructs_block, text_clauses, steps_applied by exact Hlive.
    now rewrite read_applied, <- app_assoc.
Qed.

Lemma live_run_statements_witness :
  applied_sql (store (world_of
    (run_migrations
       (Context_init (mkDialect "mysql" false) None
                     (Some (mkConnection (mkDialect "mysql" false)))
                     (fun _ =>
                        [(mkChange "upgrade"
                                   (fun _ => [Execute "CREATE TABLE t1";
                                              Raise "boom";
                                              Execute "CREATE TABLE t2"]),
                          None, Some "a1")])
                     false None None None)
       [] (mkWorld (mkStore None []) []))))
  = ["CREATE TABLE t1"].
Proof.
  exact (proj2 (live_run_statements
                  (mkDialect "mysql" false) None
                  (mkConnection (mkDialect "mysql" false))
                  (fun _ =>
                     [(mkChange "upgrade"
                                (fun _ => [Execute "CREATE TABLE t1";
                                           Raise "boom";
                                           Execute "CREATE TABLE t2"]),
                       None, Some "a1")])
                  None None None [] (mkWorld (mkStore None []) []) eq_refl)
           [] _ [] "boom" eq_refl ltac:(constructor) eq_refl).
Defined.

(** ** Rendering needs no connection *)

(** X19 -- In rendering mode the connection given to the context plays no
    part: two contexts that differ only in it (one may have none) run to
    the same result, with the same output or the same exception, from any
    world. *)
Theorem rendering_ignores_connection
    (d : Dialect) (sc : option ScriptDirectory) (conn1 conn2 : option Connection)
    (fn : Sequencer) (ob : option Buffer) (tddl : option bool)
    (start : RevisionId) (kw : Kw) (w : World) :
  run_migrations (Context_init d sc conn1 fn true ob tddl start) kw w
  = run_migrations (Context_init d sc conn2 fn true ob tddl start) kw w.
Proof.
  pose proof (Context_init_consistent d sc conn1 fn true ob tddl start) as H1.
  pose proof (Context_init_consistent d sc conn2 fn true ob tddl start) as H2.
  destruct (steps_split kw (fn start))
    as [Hall | (pre & step & post & msg & Hsteps & Hpre & Hr)].
  - rewrite (run_ok _ H1 kw w (or_introl eq_refl) Hall).
    rewrite (run_ok _ H2 kw w (or_introl eq_refl) Hall).
    reflexivity.
  - rewrite (run_fail _ H1 kw w pre post step msg (or_introl eq_refl) Hsteps
               Hpre Hr).
    rewrite (run_fail _ H2 kw w pre post step msg (or_introl eq_refl) Hsteps
               Hpre Hr).
    reflexivity.
Qed.

(** X20 -- The module-level [execute] after a successful [configure].  When
    the registry is in rendering mode the statement is rendered to the
    output and the store is untouched, with or without a connection.  When
    it is in live mode and a connection was passed, the statement is
    given to the connection and nothing is rendered; with no connection the
    call raises and nothing happens. *)
Theorem execute_after_configure
    (url_dialect : string -> Exn + Dialect) (a : ConfigureArgs)
    (g g' : Globals) (sql : string) (w : World) :
  configure url_dialect a g = (None, g') ->
  (requires_connection g = false ->
   module_execute g' sql w
   = Done tt (mkWorld (store w) (events w ++ [EvRender (TextClause sql)])))
  /\ (requires_connection g = true -> is_Some (arg_connection a) ->
      exists s',
        module_execute g' sql w
        = Done tt (mkWorld s' (events w ++ [EvLive (TextClause sql)]))
        /\ applied_sql s' = applied_sql (store w) ++ [sql])
  /\ (requires_connection g = true -> arg_connection a = None ->
      completed (module_execute g' sql w) = false
      /\ world_of (module_execute g' sql w) = w).
Proof.
  intros Hcfg.
  destruct (configure_context _ _ _ _ Hcfg) as (dl & fn & C & O).
  destruct (store_args_fields a (_context_opts g)) as (_ & Fsql & _).
  unfold module_execute, get_context. rewrite C.
  unfold execute, _exec.
  cbn [impl Context_init DefaultImpl_init impl_as_sql impl_connection].
  rewrite O, Fsql. unfold requires_connection.
  split; [|split].
  - intros Hr. apply negb_false_iff in Hr. now rewrite Hr.
  - intros Hr [c Hconn]. apply negb_true_iff in Hr. rewrite Hr, Hconn.
    unfold bind, conn_execute, store_execute.
    destruct (version_rows (store w)); eexists; now split.
  - intros Hr Hconn. apply negb_true_iff in Hr. rewrite Hr, Hconn.
    now split.
Qed.

Lemma execute_after_configure_witness :
  module_execute
    (snd (configure (fun s => inr (mkDialect s true))
            (mkArgs None None (Some "postgresql") None None None None)
            (_opts (mkConfig "alembic.ini") (mkScript "migrations")
                   (mkOpts (Some (fun _ => [])) (Some true) None None None
                           None None)
                   initial_globals)))
    "CREATE TABLE t1" (mkWorld (mkStore None []) [])
  = Done tt (mkWorld (mkStore None [])
                     [EvRender (TextClause "CREATE TABLE t1")]).
Proof.
  exact (proj1 (execute_after_configure
                  (fun s => inr (mkDialect s true))
                  (mkArgs None None (Some "postgresql") None None None None)
                  (_opts (mkConfig "alembic.ini") (mkScript "migrations")
                         (mkOpts (Some (fun _ => [])) (Some true) None None
                                 None None None)
                         initial_globals)
                  _ "CREATE TABLE t1" (mkWorld (mkStore None []) []) eq_refl)
           eq_refl).
Defined.
